(** * Vpn-Snippet: the UDP tunnel programs [tunneludp_v1.c] and [tunneludp_v2.c]

    A shallow embedding of the two variants of the tunnel program.  Each
    [main] is an action of a small monad that threads the local variables of
    [main], logs every library and system call together with the values the
    variables have when the call is made, and stops at [exit].  The operating
    system is a script of results: one result per call that the program makes.

    Contents: constants, C library functions and the monad; the module [V1]
    ([tunneludp_v1.c]), the input and output helpers of that file, and the
    module [V2] ([tunneludp_v2.c]); the vocabulary of the statements and the
    inputs of the examples; then the lemmas and the theorems on the relay
    loop (readiness wait, sources drained, failing calls, size of the
    transfers, destination of the frames), on the port of v1 and on the
    handshake of both roles; on the command line, the opening of the
    device and the socket, the port of v2, the path of a frame from one
    interface to the other, and on [cread], [cwrite] and [read_n]. *)

From Stdlib Require Import ZArith Bool Ascii String List Lia.
From Stdlib.Strings Require Import Byte.
Import ListNotations.

Local Open Scope string_scope.
Local Open Scope list_scope.
Local Open Scope Z_scope.

Set Implicit Arguments.

(* ================================================================= *)
(** ** Constants of the two sources and of the system headers *)

(** [#define BUFSIZE 4096], [CLIENT], [SERVER]; [PORT] differs per variant
    and lives in the modules [V1] and [V2]. *)
Definition BUFSIZE : Z := 4096.
Arguments BUFSIZE : simpl never.
Definition CLIENT : Z := 0.
Definition SERVER : Z := 1.
Definition IP_HDR_LEN : Z := 20.
Definition ETH_HDR_LEN : Z := 14.

(** Values of [<linux/if.h>], [<linux/if_tun.h>], [<errno.h>] and
    [<netinet/in.h>] on Linux. *)
Definition IFNAMSIZ : Z := 16.
Definition IFF_TUN : Z := 1.
Definition IFF_TAP : Z := 2.
Definition IFF_NO_PI : Z := 4096.
Definition EINTR : Z := 4.
Definition AF_INET : Z := 2.
Definition INADDR_ANY : Z := 0.

(** [struct sockaddr_in]: the port and the address are kept in network byte
    order, as the structure holds them. *)
Record sockaddr_in : Type := mk_sockaddr_in {
  sin_family : Z;
  sin_port : Z;
  sin_addr : Z
}.

Definition sizeof_sockaddr_in : Z := 16.

Definition with_sin_addr (a : Z) (sa : sockaddr_in) : sockaddr_in :=
  {| sin_family := sin_family sa; sin_port := sin_port sa; sin_addr := a |}.

(** [htons] and [ntohs] on a little-endian host: the two bytes of a 16-bit
    value are swapped.  [htonl] is only ever applied to [INADDR_ANY]. *)
Definition htons (x : Z) : Z :=
  Z.lor (Z.shiftl (Z.land x 255) 8) (Z.land (Z.shiftr x 8) 255).
Definition ntohs (x : Z) : Z := htons x.
Definition htonl (x : Z) : Z :=
  Z.lor (Z.lor (Z.shiftl (Z.land x 255) 24)
               (Z.shiftl (Z.land (Z.shiftr x 8) 255) 16))
        (Z.lor (Z.shiftl (Z.land (Z.shiftr x 16) 255) 8)
               (Z.land (Z.shiftr x 24) 255)).

(** [char MAGIC_WORD[] = "Wazaaaaaaaaaaahhhh !"]: the characters and the
    terminating NUL; [sizeof(MAGIC_WORD)] counts the NUL. *)
Definition MAGIC_WORD : list byte :=
  list_byte_of_string "Wazaaaaaaaaaaahhhh !" ++ [x00].
Definition sizeof_MAGIC_WORD : Z := Z.of_nat (List.length MAGIC_WORD).

(* ================================================================= *)
(** ** C operators and library functions used by the programs *)

(** A C condition holds when the value is not zero. *)
Definition c_true (z : Z) : bool := negb (z =? 0).

(** The value of the C expression [a != b]. *)
Definition c_ne (a b : Z) : Z := if a =? b then 0 else 1.

Definition byte_val (b : byte) : Z := Z.of_N (Byte.to_N b).

(** [strncmp(s1, s2, n)]: compares at most [n] characters as unsigned
    chars, stops after a NUL, and returns the difference of the first two
    characters that differ.  The lists are the memory starting at the two
    pointers; a read past the end of a list yields NUL (the programs never
    read that far: [MAGIC_WORD] ends in NUL and the buffer is longer). *)
Fixpoint strncmp (s1 s2 : list byte) (n : nat) : Z :=
  match n with
  | O => 0
  | S n' =>
      let c1 := hd x00 s1 in
      let c2 := hd x00 s2 in
      if negb (byte_val c1 =? byte_val c2) then byte_val c1 - byte_val c2
      else if byte_val c1 =? 0 then 0
      else strncmp (tl s1) (tl s2) n'
  end.

(** [strncpy(dst, src, n)] into a zero-filled array at least [n+1] long:
    the string left in [dst] is the first [n] characters of [src]. *)
Definition strncpy (src : string) (n : Z) : string :=
  substring 0 (Z.to_nat n) src.

(** [*s == '\0'] for a C string. *)
Definition is_empty (s : string) : bool :=
  match s with EmptyString => true | String _ _ => false end.

(** What a call that fills [dst] with at most [cap] bytes of [data] leaves
    in [dst]: the bytes received, then the old contents. *)
Definition fill (cap : Z) (data dst : list byte) : list byte :=
  let got := firstn (Z.to_nat cap) data in
  got ++ skipn (List.length got) dst.

(** [int] arithmetic of the two packet counters of v2. *)
Definition int_wrap (z : Z) : Z := (z + 2^31) mod 2^32 - 2^31.

(* ================================================================= *)
(** ** Calls and their results *)

(** An argument of a [printf]-like call. *)
Inductive parg : Type :=
| PInt (z : Z)
| PStr (s : string)
| PChar (c : ascii)
| PIp (a : Z).          (* inet_ntoa(a) *)

(** The calls the programs make.  Descriptors are left out: [EvRead] and
    [EvWrite] are always on the tun/tap descriptor, [EvBind], [EvSendto],
    [EvRecvfrom] and [EvSetsockopt] on the UDP socket, [EvSelect] on both.
    Messages and format strings are kept as the source writes them, the
    escape [\n] included. *)
Inductive event : Type :=
| EvPerror (msg : string)
| EvStderr (fmt : string) (args : list parg)
| EvPrintf (fmt : string) (args : list parg)
| EvOpen
| EvIoctl (name : string) (flags : Z)
| EvClose
| EvSocket
| EvSetsockopt
| EvBind (a : sockaddr_in)
| EvSendto (data : list byte) (dst : sockaddr_in) (dstlen : Z)
| EvRecvfrom (cap : Z)
| EvSelect
| EvRead (cap : Z)
| EvWrite (data : list byte).

(** Result of [recvfrom]: an error, or a datagram with its source address
    and the address length the kernel reports. *)
Inductive recv_result : Type :=
| RecvErr
| RecvOk (payload : list byte) (src : sockaddr_in) (srclen : Z).

(** Result of [read] on the tun/tap descriptor. *)
Inductive read_result : Type :=
| ReadErr
| ReadOk (frame : list byte).

(** Results of the calls of one pass through the relay loop: [select] (its
    return value, [errno], and the two descriptors left in [rd_set]), then
    the calls of the tap branch and of the socket branch. *)
Record iteration : Type := mk_iteration {
  sel_ret : Z;
  sel_errno : Z;
  sel_tap : bool;
  sel_sock : bool;
  tap_read : read_result;
  tap_sendto : Z;
  sock_recvfrom : recv_result;
  sock_write : Z
}.

(** One result of [getopt]: the option character and [optarg]. *)
Record getopt_result : Type := mk_getopt {
  opt : ascii;
  optarg : string
}.

(** The environment of one run of [main]. *)
Record world : Type := mk_world {
  w_progname : string;
  w_getopt : list getopt_result;  (* results of getopt until it returns -1 *)
  w_extra : Z;                    (* argc - optind after the option loop *)
  w_atoi : string -> Z;
  w_inet_aton : string -> option Z;
  w_open : Z;
  w_ioctl : Z;
  w_ifr_name : string;
  w_socket : Z;
  w_setsockopt : Z;
  w_bind : Z;
  w_hs_sendto : Z;
  w_hs_recvfrom : list recv_result; (* datagrams of the handshake *)
  w_relay : list iteration          (* passes of the relay loop *)
}.

(* ================================================================= *)
(** ** The monad: state, call log, exit *)

(** Where a run is when the script of results runs out. *)
Inductive wait_point : Type :=
| InHandshake     (* blocked in the handshake's recvfrom *)
| InSelect.       (* blocked in the relay loop's select *)

Inductive result (S A : Type) : Type :=
| Ok (a : A) (s : S)
| Exited (status : Z) (s : S)
| Blocked (w : wait_point) (s : S).

Arguments Ok {S A} a s.
Arguments Exited {S A} status s.
Arguments Blocked {S A} w s.

(** An action maps the variables to the log of the calls made, each with
    the variables at the time of the call, and a result. *)
Definition M (S A : Type) : Type := S -> list (event * S) * result S A.

Definition run {S A} (m : M S A) (s : S) : list (event * S) * result S A := m s.

Definition ret {S A} (a : A) : M S A := fun s => ([], Ok a s).

Definition bind {S A B} (m : M S A) (f : A -> M S B) : M S B :=
  fun s =>
    match m s with
    | (t, Ok a s') => let (t', r) := f a s' in (t ++ t', r)
    | (t, Exited st s') => (t, Exited st s')
    | (t, Blocked w s') => (t, Blocked w s')
    end.

Definition emit {S} (e : event) : M S unit := fun s => ([(e, s)], Ok tt s).
Definition exit {S A} (status : Z) : M S A := fun s => ([], Exited status s).
Definition blocked {S A} (w : wait_point) : M S A := fun s => ([], Blocked w s).
Definition gets {S T} (f : S -> T) : M S T := fun s => ([], Ok (f s) s).
Definition modify {S} (f : S -> S) : M S unit := fun s => ([], Ok tt (f s)).

Declare Scope monad_scope.
Delimit Scope monad_scope with monad.
Notation "x <- m ;; k" := (bind m (fun x => k))
  (at level 61, m at next level, right associativity) : monad_scope.
Notation "m ;; k" := (bind m (fun _ => k))
  (at level 61, right associativity) : monad_scope.
Local Open Scope monad_scope.

Definition when {S} (c : bool) (m : M S unit) : M S unit :=
  if c then m else ret tt.

(** A C variable of [main]: how to read it and how to assign it. *)
Record var (S T : Type) : Type := mk_var {
  rd : S -> T;
  wr : T -> S -> S
}.

Definition assign {S T} (x : var S T) (v : T) : M S unit := modify (wr x v).
Notation "x ::= v" := (assign x v) (at level 60, no associativity) : monad_scope.

Definition perror {S} (msg : string) : M S unit := emit (EvPerror msg).
Definition printf {S} (fmt : string) (args : list parg) : M S unit :=
  emit (EvPrintf fmt args).
Definition fprintf_stderr {S} (fmt : string) (args : list parg) : M S unit :=
  emit (EvStderr fmt args).

(** [sendto(sock_fd, buf, len, 0, &dst, dstlen)]: the datagram is the first
    [len] bytes at [buf]; [r] is what the call returns. *)
Definition sendto {S} (buf : list byte) (len : Z) (dst : sockaddr_in)
    (dstlen : Z) (r : Z) : M S Z :=
  emit (EvSendto (firstn (Z.to_nat len) buf) dst dstlen) ;; ret r.

(** [recvfrom(sock_fd, buf, cap, 0, &addr, &addrlen)]: on success the
    payload, cut at [cap], overwrites the start of [buf], [addr] and
    [addrlen] receive the source address and its length, and the call
    returns the number of bytes stored; on error nothing is written and the
    call returns -1.  The address buffer is taken to be long enough: the
    programs pass [sizeof(struct sockaddr_in)] or the length an earlier
    [recvfrom] stored. *)
Definition recvfrom {S} (buf : var S (list byte)) (cap : Z)
    (addr : var S sockaddr_in) (addrlen : var S Z) (r : recv_result) : M S Z :=
  emit (EvRecvfrom cap) ;;
  match r with
  | RecvErr => ret (-1)
  | RecvOk payload src srclen =>
      old <- gets (rd buf) ;;
      buf ::= fill cap payload old ;;
      addr ::= src ;;
      addrlen ::= srclen ;;
      ret (Z.of_nat (List.length (firstn (Z.to_nat cap) payload)))
  end.

(** [read(tap_fd, buf, cap)]. *)
Definition read {S} (buf : var S (list byte)) (cap : Z) (r : read_result) : M S Z :=
  emit (EvRead cap) ;;
  match r with
  | ReadErr => ret (-1)
  | ReadOk frame =>
      old <- gets (rd buf) ;;
      buf ::= fill cap frame old ;;
      ret (Z.of_nat (List.length (firstn (Z.to_nat cap) frame)))
  end.

(** [write(tap_fd, buf, len)]. *)
Definition write {S} (buf : list byte) (len : Z) (r : Z) : M S Z :=
  emit (EvWrite (firstn (Z.to_nat len) buf)) ;; ret r.

(** [tun_alloc(dev, flags)] of both sources: returns the descriptor or the
    error, and the name left in [dev]. *)
Definition tun_alloc {S} (w : world) (dev : string) (flags : Z) : M S (Z * string) :=
  emit EvOpen ;;
  let fd := w_open w in
  if fd <? 0 then
    perror "Opening /dev/net/tun" ;; ret (fd, dev)
  else
    let ifr_name := if is_empty dev then "" else strncpy dev IFNAMSIZ in
    emit (EvIoctl ifr_name flags) ;;
    let err := w_ioctl w in
    if err <? 0 then
      perror "ioctl(TUNSETIFF)" ;; emit EvClose ;; ret (err, dev)
    else
      ret (fd, w_ifr_name w).

(** Field assignments of a [struct sockaddr_in] variable, and [memset] to 0. *)
Definition set_sin_family (v : Z) (sa : sockaddr_in) : sockaddr_in :=
  {| sin_family := v; sin_port := sin_port sa; sin_addr := sin_addr sa |}.
Definition set_sin_port (v : Z) (sa : sockaddr_in) : sockaddr_in :=
  {| sin_family := sin_family sa; sin_port := v; sin_addr := sin_addr sa |}.
Definition zero_sockaddr : sockaddr_in :=
  {| sin_family := 0; sin_port := 0; sin_addr := 0 |}.

Definition update {S T} (x : var S T) (f : T -> T) : M S unit :=
  modify (fun s => wr x (f (rd x s)) s).

(** [inet_aton(cp, &x.sin_addr)]: the address is stored when [cp] parses and
    left as it was otherwise; both programs drop the return value. *)
Definition inet_aton {S} (w : world) (cp : string) (x : var S sockaddr_in) : M S unit :=
  match w_inet_aton w cp with
  | Some a => update x (with_sin_addr a)
  | None => ret tt
  end.

(** The handshake's blocking [recvfrom]: the next datagram of the script,
    or blocked for ever when there is none. *)
Definition recvfrom_blocking {S} (buf : var S (list byte)) (cap : Z)
    (addr : var S sockaddr_in) (addrlen : var S Z) (rs : list recv_result) : M S Z :=
  match rs with
  | [] => emit (EvRecvfrom cap) ;; blocked InHandshake
  | r :: _ => recvfrom buf cap addr addrlen r
  end.

(* ================================================================= *)
(** ** tunneludp_v1.c *)

(** [cread], [cwrite] and [read_n] of the source are never called by
    [main] (their calls are commented out); they follow the module. *)

Module V1.

Definition PORT : Z := 55566.

(** The global [debug] and the local variables of [main] that the program
    reads after it has set them. *)
Record machine : Type := mk_machine {
  debug : Z;
  flags : Z;
  if_name : string;
  header_len : Z;
  buffer : list byte;
  server_addr : sockaddr_in;
  client_addr : sockaddr_in;
  server_ip : string;
  clientlen : Z;
  serverlen : Z;
  cliserv : Z
}.

Definition debug_ : var machine Z :=
  mk_var debug (fun v s =>
    mk_machine v (flags s) (if_name s) (header_len s) (buffer s) (server_addr s)
      (client_addr s) (server_ip s) (clientlen s) (serverlen s) (cliserv s)).
Definition flags_ : var machine Z :=
  mk_var flags (fun v s =>
    mk_machine (debug s) v (if_name s) (header_len s) (buffer s) (server_addr s)
      (client_addr s) (server_ip s) (clientlen s) (serverlen s) (cliserv s)).
Definition if_name_ : var machine string :=
  mk_var if_name (fun v s =>
    mk_machine (debug s) (flags s) v (header_len s) (buffer s) (server_addr s)
      (client_addr s) (server_ip s) (clientlen s) (serverlen s) (cliserv s)).
Definition header_len_ : var machine Z :=
  mk_var header_len (fun v s =>
    mk_machine (debug s) (flags s) (if_name s) v (buffer s) (server_addr s)
      (client_addr s) (server_ip s) (clientlen s) (serverlen s) (cliserv s)).
Definition buffer_ : var machine (list byte) :=
  mk_var buffer (fun v s =>
    mk_machine (debug s) (flags s) (if_name s) (header_len s) v (server_addr s)
      (client_addr s) (server_ip s) (clientlen s) (serverlen s) (cliserv s)).
Definition server_addr_ : var machine sockaddr_in :=
  mk_var server_addr (fun v s =>
    mk_machine (debug s) (flags s) (if_name s) (header_len s) (buffer s) v
      (client_addr s) (server_ip s) (clientlen s) (serverlen s) (cliserv s)).
Definition client_addr_ : var machine sockaddr_in :=
  mk_var client_addr (fun v s =>
    mk_machine (debug s) (flags s) (if_name s) (header_len s) (buffer s) (server_addr s)
      v (server_ip s) (clientlen s) (serverlen s) (cliserv s)).
Definition server_ip_ : var machine string :=
  mk_var server_ip (fun v s =>
    mk_machine (debug s) (flags s) (if_name s) (header_len s) (buffer s) (server_addr s)
      (client_addr s) v (clientlen s) (serverlen s) (cliserv s)).
Definition clientlen_ : var machine Z :=
  mk_var clientlen (fun v s =>
    mk_machine (debug s) (flags s) (if_name s) (header_len s) (buffer s) (server_addr s)
      (client_addr s) (server_ip s) v (serverlen s) (cliserv s)).
Definition serverlen_ : var machine Z :=
  mk_var serverlen (fun v s =>
    mk_machine (debug s) (flags s) (if_name s) (header_len s) (buffer s) (server_addr s)
      (client_addr s) (server_ip s) (clientlen s) v (cliserv s)).
Definition cliserv_ : var machine Z :=
  mk_var cliserv (fun v s =>
    mk_machine (debug s) (flags s) (if_name s) (header_len s) (buffer s) (server_addr s)
      (client_addr s) (server_ip s) (clientlen s) (serverlen s) v).

(** [do_debug]: prints on stderr when [debug] is set. *)
Definition do_debug (msg : string) (args : list parg) : M machine unit :=
  d <- gets debug ;;
  when (c_true d) (fprintf_stderr msg args).

(** [my_err]: prints on stderr. *)
Definition my_err (msg : string) (args : list parg) : M machine unit :=
  fprintf_stderr msg args.

(** [usage]: prints the help text and exits with status 1. *)
Definition usage (w : world) : M machine unit :=
  let p := [PStr (w_progname w)] in
  fprintf_stderr "Usage:\n" [] ;;
  fprintf_stderr "%s -i <ifacename> [-s|-c <serverIP>] [-p <port>] [-u|-a] [-d]\n" p ;;
  fprintf_stderr "%s -h\n" p ;;
  fprintf_stderr "\n" [] ;;
  fprintf_stderr "-i <ifacename>: Name of interface to use (mandatory)\n" [] ;;
  fprintf_stderr "-s|-c <serverIP>: run in server mode (-s), or specify server address (-c <serverIP>) (mandatory)\n" [] ;;
  fprintf_stderr "-p <port>: port to listen on (if run in server mode) or to connect to (in client mode), default 55555\n" [] ;;
  fprintf_stderr "-u|-a: use TUN (-u, default) or TAP (-a)\n" [] ;;
  fprintf_stderr "-d: outputs debug information while running\n" [] ;;
  fprintf_stderr "-h: prints this help text\n" [] ;;
  exit 1.

(** The body of the [switch] on one option.  The case ['p'] is empty: its
    assignment to [port] is commented out in the source. *)
Definition handle_option (w : world) (g : getopt_result) : M machine unit :=
  let c := opt g in
  if Ascii.eqb c "d" then debug_ ::= 1
  else if Ascii.eqb c "h" then usage w
  else if Ascii.eqb c "i" then if_name_ ::= strncpy (optarg g) (IFNAMSIZ - 1)
  else if Ascii.eqb c "s" then cliserv_ ::= SERVER
  else if Ascii.eqb c "c" then
    cliserv_ ::= CLIENT ;; server_ip_ ::= strncpy (optarg g) 15
  else if Ascii.eqb c "p" then ret tt
  else if Ascii.eqb c "u" then flags_ ::= IFF_TUN
  else if Ascii.eqb c "a" then
    flags_ ::= IFF_TAP ;; header_len_ ::= ETH_HDR_LEN
  else my_err "Unknown option %c\n" [PChar c] ;; usage w.

(** [while((option = getopt(...)) > 0) switch(option) ...]. *)
Fixpoint parse_options (w : world) (gs : list getopt_result) : M machine unit :=
  match gs with
  | [] => ret tt
  | g :: gs' => handle_option w g ;; parse_options w gs'
  end.

(** The checks after the option loop. *)
Definition check_options (w : world) : M machine unit :=
  when (0 <? w_extra w) (my_err "Too many options!\n" [] ;; usage w) ;;
  name <- gets if_name ;;
  mode <- gets cliserv ;;
  ip <- gets server_ip ;;
  if is_empty name then
    my_err "Must specify interface name!\n" [] ;; usage w
  else if mode <? 0 then
    my_err "Must specify client or server mode!\n" [] ;; usage w
  else if (mode =? CLIENT) && is_empty ip then
    my_err "Must specify server address!\n" [] ;; usage w
  else ret tt.

(** Opening the tun/tap interface and the UDP socket. *)
Definition open_devices (w : world) : M machine unit :=
  name <- gets if_name ;;
  fl <- gets flags ;;
  r <- tun_alloc w name (Z.lor fl IFF_NO_PI) ;;
  if_name_ ::= snd r ;;
  (if fst r <? 0 then
     name' <- gets if_name ;;
     my_err "Error connecting to tun/tap interface %s!\n" [PStr name'] ;; exit 1
   else ret tt) ;;
  name' <- gets if_name ;;
  do_debug "Successfully connected to interface %s\n" [PStr name'] ;;
  emit EvSocket ;;
  if w_socket w <? 0 then perror "socket()" ;; exit 1 else ret tt.

(** The branch [if(cliserv==CLIENT)]: bind, send the magic word, wait for
    one datagram and compare it.  The third argument of [strncmp] is the
    value of [sizeof(MAGIC_WORD) != 0], as the source writes it. *)
Definition client_handshake (w : world) : M machine unit :=
  update client_addr_ (set_sin_family AF_INET) ;;
  update client_addr_ (with_sin_addr (htonl INADDR_ANY)) ;;
  update client_addr_ (set_sin_port (htons PORT)) ;;
  ca <- gets client_addr ;;
  emit (EvBind ca) ;;
  when (w_bind w <? 0) (perror "bind") ;;
  update server_addr_ (set_sin_family AF_INET) ;;
  update server_addr_ (set_sin_port (htons PORT)) ;;
  ip <- gets server_ip ;;
  inet_aton w ip server_addr_ ;;
  serverlen_ ::= sizeof_sockaddr_in ;;
  sa <- gets server_addr ;;
  r <- sendto MAGIC_WORD sizeof_MAGIC_WORD sa sizeof_sockaddr_in (w_hs_sendto w) ;;
  when (r <? 0) (perror "sendto") ;;
  n <- recvfrom_blocking buffer_ BUFSIZE server_addr_ serverlen_ (w_hs_recvfrom w) ;;
  when (n <? 0) (perror "recvfrom") ;;
  buf <- gets buffer ;;
  when (c_true (strncmp MAGIC_WORD buf (Z.to_nat (c_ne sizeof_MAGIC_WORD 0))))
       (perror "Bad magic word for peer\n") ;;
  sa' <- gets server_addr ;;
  printf "Connection with %s:%i established\n"
         [PIp (sin_addr sa'); PInt (ntohs (sin_port sa'))] ;;
  do_debug "CLIENT: Connected to server %s\n" [PIp (sin_addr sa')].

(** The server's [while(1)] around [recvfrom]: leaves the loop on the first
    datagram after which the buffer compares equal to the magic word. *)
Fixpoint wait_for_magic (rs : list recv_result) : M machine unit :=
  match rs with
  | [] => emit (EvRecvfrom BUFSIZE) ;; blocked InHandshake
  | r :: rs' =>
      n <- recvfrom buffer_ BUFSIZE client_addr_ clientlen_ r ;;
      when (n <? 0) (perror "recvfrom") ;;
      buf <- gets buffer ;;
      if strncmp MAGIC_WORD buf (Z.to_nat sizeof_MAGIC_WORD) =? 0 then ret tt
      else
        ca <- gets client_addr ;;
        printf "Bad magic word from %s:%i\n"
               [PIp (sin_addr ca); PInt (ntohs (sin_port ca))] ;;
        wait_for_magic rs'
  end.

(** The [else] branch: the server. *)
Definition server_handshake (w : world) : M machine unit :=
  emit EvSetsockopt ;;
  (if w_setsockopt w <? 0 then perror "setsockopt()" ;; exit 1 else ret tt) ;;
  server_addr_ ::= zero_sockaddr ;;
  update server_addr_ (set_sin_family AF_INET) ;;
  update server_addr_ (with_sin_addr (htonl INADDR_ANY)) ;;
  update server_addr_ (set_sin_port (htons PORT)) ;;
  sa <- gets server_addr ;;
  emit (EvBind sa) ;;
  (if w_bind w <? 0 then perror "bind()" ;; exit 1 else ret tt) ;;
  clientlen_ ::= sizeof_sockaddr_in ;;
  client_addr_ ::= zero_sockaddr ;;
  wait_for_magic (w_hs_recvfrom w) ;;
  ca <- gets client_addr ;;
  cl <- gets clientlen ;;
  r <- sendto MAGIC_WORD sizeof_MAGIC_WORD ca cl (w_hs_sendto w) ;;
  when (r <? 0) (perror "sendto") ;;
  do_debug "SERVER: Client connected from %s\n" [PIp (sin_addr ca)].

(** [if(FD_ISSET(tap_fd, &rd_set))]: tap to network. *)
Definition tap_branch (it : iteration) : M machine unit :=
  n <- read buffer_ BUFSIZE (tap_read it) ;;
  when (c_true n) (perror "read") ;;
  mode <- gets cliserv ;;
  buf <- gets buffer ;;
  if mode =? CLIENT then
    sa <- gets server_addr ;;
    sl <- gets serverlen ;;
    r <- sendto buf BUFSIZE sa sl (tap_sendto it) ;;
    when (r <? 0) (perror "sendto")
  else
    ca <- gets client_addr ;;
    cl <- gets clientlen ;;
    r <- sendto buf BUFSIZE ca cl (tap_sendto it) ;;
    when (r <? 0) (perror "sendto").

(** [if(FD_ISSET(sock_fd, &rd_set))]: network to tap. *)
Definition sock_branch (it : iteration) : M machine unit :=
  mode <- gets cliserv ;;
  (if mode =? CLIENT then
     n <- recvfrom buffer_ BUFSIZE server_addr_ serverlen_ (sock_recvfrom it) ;;
     when (c_true n) (perror "read")
   else
     n <- recvfrom buffer_ BUFSIZE client_addr_ clientlen_ (sock_recvfrom it) ;;
     when (c_true n) (perror "read")) ;;
  printf "Get packet in UDP tunnel\n" [] ;;
  buf <- gets buffer ;;
  r <- write buf BUFSIZE (sock_write it) ;;
  when (r <? 0) (perror "write").

(** One pass through the body of the final [while(1)]. *)
Definition relay_iteration (it : iteration) : M machine unit :=
  emit EvSelect ;;
  if (sel_ret it <? 0) && (sel_errno it =? EINTR) then ret tt
  else if sel_ret it <? 0 then perror "select()" ;; exit 1
  else
    when (sel_tap it) (tap_branch it) ;;
    when (sel_sock it) (sock_branch it).

(** The passes of a script, one after the other. *)
Fixpoint relay_iterations (its : list iteration) : M machine unit :=
  match its with
  | [] => ret tt
  | it :: its' => relay_iteration it ;; relay_iterations its'
  end.

(** The final [while(1)]: after the scripted passes the process is blocked
    in [select]. *)
Definition relay_loop (its : list iteration) : M machine unit :=
  relay_iterations its ;; emit EvSelect ;; blocked InSelect.

(** [main].  The run starts from any contents of the uninitialised
    variables; the initialisers of the declarations come first. *)
Definition main (w : world) : M machine unit :=
  debug_ ::= 0 ;;
  flags_ ::= IFF_TUN ;;
  if_name_ ::= "" ;;
  header_len_ ::= IP_HDR_LEN ;;
  server_ip_ ::= "" ;;
  cliserv_ ::= -1 ;;
  parse_options w (w_getopt w) ;;
  check_options w ;;
  open_devices w ;;
  mode <- gets cliserv ;;
  (if mode =? CLIENT then client_handshake w else server_handshake w) ;;
  relay_loop (w_relay w).

End V1.

(* ================================================================= *)
(** ** tunneludp_v1.c: the input and output helpers

    [cread], [cwrite] and [read_n] are defined in [tunneludp_v1.c] and not
    called by its [main], where their calls are commented out.  They take
    the buffer as a pointer, here a variable and an offset into it, and
    the descriptor as a parameter, which the logged calls leave out. *)

(** [read(fd, buf + off, cap)]: the bytes read overwrite the buffer from
    position [off] on. *)
Definition read_at {S} (buf : var S (list byte)) (off : nat) (cap : Z)
    (r : read_result) : M S Z :=
  emit (EvRead cap) ;;
  match r with
  | ReadErr => ret (-1)
  | ReadOk frame =>
      old <- gets (rd buf) ;;
      buf ::= (firstn off old ++ fill cap frame (skipn off old)) ;;
      ret (Z.of_nat (List.length (firstn (Z.to_nat cap) frame)))
  end.

(** [cread]: [read], and [exit(1)] after a message when it fails. *)
Definition cread {S} (buf : var S (list byte)) (off : nat) (n : Z)
    (r : read_result) : M S Z :=
  nread <- read_at buf off n r ;;
  if nread <? 0 then perror "Reading data" ;; exit 1 else ret nread.

(** [cwrite]: [write], and [exit(1)] after a message when it fails. *)
Definition cwrite {S} (buf : list byte) (n : Z) (r : Z) : M S Z :=
  nwrite <- write buf n r ;;
  if nwrite <? 0 then perror "Writing data" ;; exit 1 else ret nwrite.

(** [read_n]: the loop [while(left > 0)] around [cread].  [rs k] is the
    result of the [k]-th [read] on the descriptor.  Every pass that goes on
    has stored at least one byte, so [n] passes are enough; the loop is
    written with that many passes and gives [None] if it would need more,
    which the theorem on [read_n] shows it never does. *)
Fixpoint read_n_loop {St : Type} (passes : nat) (buf : var St (list byte))
    (rs : nat -> read_result) (k off : nat) (left n : Z) : M St (option Z) :=
  if 0 <? left then
    match passes with
    | O => ret None
    | S passes' =>
        nread <- cread buf off left (rs k) ;;
        if nread =? 0 then ret (Some 0)
        else read_n_loop passes' buf rs (S k) (off + Z.to_nat nread)%nat
                         (left - nread) n
    end
  else ret (Some n).

Definition read_n {S} (buf : var S (list byte)) (n : Z)
    (rs : nat -> read_result) : M S (option Z) :=
  read_n_loop (Z.to_nat n) buf rs 0 0 n n.

(* ================================================================= *)
(** ** tunneludp_v2.c *)

Module V2.

Definition PORT : Z := 5588.

(** The local variables of [main] that the program reads after it has set
    them.  [flags] never changes from [IFF_TUN] in this variant. *)
Record machine : Type := mk_machine {
  if_name : string;
  buffer : list byte;
  server_addr : sockaddr_in;
  client_addr : sockaddr_in;
  remote_addr : sockaddr_in;
  read_addr : sockaddr_in;
  server_ip : string;
  port : Z;
  clientlen : Z;
  serverlen : Z;
  readlen : Z;
  cliserv : Z;
  tap_count : Z;
  sock_count : Z
}.

Definition if_name_ : var machine string :=
  mk_var if_name (fun v s =>
    mk_machine v (buffer s) (server_addr s) (client_addr s) (remote_addr s)
      (read_addr s) (server_ip s) (port s) (clientlen s) (serverlen s)
      (readlen s) (cliserv s) (tap_count s) (sock_count s)).
Definition buffer_ : var machine (list byte) :=
  mk_var buffer (fun v s =>
    mk_machine (if_name s) v (server_addr s) (client_addr s) (remote_addr s)
      (read_addr s) (server_ip s) (port s) (clientlen s) (serverlen s)
      (readlen s) (cliserv s) (tap_count s) (sock_count s)).
Definition server_addr_ : var machine sockaddr_in :=
  mk_var server_addr (fun v s =>
    mk_machine (if_name s) (buffer s) v (client_addr s) (remote_addr s)
      (read_addr s) (server_ip s) (port s) (clientlen s) (serverlen s)
      (readlen s) (cliserv s) (tap_count s) (sock_count s)).
Definition client_addr_ : var machine sockaddr_in :=
  mk_var client_addr (fun v s =>
    mk_machine (if_name s) (buffer s) (server_addr s) v (remote_addr s)
      (read_addr s) (server_ip s) (port s) (clientlen s) (serverlen s)
      (readlen s) (cliserv s) (tap_count s) (sock_count s)).
Definition remote_addr_ : var machine sockaddr_in :=
  mk_var remote_addr (fun v s =>
    mk_machine (if_name s) (buffer s) (server_addr s) (client_addr s) v
      (read_addr s) (server_ip s) (port s) (clientlen s) (serverlen s)
      (readlen s) (cliserv s) (tap_count s) (sock_count s)).
Definition read_addr_ : var machine sockaddr_in :=
  mk_var read_addr (fun v s =>
    mk_machine (if_name s) (buffer s) (server_addr s) (client_addr s) (remote_addr s)
      v (server_ip s) (port s) (clientlen s) (serverlen s)
      (readlen s) (cliserv s) (tap_count s) (sock_count s)).
Definition server_ip_ : var machine string :=
  mk_var server_ip (fun v s =>
    mk_machine (if_name s) (buffer s) (server_addr s) (client_addr s) (remote_addr s)
      (read_addr s) v (port s) (clientlen s) (serverlen s)
      (readlen s) (cliserv s) (tap_count s) (sock_count s)).
Definition port_ : var machine Z :=
  mk_var port (fun v s =>
    mk_machine (if_name s) (buffer s) (server_addr s) (client_addr s) (remote_addr s)
      (read_addr s) (server_ip s) v (clientlen s) (serverlen s)
      (readlen s) (cliserv s) (tap_count s) (sock_count s)).
Definition clientlen_ : var machine Z :=
  mk_var clientlen (fun v s =>
    mk_machine (if_name s) (buffer s) (server_addr s) (client_addr s) (remote_addr s)
      (read_addr s) (server_ip s) (port s) v (serverlen s)
      (readlen s) (cliserv s) (tap_count s) (sock_count s)).
Definition serverlen_ : var machine Z :=
  mk_var serverlen (fun v s =>
    mk_machine (if_name s) (buffer s) (server_addr s) (client_addr s) (remote_addr s)
      (read_addr s) (server_ip s) (port s) (clientlen s) v
      (readlen s) (cliserv s) (tap_count s) (sock_count s)).
Definition readlen_ : var machine Z :=
  mk_var readlen (fun v s =>
    mk_machine (if_name s) (buffer s) (server_addr s) (client_addr s) (remote_addr s)
      (read_addr s) (server_ip s) (port s) (clientlen s) (serverlen s)
      v (cliserv s) (tap_count s) (sock_count s)).
Definition cliserv_ : var machine Z :=
  mk_var cliserv (fun v s =>
    mk_machine (if_name s) (buffer s) (server_addr s) (client_addr s) (remote_addr s)
      (read_addr s) (server_ip s) (port s) (clientlen s) (serverlen s)
      (readlen s) v (tap_count s) (sock_count s)).
Definition tap_count_ : var machine Z :=
  mk_var tap_count (fun v s =>
    mk_machine (if_name s) (buffer s) (server_addr s) (client_addr s) (remote_addr s)
      (read_addr s) (server_ip s) (port s) (clientlen s) (serverlen s)
      (readlen s) (cliserv s) v (sock_count s)).
Definition sock_count_ : var machine Z :=
  mk_var sock_count (fun v s =>
    mk_machine (if_name s) (buffer s) (server_addr s) (client_addr s) (remote_addr s)
      (read_addr s) (server_ip s) (port s) (clientlen s) (serverlen s)
      (readlen s) (cliserv s) (tap_count s) v).

(** [usage]: prints the help text and exits with status 1. *)
Definition usage (w : world) : M machine unit :=
  let p := [PStr (w_progname w)] in
  fprintf_stderr "Usage:\n" [] ;;
  fprintf_stderr "%s -i <ifacename> [-s|-c <serverIP>] [-p <port>]\n" p ;;
  fprintf_stderr "%s -h\n" p ;;
  fprintf_stderr "\n" [] ;;
  fprintf_stderr "-i <ifacename>: Name of interface to use (mandatory)\n" [] ;;
  fprintf_stderr "-s|-c <serverIP>: run in server mode (-s), or specify server address (-c <serverIP>) (mandatory)\n" [] ;;
  fprintf_stderr "-p <port>: port to listen on (if run in server mode) or to connect to (in client mode), default 55566\n" [] ;;
  exit 1.

(** The body of the [switch] on one option; [port] is an
    [unsigned short]. *)
Definition handle_option (w : world) (g : getopt_result) : M machine unit :=
  let c := opt g in
  if Ascii.eqb c "h" then usage w
  else if Ascii.eqb c "i" then if_name_ ::= strncpy (optarg g) (IFNAMSIZ - 1)
  else if Ascii.eqb c "s" then cliserv_ ::= SERVER
  else if Ascii.eqb c "c" then
    cliserv_ ::= CLIENT ;; server_ip_ ::= strncpy (optarg g) 15
  else if Ascii.eqb c "p" then port_ ::= (w_atoi w (optarg g)) mod 65536
  else printf "Unknown option %c\n" [PChar c] ;; usage w.

Fixpoint parse_options (w : world) (gs : list getopt_result) : M machine unit :=
  match gs with
  | [] => ret tt
  | g :: gs' => handle_option w g ;; parse_options w gs'
  end.

(** The checks after the option loop. *)
Definition check_options (w : world) : M machine unit :=
  when (0 <? w_extra w) (perror "Too many options!\n" ;; usage w) ;;
  name <- gets if_name ;;
  mode <- gets cliserv ;;
  ip <- gets server_ip ;;
  if is_empty name then
    perror "Must specify interface name!\n" ;; usage w
  else if mode <? 0 then
    perror "Must specify client or server mode!\n" ;; usage w
  else if (mode =? CLIENT) && is_empty ip then
    perror "Must specify server address!\n" ;; usage w
  else ret tt.

(** Opening the tun/tap interface and the UDP socket. *)
Definition open_devices (w : world) : M machine unit :=
  name <- gets if_name ;;
  r <- tun_alloc w name (Z.lor IFF_TUN IFF_NO_PI) ;;
  if_name_ ::= snd r ;;
  (if fst r <? 0 then
     name' <- gets if_name ;;
     printf "Error connecting to tun/tap interface %s!\n" [PStr name'] ;; exit 1
   else ret tt) ;;
  name' <- gets if_name ;;
  printf "Successfully connected to interface %s\n" [PStr name'] ;;
  emit EvSocket ;;
  if w_socket w <? 0 then perror "socket()" ;; exit 1 else ret tt.

(** The branch [if(cliserv==CLIENT)].  The third argument of [strncmp] is
    the value of [sizeof(MAGIC_WORD) != 0], as the source writes it. *)
Definition client_handshake (w : world) : M machine unit :=
  p <- gets port ;;
  client_addr_ ::= zero_sockaddr ;;
  update client_addr_ (set_sin_family AF_INET) ;;
  update client_addr_ (with_sin_addr (htonl INADDR_ANY)) ;;
  update client_addr_ (set_sin_port (htons p)) ;;
  server_addr_ ::= zero_sockaddr ;;
  update server_addr_ (set_sin_family AF_INET) ;;
  update server_addr_ (set_sin_port (htons p)) ;;
  ip <- gets server_ip ;;
  inet_aton w ip server_addr_ ;;
  ca <- gets client_addr ;;
  emit (EvBind ca) ;;
  (if w_bind w <? 0 then perror "bind" ;; exit 1 else ret tt) ;;
  sa <- gets server_addr ;;
  r <- sendto MAGIC_WORD sizeof_MAGIC_WORD sa sizeof_sockaddr_in (w_hs_sendto w) ;;
  when (r <? 0) (perror "sendto magic word") ;;
  n <- recvfrom_blocking buffer_ BUFSIZE server_addr_ serverlen_ (w_hs_recvfrom w) ;;
  when (n <? 0) (perror "recvfrom") ;;
  buf <- gets buffer ;;
  (if c_true (strncmp MAGIC_WORD buf (Z.to_nat (c_ne sizeof_MAGIC_WORD 0))) then
     perror "Bad magic word for peer\n" ;; exit 1
   else ret tt) ;;
  sa' <- gets server_addr ;;
  printf "Connection with %s:%i established\n"
         [PIp (sin_addr sa'); PInt (ntohs (sin_port sa'))] ;;
  remote_addr_ ::= sa'.

(** The server's wait for the connection request: one [recvfrom], and
    [exit(1)] when the buffer does not compare equal to the magic word. *)
Definition wait_for_magic (rs : list recv_result) : M machine unit :=
  n <- recvfrom_blocking buffer_ BUFSIZE client_addr_ clientlen_ rs ;;
  when (n <? 0) (perror "recvfrom") ;;
  buf <- gets buffer ;;
  if c_true (c_ne (strncmp MAGIC_WORD buf (Z.to_nat sizeof_MAGIC_WORD)) 0) then
    perror "Bad magic word for peer\n" ;; exit 1
  else ret tt.

(** The [else] branch: the server. *)
Definition server_handshake (w : world) : M machine unit :=
  emit EvSetsockopt ;;
  (if w_setsockopt w <? 0 then perror "setsockopt" ;; exit 1 else ret tt) ;;
  p <- gets port ;;
  server_addr_ ::= zero_sockaddr ;;
  update server_addr_ (set_sin_family AF_INET) ;;
  update server_addr_ (with_sin_addr (htonl INADDR_ANY)) ;;
  update server_addr_ (set_sin_port (htons p)) ;;
  sa <- gets server_addr ;;
  emit (EvBind sa) ;;
  (if w_bind w <? 0 then perror "bind" ;; exit 1 else ret tt) ;;
  wait_for_magic (w_hs_recvfrom w) ;;
  ca <- gets client_addr ;;
  cl <- gets clientlen ;;
  r <- sendto MAGIC_WORD sizeof_MAGIC_WORD ca cl (w_hs_sendto w) ;;
  when (r <? 0) (perror "sendto") ;;
  printf "SERVER: Client connected from %s\n" [PIp (sin_addr ca)] ;;
  remote_addr_ ::= ca.

(** [if(FD_ISSET(tap_fd, &rd_set))]: tap to network. *)
Definition tap_branch (it : iteration) : M machine unit :=
  n <- read buffer_ BUFSIZE (tap_read it) ;;
  when (c_true n) (perror "read from virtual") ;;
  buf <- gets buffer ;;
  ra <- gets remote_addr ;;
  r <- sendto buf BUFSIZE ra sizeof_sockaddr_in (tap_sendto it) ;;
  when (r <? 0) (perror "sendto network") ;;
  c <- gets tap_count ;;
  tap_count_ ::= int_wrap (c + 1) ;;
  printf "Get packet from virtual -> real NIC %d\n" [PInt c].

(** [if(FD_ISSET(sock_fd, &rd_set))]: network to tap; [remote_addr] is
    assigned from [read_addr] whatever [recvfrom] returned. *)
Definition sock_branch (it : iteration) : M machine unit :=
  n <- recvfrom buffer_ BUFSIZE read_addr_ readlen_ (sock_recvfrom it) ;;
  when (c_true n) (perror "read from network") ;;
  ra <- gets read_addr ;;
  remote_addr_ ::= ra ;;
  buf <- gets buffer ;;
  r <- write buf BUFSIZE (sock_write it) ;;
  when (r <? 0) (perror "write to virtual") ;;
  c <- gets sock_count ;;
  sock_count_ ::= int_wrap (c + 1) ;;
  printf "Get packet from real -> virtual NIC %d\n" [PInt c].

(** One pass through the body of the final [while(1)]. *)
Definition relay_iteration (it : iteration) : M machine unit :=
  emit EvSelect ;;
  if (sel_ret it <? 0) && (sel_errno it =? EINTR) then ret tt
  else if sel_ret it <? 0 then perror "select()" ;; exit 1
  else
    when (sel_tap it) (tap_branch it) ;;
    when (sel_sock it) (sock_branch it).

Fixpoint relay_iterations (its : list iteration) : M machine unit :=
  match its with
  | [] => ret tt
  | it :: its' => relay_iteration it ;; relay_iterations its'
  end.

(** The final [while(1)]: after the scripted passes the process is blocked
    in [select]. *)
Definition relay_loop (its : list iteration) : M machine unit :=
  relay_iterations its ;; emit EvSelect ;; blocked InSelect.

(** [main].  The run starts from any contents of the uninitialised
    variables; the initialisers of the declarations come first. *)
Definition main (w : world) : M machine unit :=
  if_name_ ::= "" ;;
  server_ip_ ::= "" ;;
  port_ ::= PORT ;;
  clientlen_ ::= sizeof_sockaddr_in ;;
  serverlen_ ::= sizeof_sockaddr_in ;;
  readlen_ ::= sizeof_sockaddr_in ;;
  cliserv_ ::= -1 ;;
  tap_count_ ::= 0 ;;
  sock_count_ ::= 0 ;;
  parse_options w (w_getopt w) ;;
  check_options w ;;
  open_devices w ;;
  mode <- gets cliserv ;;
  (if mode =? CLIENT then client_handshake w else server_handshake w) ;;
  relay_loop (w_relay w).

End V2.

(* ================================================================= *)
(** ** Vocabulary of the statements *)

(** *** Reading a log and a result *)

(** The calls of a log, without the variables. *)
Definition calls {S} (t : list (event * S)) : list event := map fst t.

Definition is_read (e : event) : bool :=
  match e with EvRead _ => true | _ => false end.
Definition is_recvfrom (e : event) : bool :=
  match e with EvRecvfrom _ => true | _ => false end.
Definition is_sendto (e : event) : bool :=
  match e with EvSendto _ _ _ => true | _ => false end.
Definition is_write (e : event) : bool :=
  match e with EvWrite _ => true | _ => false end.

(** How often a log drains the interface channel and the transport socket,
    how many datagrams it sends and how many blocks it writes to the
    interface. *)
Definition reads (t : list event) : nat := List.length (filter is_read t).
Definition receives (t : list event) : nat := List.length (filter is_recvfrom t).
Definition sends (t : list event) : nat := List.length (filter is_sendto t).
Definition writes (t : list event) : nat := List.length (filter is_write t).

(** How many of the two sources a log drains. *)
Definition sources_drained (t : list event) : nat :=
  ((if existsb is_read t then 1 else 0) + (if existsb is_recvfrom t then 1 else 0))%nat.

(** The destinations of the datagrams a log sends, in order. *)
Definition sendto_dsts (t : list event) : list sockaddr_in :=
  flat_map (fun e => match e with EvSendto _ d _ => [d] | _ => [] end) t.

(** The addresses a log binds the socket to, in order. *)
Definition bind_addrs (t : list event) : list sockaddr_in :=
  flat_map (fun e => match e with EvBind a => [a] | _ => [] end) t.

(** A transfer of the whole buffer: the datagram sent, or the block written
    to the interface, is the buffer as it is at the call, [BUFSIZE] bytes. *)
Definition whole_buffer {S} (buf : S -> list byte) (c : event * S) : Prop :=
  match fst c with
  | EvSendto d _ _ => d = buf (snd c) /\ Z.of_nat (List.length d) = BUFSIZE
  | EvWrite d => d = buf (snd c) /\ Z.of_nat (List.length d) = BUFSIZE
  | _ => True
  end.

(** At every write to the interface in the log, v2's tracked peer is [Q]. *)
Definition v2_peer_at_writes (Q : sockaddr_in) (t : list (event * V2.machine)) : Prop :=
  Forall (fun c => match fst c with
                   | EvWrite _ => V2.remote_addr (snd c) = Q
                   | _ => True
                   end) t.

(** [perror msg] is in the log when [failed] holds. *)
Definition reported (failed : bool) (msg : string) (t : list event) : Prop :=
  if failed then In (EvPerror msg) t else True.

Definition read_failed (r : read_result) : bool :=
  match r with ReadErr => true | ReadOk _ => false end.
Definition recv_failed (r : recv_result) : bool :=
  match r with RecvErr => true | RecvOk _ _ _ => false end.

(** The status of a run that has exited. *)
Definition exit_status {S A} (r : result S A) : option Z :=
  match r with Exited st _ => Some st | _ => None end.

(** The variables at the end of a run. *)
Definition final {S A} (r : result S A) : S :=
  match r with Ok _ s => s | Exited _ s => s | Blocked _ s => s end.

(** A run that is in the relay loop, blocked in [select]. *)
Definition relaying {S A} (r : result S A) : bool :=
  match r with Blocked InSelect _ => true | _ => false end.

(** A run that is still in the handshake, blocked in [recvfrom]. *)
Definition waiting {S A} (r : result S A) : bool :=
  match r with Blocked InHandshake _ => true | _ => false end.

(** *** Conditions on the inputs *)

(** A pass that neither receives a datagram nor ends the process: [select]
    was interrupted, or it succeeded without reporting the socket. *)
Definition quiet (it : iteration) : bool :=
  ((sel_ret it <? 0) && (sel_errno it =? EINTR))
  || ((0 <=? sel_ret it) && negb (sel_sock it)).

(** Some byte of [payload] differs from the byte of [tok] at the same
    position. *)
Fixpoint differs (tok payload : list byte) : bool :=
  match tok, payload with
  | t :: tok', p :: payload' => negb (Byte.eqb t p) || differs tok' payload'
  | _, _ => false
  end.

(** The results of [getopt] without the options [-p], and a world with
    other [getopt] results. *)
Definition drop_p (gs : list getopt_result) : list getopt_result :=
  filter (fun g => negb (Ascii.eqb (opt g) "p")) gs.
Definition with_getopt (gs : list getopt_result) (w : world) : world :=
  mk_world (w_progname w) gs (w_extra w) (w_atoi w) (w_inet_aton w) (w_open w)
           (w_ioctl w) (w_ifr_name w) (w_socket w) (w_setsockopt w) (w_bind w)
           (w_hs_sendto w) (w_hs_recvfrom w) (w_relay w).

(** *** The relay loop written out call by call

    The log and the final variables of the two branches and of a whole
    pass, as explicit lists; the lemmas [*_branch_run] and [*_pass_run]
    prove that the code of [V1] and [V2] produces them. *)

(** What [read] and [recvfrom] return and leave in the variables. *)
Definition read_ret (r : read_result) : Z :=
  match r with
  | ReadErr => -1
  | ReadOk frame => Z.of_nat (List.length (firstn (Z.to_nat BUFSIZE) frame))
  end.
Definition recv_ret (r : recv_result) : Z :=
  match r with
  | RecvErr => -1
  | RecvOk payload _ _ => Z.of_nat (List.length (firstn (Z.to_nat BUFSIZE) payload))
  end.
Definition after_read {S} (buf : var S (list byte)) (r : read_result) (s : S) : S :=
  match r with
  | ReadErr => s
  | ReadOk frame => wr buf (fill BUFSIZE frame (rd buf s)) s
  end.
Definition after_recv {S} (buf : var S (list byte)) (addr : var S sockaddr_in)
    (addrlen : var S Z) (r : recv_result) (s : S) : S :=
  match r with
  | RecvErr => s
  | RecvOk payload src srclen =>
      wr addrlen srclen (wr addr src (wr buf (fill BUFSIZE payload (rd buf s)) s))
  end.

(** The address v1 sends relayed frames to, and the length it passes. *)
Definition v1_peer (s : V1.machine) : sockaddr_in :=
  if V1.cliserv s =? CLIENT then V1.server_addr s else V1.client_addr s.
Definition v1_peerlen (s : V1.machine) : Z :=
  if V1.cliserv s =? CLIENT then V1.serverlen s else V1.clientlen s.

(** The address both roles of v1 bind the socket to. *)
Definition v1_local_addr : sockaddr_in :=
  {| sin_family := AF_INET; sin_port := htons V1.PORT; sin_addr := htonl INADDR_ANY |}.

Definition v1_tap_state (it : iteration) (s : V1.machine) : V1.machine :=
  after_read V1.buffer_ (tap_read it) s.
Definition v1_tap_log (it : iteration) (s : V1.machine) : list (event * V1.machine) :=
  let s1 := v1_tap_state it s in
  (EvRead BUFSIZE, s)
    :: (if c_true (read_ret (tap_read it)) then [(EvPerror "read", s1)] else [])
    ++ (EvSendto (firstn (Z.to_nat BUFSIZE) (V1.buffer s1)) (v1_peer s) (v1_peerlen s), s1)
    :: (if tap_sendto it <? 0 then [(EvPerror "sendto", s1)] else []).

Definition v1_sock_state (it : iteration) (s : V1.machine) : V1.machine :=
  if V1.cliserv s =? CLIENT
  then after_recv V1.buffer_ V1.server_addr_ V1.serverlen_ (sock_recvfrom it) s
  else after_recv V1.buffer_ V1.client_addr_ V1.clientlen_ (sock_recvfrom it) s.
Definition v1_sock_log (it : iteration) (s : V1.machine) : list (event * V1.machine) :=
  let s1 := v1_sock_state it s in
  (EvRecvfrom BUFSIZE, s)
    :: (if c_true (recv_ret (sock_recvfrom it)) then [(EvPerror "read", s1)] else [])
    ++ (EvPrintf "Get packet in UDP tunnel\n" [], s1)
    :: (EvWrite (firstn (Z.to_nat BUFSIZE) (V1.buffer s1)), s1)
    :: (if sock_write it <? 0 then [(EvPerror "write", s1)] else []).

Definition v2_tap_state (it : iteration) (s : V2.machine) : V2.machine :=
  wr V2.tap_count_ (int_wrap (V2.tap_count s + 1))
     (after_read V2.buffer_ (tap_read it) s).
Definition v2_tap_log (it : iteration) (s : V2.machine) : list (event * V2.machine) :=
  let s1 := after_read V2.buffer_ (tap_read it) s in
  (EvRead BUFSIZE, s)
    :: (if c_true (read_ret (tap_read it))
        then [(EvPerror "read from virtual", s1)] else [])
    ++ (EvSendto (firstn (Z.to_nat BUFSIZE) (V2.buffer s1)) (V2.remote_addr s)
                 sizeof_sockaddr_in, s1)
    :: (if tap_sendto it <? 0 then [(EvPerror "sendto network", s1)] else [])
    ++ [(EvPrintf "Get packet from virtual -> real NIC %d\n" [PInt (V2.tap_count s)],
         v2_tap_state it s)].

(** The variables of v2 after [recvfrom] and [remote_addr = read_addr]. *)
Definition v2_tracked (it : iteration) (s : V2.machine) : V2.machine :=
  let s1 := after_recv V2.buffer_ V2.read_addr_ V2.readlen_ (sock_recvfrom it) s in
  wr V2.remote_addr_ (V2.read_addr s1) s1.
Definition v2_sock_state (it : iteration) (s : V2.machine) : V2.machine :=
  wr V2.sock_count_ (int_wrap (V2.sock_count s + 1)) (v2_tracked it s).
Definition v2_sock_log (it : iteration) (s : V2.machine) : list (event * V2.machine) :=
  let s1 := after_recv V2.buffer_ V2.read_addr_ V2.readlen_ (sock_recvfrom it) s in
  let s2 := v2_tracked it s in
  (EvRecvfrom BUFSIZE, s)
    :: (if c_true (recv_ret (sock_recvfrom it))
        then [(EvPerror "read from network", s1)] else [])
    ++ (EvWrite (firstn (Z.to_nat BUFSIZE) (V2.buffer s2)), s2)
    :: (if sock_write it <? 0 then [(EvPerror "write to virtual", s2)] else [])
    ++ [(EvPrintf "Get packet from real -> virtual NIC %d\n" [PInt (V2.sock_count s)],
         v2_sock_state it s)].

(** A pass in which [select] succeeds: the tap branch when the interface
    is reported, then the socket branch when the socket is reported. *)
Definition v1_pass_mid (it : iteration) (s : V1.machine) : V1.machine :=
  if sel_tap it then v1_tap_state it s else s.
Definition v1_pass_state (it : iteration) (s : V1.machine) : V1.machine :=
  if sel_sock it then v1_sock_state it (v1_pass_mid it s) else v1_pass_mid it s.
Definition v1_pass_log (it : iteration) (s : V1.machine) : list (event * V1.machine) :=
  (EvSelect, s)
    :: (if sel_tap it then v1_tap_log it s else [])
    ++ (if sel_sock it then v1_sock_log it (v1_pass_mid it s) else []).

Definition v2_pass_mid (it : iteration) (s : V2.machine) : V2.machine :=
  if sel_tap it then v2_tap_state it s else s.
Definition v2_pass_state (it : iteration) (s : V2.machine) : V2.machine :=
  if sel_sock it then v2_sock_state it (v2_pass_mid it s) else v2_pass_mid it s.
Definition v2_pass_log (it : iteration) (s : V2.machine) : list (event * V2.machine) :=
  (EvSelect, s)
    :: (if sel_tap it then v2_tap_log it s else [])
    ++ (if sel_sock it then v2_sock_log it (v2_pass_mid it s) else []).

(** *** Inputs of the examples *)

(** Two hosts: 10.0.0.5 on the port of v2 ([addr_P]) and on the port of v1
    ([addr_P1]), and 10.0.0.6 ([addr_Q]); the addresses are in network
    byte order. *)
Definition ip_10_0_0_5 : Z := 83886090.
Definition ip_10_0_0_6 : Z := 100663306.
Definition addr_P : sockaddr_in :=
  {| sin_family := AF_INET; sin_port := htons 5588; sin_addr := ip_10_0_0_5 |}.
Definition addr_P1 : sockaddr_in :=
  {| sin_family := AF_INET; sin_port := htons 55566; sin_addr := ip_10_0_0_5 |}.
Definition addr_Q : sockaddr_in :=
  {| sin_family := AF_INET; sin_port := htons 40000; sin_addr := ip_10_0_0_6 |}.

(** The variables at the start of [main]: a stack of zero bytes. *)
Definition zeros : list byte := repeat x00 (Z.to_nat BUFSIZE).
Definition v1_stack : V1.machine :=
  V1.mk_machine 0 0 "" 0 zeros zero_sockaddr zero_sockaddr "" 0 0 0.
Definition v2_stack : V2.machine :=
  V2.mk_machine "" zeros zero_sockaddr zero_sockaddr zero_sockaddr zero_sockaddr
                "" 0 0 0 0 0 0 0.

(** A v1 client and a v2 client in the relay loop with peer [addr_P]. *)
Definition v1_client_P : V1.machine :=
  V1.mk_machine 0 IFF_TUN "tun0" IP_HDR_LEN zeros addr_P zero_sockaddr "10.0.0.5"
                0 sizeof_sockaddr_in CLIENT.
Definition v2_relay_P : V2.machine :=
  V2.mk_machine "tun0" zeros addr_P zero_sockaddr addr_P zero_sockaddr "10.0.0.5"
                V2.PORT sizeof_sockaddr_in sizeof_sockaddr_in sizeof_sockaddr_in
                CLIENT 0 0.

(** Passes of the relay loop: an interrupted [select]; both descriptors
    reported; both reported and every call failing; a datagram of three
    bytes from [addr_Q]; a frame of two bytes from the interface. *)
Definition pass_interrupted : iteration :=
  mk_iteration (-1) EINTR false false ReadErr 0 RecvErr 0.
Definition pass_both_ready : iteration :=
  mk_iteration 2 0 true true (ReadOk [x45; x00]) 4096 (RecvOk [x45] addr_Q 16) 4096.
Definition pass_all_fail : iteration :=
  mk_iteration 2 0 true true ReadErr (-1) RecvErr (-1).
Definition pass_datagram_from_Q : iteration :=
  mk_iteration 1 0 false true ReadErr 0 (RecvOk [x45; x00; x00] addr_Q 16) 4096.
Definition pass_frame : iteration :=
  mk_iteration 1 0 true false (ReadOk [x45; x00]) 4096 RecvErr 0.

(** Datagrams: a token whose first byte is wrong, and a reply that has
    only the first byte right. *)
Definition bad_token : list byte := list_byte_of_string "Xazaaaaaaaaaaahhhh !" ++ [x00].
Definition wrong_reply : list byte := list_byte_of_string "Wrong".

(** Worlds: the command lines [-i tun0 -c 10.0.0.5] and [-i tun0 -s], with
    every set-up call succeeding but [bind], whose result is given, then
    the datagrams of the handshake and the passes of the relay loop. *)
Definition aton_example (cp : string) : option Z :=
  if String.eqb cp "10.0.0.5" then Some ip_10_0_0_5 else None.
Definition world_of (opts : list getopt_result) (bind_ret : Z)
    (hs : list recv_result) (relay : list iteration) : world :=
  mk_world "simpletun" opts 0 (fun _ => 1234) aton_example 3 0 "tun0" 4 0
           bind_ret 21 hs relay.
Definition opts_client : list getopt_result :=
  [mk_getopt "i" "tun0"; mk_getopt "c" "10.0.0.5"].
Definition opts_server : list getopt_result :=
  [mk_getopt "i" "tun0"; mk_getopt "s" ""].

(** v1 client: the server answers with the magic word, then a datagram
    arrives from [addr_Q], then a frame is read from the interface. *)
Definition world_v1_roaming : world :=
  world_of opts_client 0 [RecvOk MAGIC_WORD addr_P1 16]
           [pass_datagram_from_Q; pass_frame].
(** Servers: a datagram that is not the magic word arrives first, the
    magic word second. *)
Definition world_v2_bad_token : world :=
  world_of opts_server 0 [RecvOk bad_token addr_Q 16; RecvOk MAGIC_WORD addr_P 16]
           [pass_frame].
Definition world_v1_bad_token : world :=
  world_of opts_server 0 [RecvOk bad_token addr_Q 16; RecvOk MAGIC_WORD addr_P1 16]
           [pass_frame].
(** v1 server: the wrong token, then the single byte ["W"] from [addr_Q]. *)
Definition world_v1_stale_buffer : world :=
  world_of opts_server 0 [RecvOk bad_token addr_P1 16; RecvOk [x57] addr_Q 16]
           [pass_frame].
(** Client: the one answer is ["Wrong"], and comes from [addr_Q]. *)
Definition world_wrong_reply : world :=
  world_of opts_client 0 [RecvOk wrong_reply addr_Q 16] [pass_frame].
(** v1 client: the one answer is the wrong token. *)
Definition world_v1_bad_reply : world :=
  world_of opts_client 0 [RecvOk bad_token addr_P1 16] [pass_frame].
(** Client and server whose [bind] fails. *)
Definition world_client_bind_fails : world :=
  world_of opts_client (-1) [RecvOk MAGIC_WORD addr_P1 16] [pass_frame].
Definition world_server_bind_fails : world :=
  world_of opts_server (-1) [RecvOk MAGIC_WORD addr_P1 16] [pass_frame].

(** *** The command line written out

    What the option loop and the checks after it do, as pure functions;
    the lemmas [*_parse_run] and [*_main_command_line] prove that the code
    of [V1] and [V2] computes them. *)

(** A log of messages only: no call reaches the devices or the socket. *)
Definition is_message (e : event) : bool :=
  match e with EvPerror _ | EvStderr _ _ | EvPrintf _ _ => true | _ => false end.
Definition only_messages {S} (t : list (event * S)) : Prop :=
  forallb is_message (calls t) = true.

(** The option characters whose case of the switch returns to the loop. *)
Definition v1_accepted (g : getopt_result) : bool :=
  existsb (Ascii.eqb (opt g)) ["d"; "i"; "s"; "c"; "p"; "u"; "a"]%char.
Definition v2_accepted (g : getopt_result) : bool :=
  existsb (Ascii.eqb (opt g)) ["i"; "s"; "c"; "p"]%char.

(** The assignments of one accepted option. *)
Definition v1_option_effect (s : V1.machine) (g : getopt_result) : V1.machine :=
  let c := opt g in
  if Ascii.eqb c "d" then wr V1.debug_ 1 s
  else if Ascii.eqb c "i" then wr V1.if_name_ (strncpy (optarg g) (IFNAMSIZ - 1)) s
  else if Ascii.eqb c "s" then wr V1.cliserv_ SERVER s
  else if Ascii.eqb c "c" then
    wr V1.server_ip_ (strncpy (optarg g) 15) (wr V1.cliserv_ CLIENT s)
  else if Ascii.eqb c "u" then wr V1.flags_ IFF_TUN s
  else if Ascii.eqb c "a" then wr V1.header_len_ ETH_HDR_LEN (wr V1.flags_ IFF_TAP s)
  else s.
Definition v2_option_effect (w : world) (s : V2.machine) (g : getopt_result) : V2.machine :=
  let c := opt g in
  if Ascii.eqb c "i" then wr V2.if_name_ (strncpy (optarg g) (IFNAMSIZ - 1)) s
  else if Ascii.eqb c "s" then wr V2.cliserv_ SERVER s
  else if Ascii.eqb c "c" then
    wr V2.server_ip_ (strncpy (optarg g) 15) (wr V2.cliserv_ CLIENT s)
  else if Ascii.eqb c "p" then wr V2.port_ ((w_atoi w (optarg g)) mod 65536) s
  else s.

(** The variables after the initialisers of the declarations. *)
Definition v1_init (s : V1.machine) : V1.machine :=
  wr V1.cliserv_ (-1)
     (wr V1.server_ip_ ""
         (wr V1.header_len_ IP_HDR_LEN
             (wr V1.if_name_ "" (wr V1.flags_ IFF_TUN (wr V1.debug_ 0 s))))).
Definition v2_init (s : V2.machine) : V2.machine :=
  wr V2.sock_count_ 0
     (wr V2.tap_count_ 0
         (wr V2.cliserv_ (-1)
             (wr V2.readlen_ sizeof_sockaddr_in
                 (wr V2.serverlen_ sizeof_sockaddr_in
                     (wr V2.clientlen_ sizeof_sockaddr_in
                         (wr V2.port_ V2.PORT
                             (wr V2.server_ip_ "" (wr V2.if_name_ "" s)))))))).

(** The variables after the option loop, when every option is accepted. *)
Definition v1_parsed (w : world) (s : V1.machine) : V1.machine :=
  fold_left v1_option_effect (w_getopt w) (v1_init s).
Definition v2_parsed (w : world) (s : V2.machine) : V2.machine :=
  fold_left (v2_option_effect w) (w_getopt w) (v2_init s).

(** The checks after the option loop pass. *)
Definition v1_valid (w : world) (s : V1.machine) : bool :=
  negb (0 <? w_extra w)
  && negb (is_empty (V1.if_name s))
  && negb (V1.cliserv s <? 0)
  && negb ((V1.cliserv s =? CLIENT) && is_empty (V1.server_ip s)).
Definition v2_valid (w : world) (s : V2.machine) : bool :=
  negb (0 <? w_extra w)
  && negb (is_empty (V2.if_name s))
  && negb (V2.cliserv s <? 0)
  && negb ((V2.cliserv s =? CLIENT) && is_empty (V2.server_ip s)).

(** [main] gets past the command line. *)
Definition v1_config_ok (w : world) (s : V1.machine) : bool :=
  forallb v1_accepted (w_getopt w) && v1_valid w (v1_parsed w s).
Definition v2_config_ok (w : world) (s : V2.machine) : bool :=
  forallb v2_accepted (w_getopt w) && v2_valid w (v2_parsed w s).

(** What [main] runs after the command line. *)
Definition v1_after_options (w : world) : M V1.machine unit :=
  (V1.open_devices w ;;
   mode <- gets V1.cliserv ;;
   (if mode =? CLIENT then V1.client_handshake w else V1.server_handshake w) ;;
   V1.relay_loop (w_relay w))%monad.
Definition v2_after_options (w : world) : M V2.machine unit :=
  (V2.open_devices w ;;
   mode <- gets V2.cliserv ;;
   (if mode =? CLIENT then V2.client_handshake w else V2.server_handshake w) ;;
   V2.relay_loop (w_relay w))%monad.

(** *** Opening the devices *)

(** The calls of the set-up before the socket is used: messages, the
    opening of the tun/tap device and [socket]. *)
Definition is_setup (e : event) : bool :=
  match e with
  | EvPerror _ | EvStderr _ _ | EvPrintf _ _ | EvOpen | EvIoctl _ _ | EvClose
  | EvSocket => true
  | _ => false
  end.
Definition only_setup {S} (t : list (event * S)) : Prop :=
  forallb is_setup (calls t) = true.

Definition is_open (e : event) : bool :=
  match e with EvOpen => true | _ => false end.
Definition is_close (e : event) : bool :=
  match e with EvClose => true | _ => false end.

(** The arguments of the [ioctl(TUNSETIFF)] calls of a log: the interface
    name and the flags. *)
Definition ioctls (t : list event) : list (string * Z) :=
  flat_map (fun e => match e with EvIoctl name fl => [(name, fl)] | _ => [] end) t.

(** One of [open], [ioctl] and [socket] fails. *)
Definition devices_fail (w : world) : bool :=
  (w_open w <? 0) || (w_ioctl w <? 0) || (w_socket w <? 0).

(** *** What a piece of code never calls *)

(** No run of [m] makes a call that satisfies [p]. *)
Definition never {S A} (p : event -> bool) (m : M S A) : Prop :=
  forall s, existsb p (calls (fst (run m s))) = false.

(** The calls of the relay loop: [select], the four transfers, and
    messages. *)
Definition is_relay_call (e : event) : bool :=
  match e with
  | EvSelect | EvRead _ | EvSendto _ _ _ | EvRecvfrom _ | EvWrite _
  | EvPerror _ | EvStderr _ _ | EvPrintf _ _ => true
  | _ => false
  end.

(** A pass whose [select] fails with an error other than [EINTR]. *)
Definition fatal (it : iteration) : bool :=
  (sel_ret it <? 0) && negb (sel_errno it =? EINTR).

(** The passes up to and including the first fatal one. *)
Fixpoint until_fatal (its : list iteration) : list iteration :=
  match its with
  | [] => []
  | it :: its' => if fatal it then [it] else it :: until_fatal its'
  end.

(** *** Reading the command line *)

(** No option [c] among the results of [getopt]. *)
Definition no_option (c : ascii) (gs : list getopt_result) : bool :=
  forallb (fun g => negb (Ascii.eqb (opt g) c)) gs.

(** The argument of the last option [c]. *)
Definition last_opt (c : ascii) (gs : list getopt_result) : option string :=
  fold_left (fun acc g => if Ascii.eqb (opt g) c then Some (optarg g) else acc) gs None.

(** The mode the last of [-s] and [-c] selects, and the interface flag the
    last of [-u] and [-a] selects. *)
Definition last_mode (gs : list getopt_result) : option Z :=
  fold_left (fun acc g => if Ascii.eqb (opt g) "s" then Some SERVER
                          else if Ascii.eqb (opt g) "c" then Some CLIENT
                          else acc) gs None.
Definition last_flag (gs : list getopt_result) : option Z :=
  fold_left (fun acc g => if Ascii.eqb (opt g) "u" then Some IFF_TUN
                          else if Ascii.eqb (opt g) "a" then Some IFF_TAP
                          else acc) gs None.

(** A command line that both variants turn down: an option that v1 does
    not accept ([-h] or one outside the option string), no [-i], neither
    [-s] nor [-c], or arguments left after the options. *)
Definition cmdline_rejected (w : world) : bool :=
  existsb (fun g => negb (v1_accepted g)) (w_getopt w)
  || no_option "i" (w_getopt w)
  || (no_option "s" (w_getopt w) && no_option "c" (w_getopt w))
  || (0 <? w_extra w).

(** One of the options [-d], [-u], [-a] is on the command line. *)
Definition has_v1_only_option (w : world) : bool :=
  existsb (fun g => existsb (Ascii.eqb (opt g)) ["d"; "u"; "a"]%char) (w_getopt w).

(** The calls made once the devices are open: those of the relay loop,
    [setsockopt] and [bind]. *)
Definition is_session_call (e : event) : bool :=
  is_relay_call e || match e with EvSetsockopt | EvBind _ => true | _ => false end.

(** The port v2 uses: the value of the last [-p], converted to
    [unsigned short], or [PORT]. *)
Definition v2_port_of (w : world) (gs : list getopt_result) : Z :=
  match last_opt "p" gs with
  | Some a => (w_atoi w a) mod 65536
  | None => V2.PORT
  end.

(** *** After the set-up *)

(** What [main] runs once the device and the socket are open: the
    handshake of its role, then the relay loop. *)
Definition v1_session (w : world) : M V1.machine unit :=
  (mode <- gets V1.cliserv ;;
   (if mode =? CLIENT then V1.client_handshake w else V1.server_handshake w) ;;
   V1.relay_loop (w_relay w))%monad.
Definition v2_session (w : world) : M V2.machine unit :=
  (mode <- gets V2.cliserv ;;
   (if mode =? CLIENT then V2.client_handshake w else V2.server_handshake w) ;;
   V2.relay_loop (w_relay w))%monad.

(** The variables when the session starts: the command line parsed and the
    interface name replaced by the one the kernel chose. *)
Definition v1_ready (w : world) (s : V1.machine) : V1.machine :=
  wr V1.if_name_ (w_ifr_name w) (v1_parsed w s).
Definition v2_ready (w : world) (s : V2.machine) : V2.machine :=
  wr V2.if_name_ (w_ifr_name w) (v2_parsed w s).

(** The address both roles of v2 bind the socket to when the port is [p]. *)
Definition v2_local_addr (p : Z) : sockaddr_in :=
  {| sin_family := AF_INET; sin_port := htons p; sin_addr := htonl INADDR_ANY |}.

(** The address [inet_aton] leaves in a zeroed structure. *)
Definition aton_or_zero (w : world) (cp : string) : Z :=
  match w_inet_aton w cp with Some a => a | None => 0 end.

(** v2 client started with [-i tun0 -c 10.0.0.5 -p 1234]; nothing arrives. *)
Definition world_v2_port_1234 : world :=
  world_of (opts_client ++ [mk_getopt "p" "1234"]) 0 [] [].

(** *** The handshake of the server *)

(** A datagram whose payload differs from the magic word in a byte both
    have. *)
Definition mismatching (r : recv_result) : bool :=
  match r with
  | RecvOk payload _ _ => differs MAGIC_WORD payload
  | RecvErr => false
  end.

(** The variables of the v1 server after [bind], when it starts to wait
    for the connection request. *)
Definition v1_listening (s : V1.machine) : V1.machine :=
  wr V1.client_addr_ zero_sockaddr
     (wr V1.clientlen_ sizeof_sockaddr_in (wr V1.server_addr_ v1_local_addr s)).

(** What the servers do after the connection request: the echo of the
    magic word, and in v2 the assignment of the tracked peer. *)
Definition v1_server_reply (w : world) : M V1.machine unit :=
  (ca <- gets V1.client_addr ;;
   cl <- gets V1.clientlen ;;
   r <- sendto MAGIC_WORD sizeof_MAGIC_WORD ca cl (w_hs_sendto w) ;;
   when (r <? 0) (perror "sendto") ;;
   V1.do_debug "SERVER: Client connected from %s\n" [PIp (sin_addr ca)])%monad.
Definition v2_server_reply (w : world) : M V2.machine unit :=
  (ca <- gets V2.client_addr ;;
   cl <- gets V2.clientlen ;;
   r <- sendto MAGIC_WORD sizeof_MAGIC_WORD ca cl (w_hs_sendto w) ;;
   when (r <? 0) (perror "sendto") ;;
   printf "SERVER: Client connected from %s\n" [PIp (sin_addr ca)] ;;
   V2.remote_addr_ ::= ca)%monad.

(** The datagrams a log sends: payload, destination and address length. *)
Definition sent (t : list event) : list event := filter is_sendto t.

(** *** The data of the transfers *)

(** The payloads of the datagrams a log sends, and the blocks it writes to
    the interface, in order. *)
Definition sent_data (t : list event) : list (list byte) :=
  flat_map (fun e => match e with EvSendto d _ _ => [d] | _ => [] end) t.
Definition written (t : list event) : list (list byte) :=
  flat_map (fun e => match e with EvWrite d => [d] | _ => [] end) t.

(** A frame of two bytes, the datagram that carries it out of a buffer of
    zero bytes, and the pass in which that datagram arrives from [addr_P]. *)
Definition frame_45 : list byte := [x45; x00].
Definition datagram_45 : list byte := frame_45 ++ skipn 2 zeros.
Definition pass_datagram_45 : iteration :=
  mk_iteration 1 0 false true ReadErr 0 (RecvOk datagram_45 addr_P 16) 4096.

(** A [read] that returns 0, and a [recvfrom] that returns 0: no byte was
    stored. *)
Definition empty_read (r : read_result) : bool :=
  match r with ReadOk [] => true | _ => false end.
Definition empty_datagram (r : recv_result) : bool :=
  match r with RecvOk [] _ _ => true | _ => false end.

(** Server: the magic word arrives from [addr_Q], then a frame is read
    from the interface. *)
Definition world_server_Q : world :=
  world_of opts_server 0 [RecvOk MAGIC_WORD addr_Q 16] [pass_frame].

(** *** The input helpers of v1 *)


(** A buffer with [data] stored at offset [off]. *)
Definition splice (off : nat) (data old : list byte) : list byte :=
  firstn off old ++ data ++ skipn (off + List.length data) old.

(** Two [read] results: one byte, then three. *)
Definition two_reads (k : nat) : read_result :=
  match k with
  | O => ReadOk [x45]
  | _ => ReadOk [x00; x28; x99]
  end.

(** *** How a run can end *)



(** Client: no datagram ever arrives. *)
Definition world_unanswered : world := world_of opts_client 0 [] [].

(** *** The packet counters of v2 *)

(** The numbers a log prints with the message [fmt]. *)
Definition numbered (fmt : string) (t : list event) : list Z :=
  flat_map (fun e => match e with
                     | EvPrintf f [PInt z] => if String.eqb f fmt then [z] else []
                     | _ => []
                     end) t.

(** The numbers [c], [c + 1], ..., [c + n - 1]. *)
Definition count_from (c : Z) (n : nat) : list Z :=
  map (fun i => c + Z.of_nat i) (seq 0 n).

(** Both roles: the [recvfrom] of the handshake fails. *)
Definition world_recvfrom_fails : world := world_of opts_client 0 [RecvErr] [].

(** *** Output on [stderr] *)

(** A [fprintf(stderr, ...)] call: [usage], [my_err] and [do_debug] make
    them; [perror] is a call of its own. *)
Definition is_stderr (e : event) : bool :=
  match e with EvStderr _ _ => true | _ => false end.

(** Started with variables that satisfy [P], [m] makes no call that
    satisfies [p] and leaves variables that satisfy [P]. *)
Definition silent_if {S A} (P : S -> Prop) (p : event -> bool) (m : M S A) : Prop :=
  forall s, P s ->
            existsb p (calls (fst (run m s))) = false /\ P (final (snd (run m s))).

(** v1 server started with [-i tun0 -s -d]; nothing arrives. *)
Definition world_debug : world := world_of (opts_server ++ [mk_getopt "d" ""]) 0 [] [].

(* ================================================================= *)
(** ** Running the monad *)

Unset Implicit Arguments.

Lemma run_bind_ok {S A B} (m : M S A) (f : A -> M S B) s t a s' :
  run m s = (t, Ok a s') ->
  run (bind m f) s = (t ++ fst (run (f a) s'), snd (run (f a) s')).
Proof.
  unfold run, bind. intros ->. destruct (f a s'); reflexivity.
Qed.

Lemma run_bind_exited {S A B} (m : M S A) (f : A -> M S B) s t st s' :
  run m s = (t, Exited st s') -> run (bind m f) s = (t, Exited st s').
Proof. unfold run, bind. intros ->. reflexivity. Qed.

(** Two actions that run alike stay alike in front of the same rest. *)
Lemma run_bind_ext {S A B} (m m' : M S A) (f : A -> M S B) s :
  run m s = run m' s -> run (bind m f) s = run (bind m' f) s.
Proof. unfold run, bind. intros ->. reflexivity. Qed.

Lemma run_bind_ext_r {S A B} (m : M S A) (f f' : A -> M S B) s :
  (forall a s', run (f a) s' = run (f' a) s') ->
  run (bind m f) s = run (bind m f') s.
Proof.
  unfold run, bind. intros H. destruct (m s) as [t [a s'|st s'|w s']]; try reflexivity.
  rewrite H. reflexivity.
Qed.

(** Unfolding of the monad and of the variables, for goals in which every
    test is decided or can be decided by a case distinction. *)
Ltac mred :=
  cbv beta iota zeta delta
    [run bind ret emit exit blocked gets modify when assign update perror printf
     fprintf_stderr sendto recvfrom read write recvfrom_blocking inet_aton rd wr
     app fst snd after_read after_recv read_ret recv_ret
     v1_peer v1_peerlen v1_tap_state v1_tap_log v1_sock_state v1_sock_log
     v2_tap_state v2_tap_log v2_tracked v2_sock_state v2_sock_log
     V1.tap_branch V1.sock_branch V1.do_debug V1.my_err
     V1.debug_ V1.flags_ V1.if_name_ V1.header_len_ V1.buffer_ V1.server_addr_
     V1.client_addr_ V1.server_ip_ V1.clientlen_ V1.serverlen_ V1.cliserv_
     V1.debug V1.flags V1.if_name V1.header_len V1.buffer V1.server_addr
     V1.client_addr V1.server_ip V1.clientlen V1.serverlen V1.cliserv
     V2.tap_branch V2.sock_branch
     V2.if_name_ V2.buffer_ V2.server_addr_ V2.client_addr_ V2.remote_addr_
     V2.read_addr_ V2.server_ip_ V2.port_ V2.clientlen_ V2.serverlen_ V2.readlen_
     V2.cliserv_ V2.tap_count_ V2.sock_count_
     V2.if_name V2.buffer V2.server_addr V2.client_addr V2.remote_addr
     V2.read_addr V2.server_ip V2.port V2.clientlen V2.serverlen V2.readlen
     V2.cliserv V2.tap_count V2.sock_count].

Ltac mcase :=
  repeat (mred;
          match goal with
          | |- context [match ?c with ReadErr => _ | ReadOk _ => _ end] =>
              destruct c eqn:?
          | |- context [match ?c with RecvErr => _ | RecvOk _ _ _ => _ end] =>
              destruct c eqn:?
          | |- context [match ?c with Some _ => _ | None => _ end] =>
              destruct c eqn:?
          | |- context [if ?c then _ else _] => destruct c eqn:?
          end).

(* ================================================================= *)
(** ** The two branches of a pass, call by call *)

Lemma v1_tap_branch_run (it : iteration) (s : V1.machine) :
  run (V1.tap_branch it) s = (v1_tap_log it s, Ok tt (v1_tap_state it s)).
Proof. destruct s. mcase; reflexivity. Qed.

Lemma v1_sock_branch_run (it : iteration) (s : V1.machine) :
  run (V1.sock_branch it) s = (v1_sock_log it s, Ok tt (v1_sock_state it s)).
Proof. destruct s. mcase; reflexivity. Qed.

Lemma v2_tap_branch_run (it : iteration) (s : V2.machine) :
  run (V2.tap_branch it) s = (v2_tap_log it s, Ok tt (v2_tap_state it s)).
Proof. destruct s. mcase; reflexivity. Qed.

Lemma v2_sock_branch_run (it : iteration) (s : V2.machine) :
  run (V2.sock_branch it) s = (v2_sock_log it s, Ok tt (v2_sock_state it s)).
Proof. destruct s. mcase; reflexivity. Qed.

(* ================================================================= *)
(** ** One pass through the relay loop *)

Lemma v1_pass_run (it : iteration) (s : V1.machine) :
  0 <= sel_ret it ->
  run (V1.relay_iteration it) s = (v1_pass_log it s, Ok tt (v1_pass_state it s)).
Proof.
  intros Hret. apply Z.ltb_ge in Hret.
  unfold V1.relay_iteration, v1_pass_log, v1_pass_state, v1_pass_mid.
  rewrite Hret. cbn [andb].
  destruct (sel_tap it), (sel_sock it); unfold when;
    repeat first
      [ erewrite run_bind_ok by (first [ apply v1_tap_branch_run
                                       | apply v1_sock_branch_run
                                       | reflexivity ])
      | rewrite v1_tap_branch_run | rewrite v1_sock_branch_run ];
    cbn [fst snd app run ret]; rewrite ?app_nil_r; reflexivity.
Qed.

Lemma v2_pass_run (it : iteration) (s : V2.machine) :
  0 <= sel_ret it ->
  run (V2.relay_iteration it) s = (v2_pass_log it s, Ok tt (v2_pass_state it s)).
Proof.
  intros Hret. apply Z.ltb_ge in Hret.
  unfold V2.relay_iteration, v2_pass_log, v2_pass_state, v2_pass_mid.
  rewrite Hret. cbn [andb].
  destruct (sel_tap it), (sel_sock it); unfold when;
    repeat first
      [ erewrite run_bind_ok by (first [ apply v2_tap_branch_run
                                       | apply v2_sock_branch_run
                                       | reflexivity ])
      | rewrite v2_tap_branch_run | rewrite v2_sock_branch_run ];
    cbn [fst snd app run ret]; rewrite ?app_nil_r; reflexivity.
Qed.

Lemma v1_pass_interrupted (it : iteration) (s : V1.machine) :
  sel_ret it < 0 -> sel_errno it = EINTR ->
  run (V1.relay_iteration it) s = ([(EvSelect, s)], Ok tt s).
Proof.
  intros Hret Herr. apply Z.ltb_lt in Hret. apply Z.eqb_eq in Herr.
  unfold V1.relay_iteration. rewrite Hret, Herr. reflexivity.
Qed.

Lemma v2_pass_interrupted (it : iteration) (s : V2.machine) :
  sel_ret it < 0 -> sel_errno it = EINTR ->
  run (V2.relay_iteration it) s = ([(EvSelect, s)], Ok tt s).
Proof.
  intros Hret Herr. apply Z.ltb_lt in Hret. apply Z.eqb_eq in Herr.
  unfold V2.relay_iteration. rewrite Hret, Herr. reflexivity.
Qed.

Lemma v1_pass_fatal (it : iteration) (s : V1.machine) :
  sel_ret it < 0 -> sel_errno it <> EINTR ->
  run (V1.relay_iteration it) s =
  ([(EvSelect, s); (EvPerror "select()", s)], Exited 1 s).
Proof.
  intros Hret Herr. apply Z.ltb_lt in Hret. apply Z.eqb_neq in Herr.
  unfold V1.relay_iteration. rewrite Hret, Herr. reflexivity.
Qed.

Lemma v2_pass_fatal (it : iteration) (s : V2.machine) :
  sel_ret it < 0 -> sel_errno it <> EINTR ->
  run (V2.relay_iteration it) s =
  ([(EvSelect, s); (EvPerror "select()", s)], Exited 1 s).
Proof.
  intros Hret Herr. apply Z.ltb_lt in Hret. apply Z.eqb_neq in Herr.
  unfold V2.relay_iteration. rewrite Hret, Herr. reflexivity.
Qed.

(** A pass that returns is followed by the rest of the loop. *)
Lemma v1_loop_step (it : iteration) (its : list iteration) (s s' : V1.machine) t :
  run (V1.relay_iteration it) s = (t, Ok tt s') ->
  run (V1.relay_loop (it :: its)) s =
  (t ++ fst (run (V1.relay_loop its) s'), snd (run (V1.relay_loop its) s')).
Proof.
  intros H. unfold V1.relay_loop. cbn [V1.relay_iterations].
  unfold run, bind in *. rewrite H.
  destruct (V1.relay_iterations its s') as [t1 [[] s1|st s1|w s1]];
    cbn; rewrite ?app_assoc; reflexivity.
Qed.

Lemma v2_loop_step (it : iteration) (its : list iteration) (s s' : V2.machine) t :
  run (V2.relay_iteration it) s = (t, Ok tt s') ->
  run (V2.relay_loop (it :: its)) s =
  (t ++ fst (run (V2.relay_loop its) s'), snd (run (V2.relay_loop its) s')).
Proof.
  intros H. unfold V2.relay_loop. cbn [V2.relay_iterations].
  unfold run, bind in *. rewrite H.
  destruct (V2.relay_iterations its s') as [t1 [[] s1|st s1|w s1]];
    cbn; rewrite ?app_assoc; reflexivity.
Qed.

(** A pass that exits ends the loop. *)
Lemma v1_loop_exit (it : iteration) (its : list iteration) (s s' : V1.machine) t st :
  run (V1.relay_iteration it) s = (t, Exited st s') ->
  run (V1.relay_loop (it :: its)) s = (t, Exited st s').
Proof.
  intros H. unfold V1.relay_loop. cbn [V1.relay_iterations].
  erewrite run_bind_exited; [reflexivity|].
  erewrite run_bind_exited; [reflexivity|exact H].
Qed.

Lemma v2_loop_exit (it : iteration) (its : list iteration) (s s' : V2.machine) t st :
  run (V2.relay_iteration it) s = (t, Exited st s') ->
  run (V2.relay_loop (it :: its)) s = (t, Exited st s').
Proof.
  intros H. unfold V2.relay_loop. cbn [V2.relay_iterations].
  erewrite run_bind_exited; [reflexivity|].
  erewrite run_bind_exited; [reflexivity|exact H].
Qed.

(** The loop opens every pass with the readiness wait. *)
Lemma run_bind_head {S A B} (m : M S A) (f : A -> M S B) s c t :
  fst (run m s) = c :: t -> exists t', fst (run (bind m f) s) = c :: t'.
Proof.
  unfold run, bind. destruct (m s) as [t0 [a s'|st s'|w s']]; cbn; intros ->.
  - destruct (f a s'). cbn. eexists. reflexivity.
  - eexists. reflexivity.
  - eexists. reflexivity.
Qed.

Lemma v1_pass_starts_with_select (it : iteration) (s : V1.machine) :
  exists t, fst (run (V1.relay_iteration it) s) = (EvSelect, s) :: t.
Proof. unfold V1.relay_iteration. eapply run_bind_head. reflexivity. Qed.

Lemma v2_pass_starts_with_select (it : iteration) (s : V2.machine) :
  exists t, fst (run (V2.relay_iteration it) s) = (EvSelect, s) :: t.
Proof. unfold V2.relay_iteration. eapply run_bind_head. reflexivity. Qed.

Lemma v1_loop_starts_with_select (its : list iteration) (s : V1.machine) :
  exists t, fst (run (V1.relay_loop its) s) = (EvSelect, s) :: t.
Proof.
  destruct its as [|it its].
  - eexists. reflexivity.
  - destruct (v1_pass_starts_with_select it s) as [t Ht].
    unfold V1.relay_loop. cbn [V1.relay_iterations].
    eapply run_bind_head in Ht. destruct Ht as [t' Ht].
    eapply run_bind_head. exact Ht.
Qed.

Lemma v2_loop_starts_with_select (its : list iteration) (s : V2.machine) :
  exists t, fst (run (V2.relay_loop its) s) = (EvSelect, s) :: t.
Proof.
  destruct its as [|it its].
  - eexists. reflexivity.
  - destruct (v2_pass_starts_with_select it s) as [t Ht].
    unfold V2.relay_loop. cbn [V2.relay_iterations].
    eapply run_bind_head in Ht. destruct Ht as [t' Ht].
    eapply run_bind_head. exact Ht.
Qed.

(* ================================================================= *)
(** ** The readiness wait *)

(** C7: in both variants, when [select] fails with [EINTR] the pass makes
    no other call and changes no variable, and the loop goes on to the next
    wait from the same variables; when [select] fails with any other error
    the pass reports ["select()"] and the process exits with status 1. *)
Theorem select_failure_interrupt_or_fatal :
  forall (it : iteration) (its : list iteration) (s1 : V1.machine) (s2 : V2.machine),
    sel_ret it < 0 ->
    if sel_errno it =? EINTR then
      run (V1.relay_iteration it) s1 = ([(EvSelect, s1)], Ok tt s1) /\
      run (V2.relay_iteration it) s2 = ([(EvSelect, s2)], Ok tt s2) /\
      run (V1.relay_loop (it :: its)) s1 =
        ((EvSelect, s1) :: fst (run (V1.relay_loop its) s1),
         snd (run (V1.relay_loop its) s1)) /\
      run (V2.relay_loop (it :: its)) s2 =
        ((EvSelect, s2) :: fst (run (V2.relay_loop its) s2),
         snd (run (V2.relay_loop its) s2))
    else
      run (V1.relay_iteration it) s1 =
        ([(EvSelect, s1); (EvPerror "select()", s1)], Exited 1 s1) /\
      run (V2.relay_iteration it) s2 =
        ([(EvSelect, s2); (EvPerror "select()", s2)], Exited 1 s2) /\
      run (V1.relay_loop (it :: its)) s1 =
        ([(EvSelect, s1); (EvPerror "select()", s1)], Exited 1 s1) /\
      run (V2.relay_loop (it :: its)) s2 =
        ([(EvSelect, s2); (EvPerror "select()", s2)], Exited 1 s2).
Proof.
  intros it its s1 s2 Hret.
  destruct (Z.eqb_spec (sel_errno it) EINTR) as [Herr|Herr].
  - pose proof (v1_pass_interrupted it s1 Hret Herr) as H1.
    pose proof (v2_pass_interrupted it s2 Hret Herr) as H2.
    repeat split; auto.
    + rewrite (v1_loop_step it its _ _ _ H1). reflexivity.
    + rewrite (v2_loop_step it its _ _ _ H2). reflexivity.
  - pose proof (v1_pass_fatal it s1 Hret Herr) as H1.
    pose proof (v2_pass_fatal it s2 Hret Herr) as H2.
    repeat split; auto.
    + exact (v1_loop_exit it its _ _ _ _ H1).
    + exact (v2_loop_exit it its _ _ _ _ H2).
Qed.

Lemma select_failure_interrupt_or_fatal_witness :
  sel_ret pass_interrupted < 0 /\
  run (V1.relay_iteration pass_interrupted) v1_client_P =
    ([(EvSelect, v1_client_P)], Ok tt v1_client_P) /\
  run (V2.relay_iteration pass_interrupted) v2_relay_P =
    ([(EvSelect, v2_relay_P)], Ok tt v2_relay_P) /\
  run (V1.relay_loop [pass_interrupted; pass_frame]) v1_client_P =
    ((EvSelect, v1_client_P) :: fst (run (V1.relay_loop [pass_frame]) v1_client_P),
     snd (run (V1.relay_loop [pass_frame]) v1_client_P)) /\
  run (V2.relay_loop [pass_interrupted; pass_frame]) v2_relay_P =
    ((EvSelect, v2_relay_P) :: fst (run (V2.relay_loop [pass_frame]) v2_relay_P),
     snd (run (V2.relay_loop [pass_frame]) v2_relay_P)).
Proof.
  split; [reflexivity|].
  exact (select_failure_interrupt_or_fatal pass_interrupted [pass_frame]
           v1_client_P v2_relay_P eq_refl).
Defined.

(* ================================================================= *)
(** ** What a pass calls *)

Lemma count_calls_app {S} (p : event -> bool) (a b : list (event * S)) :
  List.length (filter p (calls (a ++ b))) =
  (List.length (filter p (calls a)) + List.length (filter p (calls b)))%nat.
Proof. unfold calls. rewrite map_app, filter_app, length_app. reflexivity. Qed.

Ltac count_log :=
  repeat match goal with
         | |- context [if ?c then _ else _] => destruct c
         end;
  repeat split; reflexivity.

Lemma v1_tap_log_counts (it : iteration) (s : V1.machine) :
  reads (calls (v1_tap_log it s)) = 1%nat /\
  receives (calls (v1_tap_log it s)) = 0%nat /\
  sends (calls (v1_tap_log it s)) = 1%nat /\
  writes (calls (v1_tap_log it s)) = 0%nat.
Proof. unfold v1_tap_log, reads, receives, sends, writes. count_log. Qed.

Lemma v1_sock_log_counts (it : iteration) (s : V1.machine) :
  reads (calls (v1_sock_log it s)) = 0%nat /\
  receives (calls (v1_sock_log it s)) = 1%nat /\
  sends (calls (v1_sock_log it s)) = 0%nat /\
  writes (calls (v1_sock_log it s)) = 1%nat.
Proof. unfold v1_sock_log, reads, receives, sends, writes. count_log. Qed.

Lemma v2_tap_log_counts (it : iteration) (s : V2.machine) :
  reads (calls (v2_tap_log it s)) = 1%nat /\
  receives (calls (v2_tap_log it s)) = 0%nat /\
  sends (calls (v2_tap_log it s)) = 1%nat /\
  writes (calls (v2_tap_log it s)) = 0%nat.
Proof. unfold v2_tap_log, reads, receives, sends, writes. count_log. Qed.

Lemma v2_sock_log_counts (it : iteration) (s : V2.machine) :
  reads (calls (v2_sock_log it s)) = 0%nat /\
  receives (calls (v2_sock_log it s)) = 1%nat /\
  sends (calls (v2_sock_log it s)) = 0%nat /\
  writes (calls (v2_sock_log it s)) = 1%nat.
Proof. unfold v2_sock_log, reads, receives, sends, writes. count_log. Qed.

Lemma v1_pass_log_counts (it : iteration) (s : V1.machine) :
  reads (calls (v1_pass_log it s)) = (if sel_tap it then 1 else 0)%nat /\
  receives (calls (v1_pass_log it s)) = (if sel_sock it then 1 else 0)%nat /\
  sends (calls (v1_pass_log it s)) = (if sel_tap it then 1 else 0)%nat /\
  writes (calls (v1_pass_log it s)) = (if sel_sock it then 1 else 0)%nat.
Proof.
  unfold v1_pass_log, reads, receives, sends, writes.
  change ((EvSelect, s) :: ?a ++ ?b) with ([(EvSelect, s)] ++ a ++ b).
  rewrite !count_calls_app.
  destruct (v1_tap_log_counts it s) as (T1 & T2 & T3 & T4).
  destruct (sel_sock it);
    [destruct (v1_sock_log_counts it (v1_pass_mid it s)) as (S1 & S2 & S3 & S4)|];
    destruct (sel_tap it);
    unfold reads, receives, sends, writes in *;
    rewrite ?T1, ?T2, ?T3, ?T4, ?S1, ?S2, ?S3, ?S4; repeat split; reflexivity.
Qed.

Lemma v2_pass_log_counts (it : iteration) (s : V2.machine) :
  reads (calls (v2_pass_log it s)) = (if sel_tap it then 1 else 0)%nat /\
  receives (calls (v2_pass_log it s)) = (if sel_sock it then 1 else 0)%nat /\
  sends (calls (v2_pass_log it s)) = (if sel_tap it then 1 else 0)%nat /\
  writes (calls (v2_pass_log it s)) = (if sel_sock it then 1 else 0)%nat.
Proof.
  unfold v2_pass_log, reads, receives, sends, writes.
  change ((EvSelect, s) :: ?a ++ ?b) with ([(EvSelect, s)] ++ a ++ b).
  rewrite !count_calls_app.
  destruct (v2_tap_log_counts it s) as (T1 & T2 & T3 & T4).
  destruct (sel_sock it);
    [destruct (v2_sock_log_counts it (v2_pass_mid it s)) as (S1 & S2 & S3 & S4)|];
    destruct (sel_tap it);
    unfold reads, receives, sends, writes in *;
    rewrite ?T1, ?T2, ?T3, ?T4, ?S1, ?S2, ?S3, ?S4; repeat split; reflexivity.
Qed.

(** C8, as the claim states it, fails: a pass of v2 in which [select]
    reports both descriptors reads the interface and receives from the
    socket, so it drains two sources, not at most one. *)
Lemma both_sources_drained_in_one_pass :
  ~ (forall (it : iteration) (s : V2.machine),
        (sources_drained (calls (fst (run (V2.relay_iteration it) s))) <= 1)%nat).
Proof.
  intros H. specialize (H pass_both_ready v2_relay_P).
  vm_compute in H. lia.
Qed.

(** C8, amended: in both variants a pass reads the interface exactly once
    when [select] succeeds and reports it, and not otherwise; it receives
    from the socket exactly once when [select] succeeds and reports it, and
    not otherwise.  When both are reported, both are drained in the pass. *)
Theorem pass_drains_each_reported_source_once :
  forall (it : iteration) (s1 : V1.machine) (s2 : V2.machine),
    reads (calls (fst (run (V1.relay_iteration it) s1)))
      = Nat.b2n ((0 <=? sel_ret it) && sel_tap it) /\
    receives (calls (fst (run (V1.relay_iteration it) s1)))
      = Nat.b2n ((0 <=? sel_ret it) && sel_sock it) /\
    reads (calls (fst (run (V2.relay_iteration it) s2)))
      = Nat.b2n ((0 <=? sel_ret it) && sel_tap it) /\
    receives (calls (fst (run (V2.relay_iteration it) s2)))
      = Nat.b2n ((0 <=? sel_ret it) && sel_sock it).
Proof.
  intros it s1 s2.
  destruct (Z.leb_spec 0 (sel_ret it)) as [Hret|Hret]; cbn [andb].
  - rewrite (v1_pass_run it s1 Hret), (v2_pass_run it s2 Hret). cbn [fst].
    destruct (v1_pass_log_counts it s1) as (A1 & A2 & _).
    destruct (v2_pass_log_counts it s2) as (B1 & B2 & _).
    auto.
  - destruct (Z.eq_dec (sel_errno it) EINTR) as [Herr|Herr].
    + rewrite (v1_pass_interrupted it s1 Hret Herr),
              (v2_pass_interrupted it s2 Hret Herr).
      repeat split; reflexivity.
    + rewrite (v1_pass_fatal it s1 Hret Herr), (v2_pass_fatal it s2 Hret Herr).
      repeat split; reflexivity.
Qed.

(* ================================================================= *)
(** ** Failures of single calls inside a pass *)

Lemma reported_app_l {S} (b : bool) (msg : string) (a c : list (event * S)) :
  reported b msg (calls a) -> reported b msg (calls (a ++ c)).
Proof.
  unfold reported, calls. destruct b; auto.
  rewrite map_app. intros H. apply in_or_app. auto.
Qed.

Lemma reported_app_r {S} (b : bool) (msg : string) (a c : list (event * S)) :
  reported b msg (calls c) -> reported b msg (calls (a ++ c)).
Proof.
  unfold reported, calls. destruct b; auto.
  rewrite map_app. intros H. apply in_or_app. auto.
Qed.

Ltac find_perror :=
  cbn [calls map fst app In];
  repeat first [ left; reflexivity | right ].

Lemma v1_tap_log_reports (it : iteration) (s : V1.machine) :
  reported (read_failed (tap_read it)) "read" (calls (v1_tap_log it s)) /\
  reported (tap_sendto it <? 0) "sendto" (calls (v1_tap_log it s)).
Proof.
  unfold v1_tap_log, reported.
  destruct (tap_read it), (tap_sendto it <? 0); cbn [read_failed read_ret];
    try change (c_true (-1)) with true; cbv beta iota zeta;
    repeat match goal with |- context [if ?c then _ else _] => destruct c end;
    split; try exact I; find_perror.
Qed.

Lemma v1_sock_log_reports (it : iteration) (s : V1.machine) :
  reported (recv_failed (sock_recvfrom it)) "read" (calls (v1_sock_log it s)) /\
  reported (sock_write it <? 0) "write" (calls (v1_sock_log it s)).
Proof.
  unfold v1_sock_log, reported.
  destruct (sock_recvfrom it), (sock_write it <? 0); cbn [recv_failed recv_ret];
    try change (c_true (-1)) with true; cbv beta iota zeta;
    repeat match goal with |- context [if ?c then _ else _] => destruct c end;
    split; try exact I; find_perror.
Qed.

Lemma v2_tap_log_reports (it : iteration) (s : V2.machine) :
  reported (read_failed (tap_read it)) "read from virtual" (calls (v2_tap_log it s)) /\
  reported (tap_sendto it <? 0) "sendto network" (calls (v2_tap_log it s)).
Proof.
  unfold v2_tap_log, reported.
  destruct (tap_read it), (tap_sendto it <? 0); cbn [read_failed read_ret];
    try change (c_true (-1)) with true; cbv beta iota zeta;
    repeat match goal with |- context [if ?c then _ else _] => destruct c end;
    split; try exact I; find_perror.
Qed.

Lemma v2_sock_log_reports (it : iteration) (s : V2.machine) :
  reported (recv_failed (sock_recvfrom it)) "read from network"
           (calls (v2_sock_log it s)) /\
  reported (sock_write it <? 0) "write to virtual" (calls (v2_sock_log it s)).
Proof.
  unfold v2_sock_log, reported.
  destruct (sock_recvfrom it), (sock_write it <? 0); cbn [recv_failed recv_ret];
    try change (c_true (-1)) with true; cbv beta iota zeta;
    repeat match goal with |- context [if ?c then _ else _] => destruct c end;
    split; try exact I; find_perror.
Qed.

Lemma reported_and (a b : bool) (msg : string) (t : list event) :
  (a = true -> reported b msg t) -> reported (a && b) msg t.
Proof. destruct a; cbn; auto. Qed.

(** C6: in both variants a pass in which [select] succeeds never exits,
    whatever [read], [sendto], [recvfrom] and [write] return: it returns to
    the loop, which opens the next pass with [select]; and each of the four
    calls that is made and fails is reported with [perror]. *)
Theorem relay_io_failure_reported_not_fatal :
  forall (it : iteration) (its : list iteration) (s1 : V1.machine) (s2 : V2.machine),
    0 <= sel_ret it ->
    (exists t s',
        run (V1.relay_iteration it) s1 = (t, Ok tt s') /\
        run (V1.relay_loop (it :: its)) s1 =
          (t ++ fst (run (V1.relay_loop its) s'), snd (run (V1.relay_loop its) s')) /\
        (exists t', fst (run (V1.relay_loop its) s') = (EvSelect, s') :: t') /\
        reported (sel_tap it && read_failed (tap_read it)) "read" (calls t) /\
        reported (sel_tap it && (tap_sendto it <? 0)) "sendto" (calls t) /\
        reported (sel_sock it && recv_failed (sock_recvfrom it)) "read" (calls t) /\
        reported (sel_sock it && (sock_write it <? 0)) "write" (calls t)) /\
    (exists t s',
        run (V2.relay_iteration it) s2 = (t, Ok tt s') /\
        run (V2.relay_loop (it :: its)) s2 =
          (t ++ fst (run (V2.relay_loop its) s'), snd (run (V2.relay_loop its) s')) /\
        (exists t', fst (run (V2.relay_loop its) s') = (EvSelect, s') :: t') /\
        reported (sel_tap it && read_failed (tap_read it)) "read from virtual" (calls t) /\
        reported (sel_tap it && (tap_sendto it <? 0)) "sendto network" (calls t) /\
        reported (sel_sock it && recv_failed (sock_recvfrom it)) "read from network"
                 (calls t) /\
        reported (sel_sock it && (sock_write it <? 0)) "write to virtual" (calls t)).
Proof.
  intros it its s1 s2 Hret. split.
  - exists (v1_pass_log it s1), (v1_pass_state it s1).
    pose proof (v1_pass_run it s1 Hret) as Hrun.
    split; [exact Hrun|].
    split; [exact (v1_loop_step it its _ _ _ Hrun)|].
    split; [apply v1_loop_starts_with_select|].
    unfold v1_pass_log.
    change ((EvSelect, s1) :: ?a ++ ?b) with ([(EvSelect, s1)] ++ a ++ b).
    repeat split; apply reported_and; intros ->; apply reported_app_r.
    + apply reported_app_l, v1_tap_log_reports.
    + apply reported_app_l, v1_tap_log_reports.
    + apply reported_app_r, v1_sock_log_reports.
    + apply reported_app_r, v1_sock_log_reports.
  - exists (v2_pass_log it s2), (v2_pass_state it s2).
    pose proof (v2_pass_run it s2 Hret) as Hrun.
    split; [exact Hrun|].
    split; [exact (v2_loop_step it its _ _ _ Hrun)|].
    split; [apply v2_loop_starts_with_select|].
    unfold v2_pass_log.
    change ((EvSelect, s2) :: ?a ++ ?b) with ([(EvSelect, s2)] ++ a ++ b).
    repeat split; apply reported_and; intros ->; apply reported_app_r.
    + apply reported_app_l, v2_tap_log_reports.
    + apply reported_app_l, v2_tap_log_reports.
    + apply reported_app_r, v2_sock_log_reports.
    + apply reported_app_r, v2_sock_log_reports.
Qed.

Lemma relay_io_failure_reported_not_fatal_witness :
  0 <= sel_ret pass_all_fail /\
  (exists t s',
      run (V1.relay_iteration pass_all_fail) v1_client_P = (t, Ok tt s') /\
      run (V1.relay_loop (pass_all_fail :: [pass_frame])) v1_client_P =
        (t ++ fst (run (V1.relay_loop [pass_frame]) s'),
         snd (run (V1.relay_loop [pass_frame]) s')) /\
      (exists t', fst (run (V1.relay_loop [pass_frame]) s') = (EvSelect, s') :: t') /\
      reported (sel_tap pass_all_fail && read_failed (tap_read pass_all_fail))
               "read" (calls t) /\
      reported (sel_tap pass_all_fail && (tap_sendto pass_all_fail <? 0))
               "sendto" (calls t) /\
      reported (sel_sock pass_all_fail && recv_failed (sock_recvfrom pass_all_fail))
               "read" (calls t) /\
      reported (sel_sock pass_all_fail && (sock_write pass_all_fail <? 0))
               "write" (calls t)) /\
  (exists t s',
      run (V2.relay_iteration pass_all_fail) v2_relay_P = (t, Ok tt s') /\
      run (V2.relay_loop (pass_all_fail :: [pass_frame])) v2_relay_P =
        (t ++ fst (run (V2.relay_loop [pass_frame]) s'),
         snd (run (V2.relay_loop [pass_frame]) s')) /\
      (exists t', fst (run (V2.relay_loop [pass_frame]) s') = (EvSelect, s') :: t') /\
      reported (sel_tap pass_all_fail && read_failed (tap_read pass_all_fail))
               "read from virtual" (calls t) /\
      reported (sel_tap pass_all_fail && (tap_sendto pass_all_fail <? 0))
               "sendto network" (calls t) /\
      reported (sel_sock pass_all_fail && recv_failed (sock_recvfrom pass_all_fail))
               "read from network" (calls t) /\
      reported (sel_sock pass_all_fail && (sock_write pass_all_fail <? 0))
               "write to virtual" (calls t)).
Proof.
  split; [vm_compute; discriminate|].
  apply (relay_io_failure_reported_not_fatal pass_all_fail [pass_frame]
           v1_client_P v2_relay_P).
  vm_compute; discriminate.
Defined.

(* ================================================================= *)
(** ** The size of the transfers *)

Lemma fill_length (cap : Z) (data dst : list byte) :
  (Z.to_nat cap <= List.length dst)%nat ->
  List.length (fill cap data dst) = List.length dst.
Proof.
  intros H. unfold fill.
  rewrite length_app, length_skipn, length_firstn. lia.
Qed.

Lemma fill_keeps_bufsize (data dst : list byte) :
  Z.of_nat (List.length dst) = BUFSIZE ->
  Z.of_nat (List.length (fill BUFSIZE data dst)) = BUFSIZE.
Proof. intros H. rewrite fill_length; [exact H|lia]. Qed.

Lemma firstn_bufsize (buf : list byte) :
  Z.of_nat (List.length buf) = BUFSIZE ->
  firstn (Z.to_nat BUFSIZE) buf = buf.
Proof. intros H. apply firstn_all2. lia. Qed.

Lemma v1_tap_state_buffer (it : iteration) (s : V1.machine) :
  Z.of_nat (List.length (V1.buffer s)) = BUFSIZE ->
  Z.of_nat (List.length (V1.buffer (v1_tap_state it s))) = BUFSIZE.
Proof.
  intros H. unfold v1_tap_state, after_read.
  destruct (tap_read it); cbn [rd wr V1.buffer_ V1.buffer]; auto using fill_keeps_bufsize.
Qed.

Lemma v1_sock_state_buffer (it : iteration) (s : V1.machine) :
  Z.of_nat (List.length (V1.buffer s)) = BUFSIZE ->
  Z.of_nat (List.length (V1.buffer (v1_sock_state it s))) = BUFSIZE.
Proof.
  intros H. unfold v1_sock_state, after_recv.
  destruct (V1.cliserv s =? CLIENT), (sock_recvfrom it);
    cbn [rd wr V1.buffer_ V1.server_addr_ V1.serverlen_ V1.client_addr_
         V1.clientlen_ V1.buffer];
    auto using fill_keeps_bufsize.
Qed.

Lemma v2_tap_state_buffer (it : iteration) (s : V2.machine) :
  Z.of_nat (List.length (V2.buffer s)) = BUFSIZE ->
  Z.of_nat (List.length (V2.buffer (v2_tap_state it s))) = BUFSIZE.
Proof.
  intros H. unfold v2_tap_state, after_read.
  destruct (tap_read it); cbn [rd wr V2.buffer_ V2.tap_count_ V2.buffer];
    auto using fill_keeps_bufsize.
Qed.

Lemma v2_tracked_buffer (it : iteration) (s : V2.machine) :
  Z.of_nat (List.length (V2.buffer s)) = BUFSIZE ->
  Z.of_nat (List.length (V2.buffer (v2_tracked it s))) = BUFSIZE.
Proof.
  intros H. unfold v2_tracked, after_recv.
  destruct (sock_recvfrom it);
    cbn [rd wr V2.buffer_ V2.read_addr_ V2.readlen_ V2.remote_addr_ V2.buffer];
    auto using fill_keeps_bufsize.
Qed.

Lemma v2_sock_state_buffer (it : iteration) (s : V2.machine) :
  Z.of_nat (List.length (V2.buffer s)) = BUFSIZE ->
  Z.of_nat (List.length (V2.buffer (v2_sock_state it s))) = BUFSIZE.
Proof. intros H. apply (v2_tracked_buffer it) in H. exact H. Qed.

Lemma v1_pass_state_buffer (it : iteration) (s : V1.machine) :
  Z.of_nat (List.length (V1.buffer s)) = BUFSIZE ->
  Z.of_nat (List.length (V1.buffer (v1_pass_state it s))) = BUFSIZE.
Proof.
  intros H. unfold v1_pass_state, v1_pass_mid.
  destruct (sel_tap it), (sel_sock it);
    auto using v1_tap_state_buffer, v1_sock_state_buffer.
Qed.

Lemma v2_pass_state_buffer (it : iteration) (s : V2.machine) :
  Z.of_nat (List.length (V2.buffer s)) = BUFSIZE ->
  Z.of_nat (List.length (V2.buffer (v2_pass_state it s))) = BUFSIZE.
Proof.
  intros H. unfold v2_pass_state, v2_pass_mid.
  destruct (sel_tap it), (sel_sock it);
    auto using v2_tap_state_buffer, v2_sock_state_buffer.
Qed.

Lemma whole_buffer_call {S} (buf : S -> list byte) (s : S) :
  Z.of_nat (List.length (buf s)) = BUFSIZE ->
  firstn (Z.to_nat BUFSIZE) (buf s) = buf s /\
  Z.of_nat (List.length (firstn (Z.to_nat BUFSIZE) (buf s))) = BUFSIZE.
Proof. intros H. rewrite firstn_bufsize by exact H. auto. Qed.

Ltac whole_log :=
  repeat match goal with
         | |- context [if ?c then _ else _] => destruct c
         end;
  cbn [app];
  repeat (apply Forall_cons || apply Forall_nil);
  unfold whole_buffer; cbn [fst snd]; try exact I;
  apply whole_buffer_call; assumption.

Lemma v1_tap_log_whole (it : iteration) (s : V1.machine) :
  Z.of_nat (List.length (V1.buffer s)) = BUFSIZE ->
  Forall (whole_buffer V1.buffer) (v1_tap_log it s).
Proof.
  intros H. apply (v1_tap_state_buffer it) in H. unfold v1_tap_log. whole_log.
Qed.

Lemma v1_sock_log_whole (it : iteration) (s : V1.machine) :
  Z.of_nat (List.length (V1.buffer s)) = BUFSIZE ->
  Forall (whole_buffer V1.buffer) (v1_sock_log it s).
Proof.
  intros H. apply (v1_sock_state_buffer it) in H. unfold v1_sock_log. whole_log.
Qed.

Lemma v2_tap_log_whole (it : iteration) (s : V2.machine) :
  Z.of_nat (List.length (V2.buffer s)) = BUFSIZE ->
  Forall (whole_buffer V2.buffer) (v2_tap_log it s).
Proof.
  intros H. apply (v2_tap_state_buffer it) in H. unfold v2_tap_log.
  change (V2.buffer (v2_tap_state it s))
    with (V2.buffer (after_read V2.buffer_ (tap_read it) s)) in H.
  whole_log.
Qed.

Lemma v2_sock_log_whole (it : iteration) (s : V2.machine) :
  Z.of_nat (List.length (V2.buffer s)) = BUFSIZE ->
  Forall (whole_buffer V2.buffer) (v2_sock_log it s).
Proof.
  intros H. apply (v2_tracked_buffer it) in H. unfold v2_sock_log. whole_log.
Qed.

Lemma v1_pass_log_whole (it : iteration) (s : V1.machine) :
  Z.of_nat (List.length (V1.buffer s)) = BUFSIZE ->
  Forall (whole_buffer V1.buffer) (v1_pass_log it s).
Proof.
  intros H. unfold v1_pass_log. apply Forall_cons; [exact I|].
  apply Forall_app. split.
  - destruct (sel_tap it); [apply v1_tap_log_whole; exact H|constructor].
  - destruct (sel_sock it); [|constructor].
    apply v1_sock_log_whole. unfold v1_pass_mid.
    destruct (sel_tap it); auto using v1_tap_state_buffer.
Qed.

Lemma v2_pass_log_whole (it : iteration) (s : V2.machine) :
  Z.of_nat (List.length (V2.buffer s)) = BUFSIZE ->
  Forall (whole_buffer V2.buffer) (v2_pass_log it s).
Proof.
  intros H. unfold v2_pass_log. apply Forall_cons; [exact I|].
  apply Forall_app. split.
  - destruct (sel_tap it); [apply v2_tap_log_whole; exact H|constructor].
  - destruct (sel_sock it); [|constructor].
    apply v2_sock_log_whole. unfold v2_pass_mid.
    destruct (sel_tap it); auto using v2_tap_state_buffer.
Qed.

Lemma v1_loop_whole (its : list iteration) :
  forall s : V1.machine,
    Z.of_nat (List.length (V1.buffer s)) = BUFSIZE ->
    Forall (whole_buffer V1.buffer) (fst (run (V1.relay_loop its) s)).
Proof.
  induction its as [|it its IH]; intros s H.
  - repeat constructor.
  - destruct (Z.lt_ge_cases (sel_ret it) 0) as [Hret|Hret].
    + destruct (Z.eq_dec (sel_errno it) EINTR) as [Herr|Herr].
      * rewrite (v1_loop_step it its _ _ _ (v1_pass_interrupted it s Hret Herr)).
        cbn [fst app]. apply Forall_cons; [exact I|]. apply IH, H.
      * rewrite (v1_loop_exit it its _ _ _ _ (v1_pass_fatal it s Hret Herr)).
        repeat constructor.
    + rewrite (v1_loop_step it its _ _ _ (v1_pass_run it s Hret)).
      cbn [fst]. apply Forall_app. split.
      * apply v1_pass_log_whole, H.
      * apply IH, v1_pass_state_buffer, H.
Qed.

Lemma v2_loop_whole (its : list iteration) :
  forall s : V2.machine,
    Z.of_nat (List.length (V2.buffer s)) = BUFSIZE ->
    Forall (whole_buffer V2.buffer) (fst (run (V2.relay_loop its) s)).
Proof.
  induction its as [|it its IH]; intros s H.
  - repeat constructor.
  - destruct (Z.lt_ge_cases (sel_ret it) 0) as [Hret|Hret].
    + destruct (Z.eq_dec (sel_errno it) EINTR) as [Herr|Herr].
      * rewrite (v2_loop_step it its _ _ _ (v2_pass_interrupted it s Hret Herr)).
        cbn [fst app]. apply Forall_cons; [exact I|]. apply IH, H.
      * rewrite (v2_loop_exit it its _ _ _ _ (v2_pass_fatal it s Hret Herr)).
        repeat constructor.
    + rewrite (v2_loop_step it its _ _ _ (v2_pass_run it s Hret)).
      cbn [fst]. apply Forall_app. split.
      * apply v2_pass_log_whole, H.
      * apply IH, v2_pass_state_buffer, H.
Qed.

(** C2: in both variants, every datagram the relay loop sends and every
    block it writes to the interface is the whole buffer, [BUFSIZE] = 4096
    bytes, whatever [read] and [recvfrom] returned before; and a pass in
    which [select] succeeds sends one such datagram when the interface is
    reported and writes one such block when the socket is reported. *)
Theorem relay_transfers_whole_buffer :
  forall (it : iteration) (its : list iteration) (s1 : V1.machine) (s2 : V2.machine),
    Z.of_nat (List.length (V1.buffer s1)) = BUFSIZE ->
    Z.of_nat (List.length (V2.buffer s2)) = BUFSIZE ->
    BUFSIZE = 4096 /\
    Forall (whole_buffer V1.buffer) (fst (run (V1.relay_loop its) s1)) /\
    Forall (whole_buffer V2.buffer) (fst (run (V2.relay_loop its) s2)) /\
    sends (calls (fst (run (V1.relay_iteration it) s1)))
      = Nat.b2n ((0 <=? sel_ret it) && sel_tap it) /\
    writes (calls (fst (run (V1.relay_iteration it) s1)))
      = Nat.b2n ((0 <=? sel_ret it) && sel_sock it) /\
    sends (calls (fst (run (V2.relay_iteration it) s2)))
      = Nat.b2n ((0 <=? sel_ret it) && sel_tap it) /\
    writes (calls (fst (run (V2.relay_iteration it) s2)))
      = Nat.b2n ((0 <=? sel_ret it) && sel_sock it).
Proof.
  intros it its s1 s2 H1 H2.
  split; [reflexivity|].
  split; [apply v1_loop_whole, H1|].
  split; [apply v2_loop_whole, H2|].
  destruct (Z.leb_spec 0 (sel_ret it)) as [Hret|Hret]; cbn [andb].
  - rewrite (v1_pass_run it s1 Hret), (v2_pass_run it s2 Hret). cbn [fst].
    destruct (v1_pass_log_counts it s1) as (_ & _ & A3 & A4).
    destruct (v2_pass_log_counts it s2) as (_ & _ & B3 & B4).
    auto.
  - destruct (Z.eq_dec (sel_errno it) EINTR) as [Herr|Herr].
    + rewrite (v1_pass_interrupted it s1 Hret Herr),
              (v2_pass_interrupted it s2 Hret Herr).
      repeat split; reflexivity.
    + rewrite (v1_pass_fatal it s1 Hret Herr), (v2_pass_fatal it s2 Hret Herr).
      repeat split; reflexivity.
Qed.

Lemma relay_transfers_whole_buffer_witness :
  Z.of_nat (List.length (V1.buffer v1_client_P)) = BUFSIZE /\
  Z.of_nat (List.length (V2.buffer v2_relay_P)) = BUFSIZE /\
  BUFSIZE = 4096 /\
  Forall (whole_buffer V1.buffer)
         (fst (run (V1.relay_loop [pass_frame; pass_datagram_from_Q]) v1_client_P)) /\
  Forall (whole_buffer V2.buffer)
         (fst (run (V2.relay_loop [pass_frame; pass_datagram_from_Q]) v2_relay_P)) /\
  sends (calls (fst (run (V1.relay_iteration pass_frame) v1_client_P)))
    = Nat.b2n ((0 <=? sel_ret pass_frame) && sel_tap pass_frame) /\
  writes (calls (fst (run (V1.relay_iteration pass_frame) v1_client_P)))
    = Nat.b2n ((0 <=? sel_ret pass_frame) && sel_sock pass_frame) /\
  sends (calls (fst (run (V2.relay_iteration pass_frame) v2_relay_P)))
    = Nat.b2n ((0 <=? sel_ret pass_frame) && sel_tap pass_frame) /\
  writes (calls (fst (run (V2.relay_iteration pass_frame) v2_relay_P)))
    = Nat.b2n ((0 <=? sel_ret pass_frame) && sel_sock pass_frame).
Proof.
  split; [vm_compute; reflexivity|].
  split; [vm_compute; reflexivity|].
  apply (relay_transfers_whole_buffer pass_frame [pass_frame; pass_datagram_from_Q]
           v1_client_P v2_relay_P); vm_compute; reflexivity.
Defined.

(** A frame of two bytes read from the interface leaves v2 as a datagram of
    4096 bytes. *)
Example short_frame_sent_as_whole_buffer :
  map (fun e => match e with EvSendto d _ _ => List.length d | _ => 0%nat end)
      (filter is_sendto (calls (fst (run (V2.relay_iteration pass_frame) v2_relay_P))))
  = [4096%nat].
Proof. vm_compute. reflexivity. Qed.

(* ================================================================= *)
(** ** The destination of relayed frames *)

Lemma sendto_dsts_app {S} (a b : list (event * S)) :
  sendto_dsts (calls (a ++ b)) = sendto_dsts (calls a) ++ sendto_dsts (calls b).
Proof. unfold sendto_dsts, calls. rewrite map_app, flat_map_app. reflexivity. Qed.

Ltac dsts_log :=
  repeat match goal with
         | |- context [if ?c then _ else _] => destruct c
         end;
  reflexivity.

Lemma v1_tap_log_dsts (it : iteration) (s : V1.machine) :
  sendto_dsts (calls (v1_tap_log it s)) = [v1_peer s].
Proof. unfold v1_tap_log, sendto_dsts. dsts_log. Qed.

Lemma v1_sock_log_dsts (it : iteration) (s : V1.machine) :
  sendto_dsts (calls (v1_sock_log it s)) = [].
Proof. unfold v1_sock_log, sendto_dsts. dsts_log. Qed.

Lemma v2_tap_log_dsts (it : iteration) (s : V2.machine) :
  sendto_dsts (calls (v2_tap_log it s)) = [V2.remote_addr s].
Proof. unfold v2_tap_log, sendto_dsts. dsts_log. Qed.

Lemma v2_sock_log_dsts (it : iteration) (s : V2.machine) :
  sendto_dsts (calls (v2_sock_log it s)) = [].
Proof. unfold v2_sock_log, sendto_dsts. dsts_log. Qed.

Lemma v1_pass_log_dsts (it : iteration) (s : V1.machine) :
  sendto_dsts (calls (v1_pass_log it s)) = if sel_tap it then [v1_peer s] else [].
Proof.
  unfold v1_pass_log.
  change ((EvSelect, s) :: ?a ++ ?b) with ([(EvSelect, s)] ++ a ++ b).
  rewrite !sendto_dsts_app.
  destruct (sel_tap it), (sel_sock it);
    rewrite ?v1_tap_log_dsts, ?v1_sock_log_dsts; reflexivity.
Qed.

Lemma v2_pass_log_dsts (it : iteration) (s : V2.machine) :
  sendto_dsts (calls (v2_pass_log it s)) = if sel_tap it then [V2.remote_addr s] else [].
Proof.
  unfold v2_pass_log.
  change ((EvSelect, s) :: ?a ++ ?b) with ([(EvSelect, s)] ++ a ++ b).
  rewrite !sendto_dsts_app.
  destruct (sel_tap it), (sel_sock it);
    rewrite ?v2_tap_log_dsts, ?v2_sock_log_dsts; reflexivity.
Qed.

(** The tap branch leaves the destination alone. *)
Lemma v1_tap_state_peer (it : iteration) (s : V1.machine) :
  v1_peer (v1_tap_state it s) = v1_peer s.
Proof. unfold v1_tap_state, after_read. destruct (tap_read it); reflexivity. Qed.

Lemma v2_tap_state_peer (it : iteration) (s : V2.machine) :
  V2.remote_addr (v2_tap_state it s) = V2.remote_addr s.
Proof. unfold v2_tap_state, after_read. destruct (tap_read it); reflexivity. Qed.

(** The socket branch of v1 hands the destination variable itself to
    [recvfrom]: a datagram overwrites it with its source, in either role. *)
Lemma v1_sock_state_peer (it : iteration) (s : V1.machine) payload src srclen :
  sock_recvfrom it = RecvOk payload src srclen ->
  v1_peer (v1_sock_state it s) = src.
Proof.
  intros H. unfold v1_sock_state, v1_peer. rewrite H.
  destruct (V1.cliserv s =? CLIENT) eqn:E; cbn; rewrite E; reflexivity.
Qed.

(** The socket branch of v2 copies the source of a datagram into
    [remote_addr] before it writes the frame. *)
Lemma v2_tracked_peer (it : iteration) (s : V2.machine) payload src srclen :
  sock_recvfrom it = RecvOk payload src srclen ->
  V2.remote_addr (v2_tracked it s) = src.
Proof. intros H. unfold v2_tracked. rewrite H. reflexivity. Qed.

Lemma v2_sock_state_peer (it : iteration) (s : V2.machine) payload src srclen :
  sock_recvfrom it = RecvOk payload src srclen ->
  V2.remote_addr (v2_sock_state it s) = src.
Proof. intros H. exact (v2_tracked_peer it s payload src srclen H). Qed.

Lemma v2_sock_log_peer_at_writes (it : iteration) (s : V2.machine) payload src srclen :
  sock_recvfrom it = RecvOk payload src srclen ->
  v2_peer_at_writes src (v2_sock_log it s).
Proof.
  intros H. pose proof (v2_tracked_peer it s payload src srclen H) as Hp.
  unfold v2_peer_at_writes, v2_sock_log.
  repeat match goal with
         | |- context [if ?c then _ else _] => destruct c
         end;
    cbn [app]; repeat (apply Forall_cons || apply Forall_nil);
    cbn [fst snd]; try exact I; exact Hp.
Qed.

Lemma v2_tap_log_peer_at_writes (Q : sockaddr_in) (it : iteration) (s : V2.machine) :
  v2_peer_at_writes Q (v2_tap_log it s).
Proof.
  unfold v2_peer_at_writes, v2_tap_log.
  repeat match goal with
         | |- context [if ?c then _ else _] => destruct c
         end;
    cbn [app]; repeat (apply Forall_cons || apply Forall_nil);
    cbn [fst snd]; exact I.
Qed.

(** Passes that receive no datagram keep the destination. *)
Lemma v1_quiet_pass (it : iteration) (s : V1.machine) :
  quiet it = true ->
  exists t s',
    run (V1.relay_iteration it) s = (t, Ok tt s') /\
    v1_peer s' = v1_peer s /\
    Forall (eq (v1_peer s)) (sendto_dsts (calls t)).
Proof.
  unfold quiet. intros H. apply orb_true_iff in H.
  destruct H as [H|H]; apply andb_true_iff in H; destruct H as [Ha Hb].
  - apply Z.ltb_lt in Ha. apply Z.eqb_eq in Hb.
    exists [(EvSelect, s)], s. split; [apply v1_pass_interrupted; assumption|].
    split; [reflexivity|constructor].
  - apply Z.leb_le in Ha. apply negb_true_iff in Hb.
    exists (v1_pass_log it s), (v1_pass_state it s).
    split; [apply v1_pass_run; assumption|].
    rewrite v1_pass_log_dsts. unfold v1_pass_state, v1_pass_mid. rewrite Hb.
    destruct (sel_tap it); split; auto using v1_tap_state_peer.
Qed.

Lemma v2_quiet_pass (it : iteration) (s : V2.machine) :
  quiet it = true ->
  exists t s',
    run (V2.relay_iteration it) s = (t, Ok tt s') /\
    V2.remote_addr s' = V2.remote_addr s /\
    Forall (eq (V2.remote_addr s)) (sendto_dsts (calls t)).
Proof.
  unfold quiet. intros H. apply orb_true_iff in H.
  destruct H as [H|H]; apply andb_true_iff in H; destruct H as [Ha Hb].
  - apply Z.ltb_lt in Ha. apply Z.eqb_eq in Hb.
    exists [(EvSelect, s)], s. split; [apply v2_pass_interrupted; assumption|].
    split; [reflexivity|constructor].
  - apply Z.leb_le in Ha. apply negb_true_iff in Hb.
    exists (v2_pass_log it s), (v2_pass_state it s).
    split; [apply v2_pass_run; assumption|].
    rewrite v2_pass_log_dsts. unfold v2_pass_state, v2_pass_mid. rewrite Hb.
    destruct (sel_tap it); split; auto using v2_tap_state_peer.
Qed.

Lemma v1_quiet_passes (idle : list iteration) :
  forall s : V1.machine,
    forallb quiet idle = true ->
    exists t s',
      run (V1.relay_iterations idle) s = (t, Ok tt s') /\
      v1_peer s' = v1_peer s /\
      Forall (eq (v1_peer s)) (sendto_dsts (calls t)).
Proof.
  induction idle as [|it idle IH]; intros s H.
  - exists [], s. repeat split. constructor.
  - cbn [forallb] in H. apply andb_true_iff in H. destruct H as [Hq Hrest].
    destruct (v1_quiet_pass it s Hq) as (t & s' & Hrun & Hpeer & Hd).
    destruct (IH s' Hrest) as (t' & s'' & Hrun' & Hpeer' & Hd').
    exists (t ++ t'), s''. cbn [V1.relay_iterations].
    rewrite (run_bind_ok _ _ _ _ _ _ Hrun), Hrun'. cbn [fst snd].
    split; [reflexivity|]. split; [congruence|].
    rewrite sendto_dsts_app. apply Forall_app. split; [exact Hd|].
    rewrite <- Hpeer. exact Hd'.
Qed.

Lemma v2_quiet_passes (idle : list iteration) :
  forall s : V2.machine,
    forallb quiet idle = true ->
    exists t s',
      run (V2.relay_iterations idle) s = (t, Ok tt s') /\
      V2.remote_addr s' = V2.remote_addr s /\
      Forall (eq (V2.remote_addr s)) (sendto_dsts (calls t)).
Proof.
  induction idle as [|it idle IH]; intros s H.
  - exists [], s. repeat split. constructor.
  - cbn [forallb] in H. apply andb_true_iff in H. destruct H as [Hq Hrest].
    destruct (v2_quiet_pass it s Hq) as (t & s' & Hrun & Hpeer & Hd).
    destruct (IH s' Hrest) as (t' & s'' & Hrun' & Hpeer' & Hd').
    exists (t ++ t'), s''. cbn [V2.relay_iterations].
    rewrite (run_bind_ok _ _ _ _ _ _ Hrun), Hrun'. cbn [fst snd].
    split; [reflexivity|]. split; [congruence|].
    rewrite sendto_dsts_app. apply Forall_app. split; [exact Hd|].
    rewrite <- Hpeer. exact Hd'.
Qed.

Lemma head_of_constant_list {A} (q : A) (l : list A) :
  Forall (eq q) l -> exists rest, l ++ [q] = q :: rest.
Proof.
  intros H. destruct H as [|x l Hx Hl].
  - exists []. reflexivity.
  - subst x. exists (l ++ [q]). reflexivity.
Qed.

(** C1: in v2, from any variables with tracked peer [P], a pass that
    receives a datagram from [Q] (other than [P]) returns with the tracked
    peer [Q]; the peer is already [Q] at the pass's one write to the
    interface; and after any passes that receive no datagram, the pass that
    next reads a frame from the interface sends it to [Q], as is every
    datagram sent in between, none of them to [P]. *)
Theorem v2_last_sender_wins :
  forall (s : V2.machine) (it : iteration) (idle : list iteration) (next : iteration)
         (P Q : sockaddr_in) (payload : list byte) (qlen : Z),
    V2.remote_addr s = P ->
    Q <> P ->
    0 <= sel_ret it ->
    sel_sock it = true ->
    sock_recvfrom it = RecvOk payload Q qlen ->
    forallb quiet idle = true ->
    0 <= sel_ret next ->
    sel_tap next = true ->
    exists t1 s1 t2 s2 t3 r3,
      run (V2.relay_iteration it) s = (t1, Ok tt s1) /\
      writes (calls t1) = 1%nat /\
      v2_peer_at_writes Q t1 /\
      V2.remote_addr s1 = Q /\
      run (V2.relay_iterations idle) s1 = (t2, Ok tt s2) /\
      run (V2.relay_iteration next) s2 = (t3, r3) /\
      (exists rest, sendto_dsts (calls (t2 ++ t3)) = Q :: rest) /\
      Forall (fun d => d = Q /\ d <> P) (sendto_dsts (calls (t2 ++ t3))).
Proof.
  intros s it idle next P Q payload qlen HP HQ Hret Hsock Hrecv Hidle Hret' Htap.
  assert (Hs1 : V2.remote_addr (v2_pass_state it s) = Q).
  { unfold v2_pass_state. rewrite Hsock.
    exact (v2_sock_state_peer it _ payload Q qlen Hrecv). }
  destruct (v2_quiet_passes idle (v2_pass_state it s) Hidle)
    as (t2 & s2 & Hrun2 & Hpeer2 & Hd2).
  rewrite Hs1 in Hpeer2, Hd2.
  exists (v2_pass_log it s), (v2_pass_state it s), t2, s2,
         (v2_pass_log next s2), (Ok tt (v2_pass_state next s2)).
  split; [apply v2_pass_run, Hret|].
  split.
  { destruct (v2_pass_log_counts it s) as (_ & _ & _ & W). rewrite W, Hsock.
    reflexivity. }
  split.
  { unfold v2_peer_at_writes, v2_pass_log. apply Forall_cons; [exact I|].
    apply Forall_app. split.
    - destruct (sel_tap it); [apply v2_tap_log_peer_at_writes|constructor].
    - rewrite Hsock. exact (v2_sock_log_peer_at_writes it _ payload Q qlen Hrecv). }
  split; [exact Hs1|].
  split; [exact Hrun2|].
  split; [apply v2_pass_run, Hret'|].
  rewrite sendto_dsts_app, v2_pass_log_dsts, Htap, Hpeer2.
  split; [apply head_of_constant_list, Hd2|].
  apply Forall_app. split.
  - eapply Forall_impl; [|exact Hd2]. intros d <-. split; [reflexivity|exact HQ].
  - constructor; [split; [reflexivity|exact HQ]|constructor].
Qed.

Lemma v2_last_sender_wins_witness :
  V2.remote_addr v2_relay_P = addr_P /\
  addr_Q <> addr_P /\
  0 <= sel_ret pass_datagram_from_Q /\
  sel_sock pass_datagram_from_Q = true /\
  sock_recvfrom pass_datagram_from_Q = RecvOk [x45; x00; x00] addr_Q 16 /\
  forallb quiet [pass_interrupted] = true /\
  0 <= sel_ret pass_frame /\
  sel_tap pass_frame = true /\
  exists t1 s1 t2 s2 t3 r3,
    run (V2.relay_iteration pass_datagram_from_Q) v2_relay_P = (t1, Ok tt s1) /\
    writes (calls t1) = 1%nat /\
    v2_peer_at_writes addr_Q t1 /\
    V2.remote_addr s1 = addr_Q /\
    run (V2.relay_iterations [pass_interrupted]) s1 = (t2, Ok tt s2) /\
    run (V2.relay_iteration pass_frame) s2 = (t3, r3) /\
    (exists rest, sendto_dsts (calls (t2 ++ t3)) = addr_Q :: rest) /\
    Forall (fun d => d = addr_Q /\ d <> addr_P) (sendto_dsts (calls (t2 ++ t3))).
Proof.
  assert (Hne : addr_Q <> addr_P) by (intros H; discriminate H).
  repeat (split; [first [reflexivity | exact Hne | vm_compute; discriminate]|]).
  apply (v2_last_sender_wins v2_relay_P pass_datagram_from_Q [pass_interrupted]
           pass_frame addr_P addr_Q [x45; x00; x00] 16);
    first [reflexivity | exact Hne | vm_compute; discriminate].
Defined.

(** C9, as the claim states it, fails: a v1 client that completed the
    handshake with [addr_P1] and then receives a datagram from [addr_Q]
    sends the next frame to [addr_Q].  The two datagrams of the run are the
    magic word, sent to [addr_P1], and the relayed frame. *)
Lemma v1_relay_destination_changes :
  sendto_dsts (calls (fst (run (V1.main world_v1_roaming) v1_stack)))
    = [addr_P1; addr_Q] /\
  addr_Q <> addr_P1 /\
  relaying (snd (run (V1.main world_v1_roaming) v1_stack)) = true.
Proof.
  split; [vm_compute; reflexivity|].
  split; [intros H; discriminate H|].
  vm_compute; reflexivity.
Qed.

(** C9, amended: in v1 the relay loop passes the destination variable
    itself to [recvfrom] ([server_addr] in the client, [client_addr] in the
    server).  Passes that receive no datagram leave the destination at the
    handshake's address [P] and send every frame there; a pass that receives
    a datagram from [Q] leaves the destination at [Q], and the frames read
    after it, up to the next datagram, are sent to [Q], not to [P]. *)
Theorem v1_destination_follows_datagrams :
  forall (s : V1.machine) (it : iteration) (idle : list iteration) (next : iteration)
         (P Q : sockaddr_in) (payload : list byte) (qlen : Z),
    v1_peer s = P ->
    Q <> P ->
    0 <= sel_ret it ->
    sel_sock it = true ->
    sock_recvfrom it = RecvOk payload Q qlen ->
    forallb quiet idle = true ->
    0 <= sel_ret next ->
    sel_tap next = true ->
    (exists t0 s0,
        run (V1.relay_iterations idle) s = (t0, Ok tt s0) /\
        v1_peer s0 = P /\
        Forall (eq P) (sendto_dsts (calls t0))) /\
    (exists t1 s1 t2 s2 t3 r3,
        run (V1.relay_iteration it) s = (t1, Ok tt s1) /\
        v1_peer s1 = Q /\
        run (V1.relay_iterations idle) s1 = (t2, Ok tt s2) /\
        run (V1.relay_iteration next) s2 = (t3, r3) /\
        (exists rest, sendto_dsts (calls (t2 ++ t3)) = Q :: rest) /\
        Forall (fun d => d = Q /\ d <> P) (sendto_dsts (calls (t2 ++ t3)))).
Proof.
  intros s it idle next P Q payload qlen HP HQ Hret Hsock Hrecv Hidle Hret' Htap.
  split.
  { destruct (v1_quiet_passes idle s Hidle) as (t0 & s0 & Hrun0 & Hpeer0 & Hd0).
    rewrite HP in Hpeer0, Hd0. exists t0, s0. auto. }
  assert (Hs1 : v1_peer (v1_pass_state it s) = Q).
  { unfold v1_pass_state. rewrite Hsock.
    exact (v1_sock_state_peer it _ payload Q qlen Hrecv). }
  destruct (v1_quiet_passes idle (v1_pass_state it s) Hidle)
    as (t2 & s2 & Hrun2 & Hpeer2 & Hd2).
  rewrite Hs1 in Hpeer2, Hd2.
  exists (v1_pass_log it s), (v1_pass_state it s), t2, s2,
         (v1_pass_log next s2), (Ok tt (v1_pass_state next s2)).
  split; [apply v1_pass_run, Hret|].
  split; [exact Hs1|].
  split; [exact Hrun2|].
  split; [apply v1_pass_run, Hret'|].
  rewrite sendto_dsts_app, v1_pass_log_dsts, Htap, Hpeer2.
  split; [apply head_of_constant_list, Hd2|].
  apply Forall_app. split.
  - eapply Forall_impl; [|exact Hd2]. intros d <-. split; [reflexivity|exact HQ].
  - constructor; [split; [reflexivity|exact HQ]|constructor].
Qed.

Lemma v1_destination_follows_datagrams_witness :
  v1_peer v1_client_P = addr_P /\
  addr_Q <> addr_P /\
  0 <= sel_ret pass_datagram_from_Q /\
  sel_sock pass_datagram_from_Q = true /\
  sock_recvfrom pass_datagram_from_Q = RecvOk [x45; x00; x00] addr_Q 16 /\
  forallb quiet [pass_interrupted; pass_frame] = true /\
  0 <= sel_ret pass_frame /\
  sel_tap pass_frame = true /\
  (exists t0 s0,
      run (V1.relay_iterations [pass_interrupted; pass_frame]) v1_client_P
        = (t0, Ok tt s0) /\
      v1_peer s0 = addr_P /\
      Forall (eq addr_P) (sendto_dsts (calls t0))) /\
  (exists t1 s1 t2 s2 t3 r3,
      run (V1.relay_iteration pass_datagram_from_Q) v1_client_P = (t1, Ok tt s1) /\
      v1_peer s1 = addr_Q /\
      run (V1.relay_iterations [pass_interrupted; pass_frame]) s1 = (t2, Ok tt s2) /\
      run (V1.relay_iteration pass_frame) s2 = (t3, r3) /\
      (exists rest, sendto_dsts (calls (t2 ++ t3)) = addr_Q :: rest) /\
      Forall (fun d => d = addr_Q /\ d <> addr_P) (sendto_dsts (calls (t2 ++ t3)))).
Proof.
  assert (Hne : addr_Q <> addr_P) by (intros H; discriminate H).
  repeat (split; [first [reflexivity | exact Hne | vm_compute; discriminate]|]).
  apply (v1_destination_follows_datagrams v1_client_P pass_datagram_from_Q
           [pass_interrupted; pass_frame] pass_frame addr_P addr_Q
           [x45; x00; x00] 16);
    first [reflexivity | exact Hne | vm_compute; discriminate].
Defined.

(* ================================================================= *)
(** ** Through the handshakes *)

Lemma pair_fst_snd {A B} (p : A * B) : (fst p, snd p) = p.
Proof. destruct p. reflexivity. Qed.

(** Case analysis through a handshake: every test is decided in turn. *)
Ltac mred_hs :=
  cbv beta iota zeta delta
    [V1.client_handshake V1.server_handshake V2.client_handshake V2.server_handshake
     V2.wait_for_magic].

Ltac mcase_hs :=
  repeat (mred_hs; mred;
          match goal with
          | |- context [match ?c with RecvErr => _ | RecvOk _ _ _ => _ end] =>
              destruct c eqn:?
          | |- context [match ?c with Some _ => _ | None => _ end] =>
              destruct c eqn:?
          | |- context [match ?c with [] => _ | _ :: _ => _ end] =>
              destruct c eqn:?
          | |- context [if ?c then _ else _] => destruct c eqn:?
          end).

(* ================================================================= *)
(** ** The port of v1 *)

Lemma v1_handle_p (w : world) (arg : string) (s : V1.machine) :
  run (V1.handle_option w (mk_getopt "p" arg)) s = ([], Ok tt s).
Proof. reflexivity. Qed.

Lemma v1_parse_drop_p (w : world) (gs : list getopt_result) :
  forall s : V1.machine,
    run (V1.parse_options w gs) s = run (V1.parse_options w (drop_p gs)) s.
Proof.
  induction gs as [|[c arg] gs IH]; intros s; [reflexivity|].
  cbn [drop_p filter opt]. destruct (Ascii.eqb_spec c "p") as [->|Hc]; cbn [negb].
  - cbn [V1.parse_options].
    rewrite (run_bind_ok _ _ _ _ _ _ (v1_handle_p w arg s)).
    cbn [app]. rewrite pair_fst_snd. apply IH.
  - cbn [V1.parse_options]. apply run_bind_ext_r. intros _ s'. apply IH.
Qed.

Lemma v1_parse_options_world (w : world) (gs' gs : list getopt_result) :
  V1.parse_options (with_getopt gs' w) gs = V1.parse_options w gs.
Proof.
  induction gs as [|g gs IH]; [reflexivity|].
  cbn [V1.parse_options]. rewrite IH. reflexivity.
Qed.

Lemma v1_main_drop_p (w : world) (s : V1.machine) :
  run (V1.main w) s = run (V1.main (with_getopt (drop_p (w_getopt w)) w)) s.
Proof.
  unfold V1.main.
  do 6 (apply run_bind_ext_r; intros _ ?).
  cbn [w_getopt with_getopt]. rewrite v1_parse_options_world.
  apply run_bind_ext. apply v1_parse_drop_p.
Qed.

Lemma v1_client_binds_and_sends_to_port (w : world) (s : V1.machine) :
  exists s1 s2 ip t r,
    run (V1.client_handshake w) s =
    ((EvBind v1_local_addr, s1)
       :: (if w_bind w <? 0 then [(EvPerror "bind", s1)] else [])
       ++ (EvSendto MAGIC_WORD
                    {| sin_family := AF_INET; sin_port := htons V1.PORT; sin_addr := ip |}
                    sizeof_sockaddr_in, s2) :: t, r).
Proof.
  destruct s. mcase_hs.
  all: cbv [with_sin_addr set_sin_port set_sin_family sin_family sin_port sin_addr].
  all: do 5 eexists; reflexivity.
Qed.

Lemma v1_server_binds_to_port (w : world) (s : V1.machine) :
  if w_setsockopt w <? 0 then
    run (V1.server_handshake w) s =
    ([(EvSetsockopt, s); (EvPerror "setsockopt()", s)], Exited 1 s)
  else
    exists s1 t r,
      run (V1.server_handshake w) s =
      ((EvSetsockopt, s) :: (EvBind v1_local_addr, s1) :: t, r).
Proof.
  destruct s. mcase_hs; [reflexivity|..].
  all: try match goal with
           | |- context [V1.wait_for_magic ?rs ?st] =>
               destruct (V1.wait_for_magic rs st) as [t0 [[] s0|st0 s0|wp s0]]
           end.
  all: mcase_hs.
  all: cbv [with_sin_addr set_sin_port set_sin_family sin_family sin_port sin_addr].
  all: do 3 eexists; reflexivity.
Qed.

(** C10: in v1 the case ['p'] of the option switch does nothing, so [main]
    runs exactly as it does without the [-p] options; the client binds the
    socket to port 55566 and sends the magic word to port 55566, and the
    server binds the socket to port 55566, whatever the command line. *)
Theorem v1_port_option_has_no_effect :
  forall (w : world) (arg : string) (s : V1.machine),
    run (V1.handle_option w (mk_getopt "p" arg)) s = ([], Ok tt s) /\
    run (V1.main w) s = run (V1.main (with_getopt (drop_p (w_getopt w)) w)) s /\
    ntohs (htons V1.PORT) = 55566 /\
    (exists s1 s2 ip t r,
        run (V1.client_handshake w) s =
        ((EvBind v1_local_addr, s1)
           :: (if w_bind w <? 0 then [(EvPerror "bind", s1)] else [])
           ++ (EvSendto MAGIC_WORD
                        {| sin_family := AF_INET; sin_port := htons V1.PORT;
                           sin_addr := ip |}
                        sizeof_sockaddr_in, s2) :: t, r)) /\
    (if w_setsockopt w <? 0 then
       run (V1.server_handshake w) s =
       ([(EvSetsockopt, s); (EvPerror "setsockopt()", s)], Exited 1 s)
     else
       exists s1 t r,
         run (V1.server_handshake w) s =
         ((EvSetsockopt, s) :: (EvBind v1_local_addr, s1) :: t, r)).
Proof.
  intros w arg s.
  split; [apply v1_handle_p|].
  split; [apply v1_main_drop_p|].
  split; [reflexivity|].
  split; [apply v1_client_binds_and_sends_to_port|apply v1_server_binds_to_port].
Qed.

(** With [-p 1234] on the command line, v1 binds to 55566 and sends the
    magic word to 55566; v2 binds to 1234 and sends it to 1234. *)
Example v1_with_port_1234 :
  map (fun a => ntohs (sin_port a))
      (bind_addrs (calls (fst (run (V1.main
          (world_of (opts_client ++ [mk_getopt "p" "1234"]) 0 [] [])) v1_stack))))
    = [55566] /\
  map (fun a => ntohs (sin_port a))
      (sendto_dsts (calls (fst (run (V1.main
          (world_of (opts_client ++ [mk_getopt "p" "1234"]) 0 [] [])) v1_stack))))
    = [55566] /\
  map (fun a => ntohs (sin_port a))
      (bind_addrs (calls (fst (run (V2.main
          (world_of (opts_client ++ [mk_getopt "p" "1234"]) 0 [] [])) v2_stack))))
    = [1234] /\
  map (fun a => ntohs (sin_port a))
      (sendto_dsts (calls (fst (run (V2.main
          (world_of (opts_client ++ [mk_getopt "p" "1234"]) 0 [] [])) v2_stack))))
    = [1234].
Proof. vm_compute. repeat split; reflexivity. Qed.

(* ================================================================= *)
(** ** The comparison with the magic word *)

Lemma byte_val_inj (a b : byte) : byte_val a = byte_val b -> a = b.
Proof.
  unfold byte_val. intros H. apply N2Z.inj in H.
  pose proof (Byte.of_to_N a) as Ha. rewrite H, Byte.of_to_N in Ha.
  congruence.
Qed.

Lemma byte_val_eqb (a b : byte) : (byte_val a =? byte_val b) = Byte.eqb a b.
Proof.
  destruct (Byte.eqb a b) eqn:E.
  - apply Byte.byte_dec_bl in E. subst. apply Z.eqb_refl.
  - apply Z.eqb_neq. intros H. apply byte_val_inj in H.
    apply Byte.eqb_false in E. contradiction.
Qed.

(** A byte that differs within the token, whose bytes before the last are
    not NUL, makes [strncmp] over the token's length return non-zero. *)
Lemma strncmp_differs (tok : list byte) :
  forall (data : list byte) (n : nat),
    Forall (fun b => byte_val b <> 0) (removelast tok) ->
    (List.length tok <= n)%nat ->
    differs tok data = true ->
    strncmp tok data n <> 0.
Proof.
  induction tok as [|t tok IH]; intros data n Hnz Hlen Hd.
  - discriminate Hd.
  - destruct data as [|p data]; [discriminate Hd|].
    destruct n as [|n]; [cbn in Hlen; lia|].
    cbn [strncmp hd tl]. rewrite byte_val_eqb.
    cbn [differs] in Hd. destruct (Byte.eqb t p) eqn:E; cbn [negb orb] in *.
    + destruct tok as [|t' tok']; [discriminate Hd|].
      cbn [removelast] in Hnz. inversion Hnz as [|? ? Ht Hrest]; subst.
      apply Z.eqb_neq in Ht. rewrite Ht.
      apply IH; [exact Hrest|cbn in *; lia|exact Hd].
    + apply Byte.eqb_false in E.
      intros H. apply E, byte_val_inj. lia.
Qed.

Lemma differs_firstn_app (tok : list byte) :
  forall (payload rest : list byte) (c : nat),
    (List.length tok <= c)%nat ->
    differs tok payload = true ->
    differs tok (firstn c payload ++ rest) = true.
Proof.
  induction tok as [|t tok IH]; intros payload rest c Hlen Hd.
  - discriminate Hd.
  - destruct payload as [|p payload]; [discriminate Hd|].
    destruct c as [|c]; [cbn in Hlen; lia|].
    cbn [firstn app differs] in *.
    destruct (negb (Byte.eqb t p)); [reflexivity|].
    cbn [orb] in *. apply IH; [cbn in Hlen; lia|exact Hd].
Qed.

Lemma magic_word_chars_not_nul :
  Forall (fun b => byte_val b <> 0) (removelast MAGIC_WORD).
Proof. cbv [MAGIC_WORD]. cbn. repeat constructor; discriminate. Qed.

Lemma magic_mismatch (payload old : list byte) :
  differs MAGIC_WORD payload = true ->
  (strncmp MAGIC_WORD (fill BUFSIZE payload old) (Z.to_nat sizeof_MAGIC_WORD) =? 0)
  = false.
Proof.
  intros H. apply Z.eqb_neq. apply strncmp_differs.
  - exact magic_word_chars_not_nul.
  - apply Nat.leb_le. vm_compute. reflexivity.
  - unfold fill. apply differs_firstn_app; [|exact H].
    apply Nat.leb_le. vm_compute. reflexivity.
Qed.

Lemma recv_count_not_negative (cap : Z) (payload : list byte) :
  (Z.of_nat (List.length (firstn (Z.to_nat cap) payload)) <? 0) = false.
Proof. apply Z.ltb_ge. lia. Qed.

(** v1's server loop on a datagram that differs from the magic word. *)
Lemma v1_wait_mismatch payload src srclen (rs : list recv_result) (s : V1.machine) :
  differs MAGIC_WORD payload = true ->
  run (V1.wait_for_magic (RecvOk payload src srclen :: rs)) s =
  ((EvRecvfrom BUFSIZE, s)
     :: (EvPrintf "Bad magic word from %s:%i\n"
                  [PIp (sin_addr src); PInt (ntohs (sin_port src))],
         after_recv V1.buffer_ V1.client_addr_ V1.clientlen_
                    (RecvOk payload src srclen) s)
     :: fst (run (V1.wait_for_magic rs)
                 (after_recv V1.buffer_ V1.client_addr_ V1.clientlen_
                             (RecvOk payload src srclen) s)),
   snd (run (V1.wait_for_magic rs)
            (after_recv V1.buffer_ V1.client_addr_ V1.clientlen_
                        (RecvOk payload src srclen) s))).
Proof.
  intros Hd. pose proof (magic_mismatch payload (V1.buffer s) Hd) as Hne.
  destruct s. cbn [V1.buffer] in Hne. cbn [V1.wait_for_magic]. mred.
  rewrite recv_count_not_negative. mred. rewrite Hne. mred.
  match goal with
  | |- context [V1.wait_for_magic ?rs ?st] => destruct (V1.wait_for_magic rs st)
  end.
  reflexivity.
Qed.

(** v2's server on such a datagram. *)
Lemma v2_wait_mismatch payload src srclen (rs : list recv_result) (s : V2.machine) :
  differs MAGIC_WORD payload = true ->
  run (V2.wait_for_magic (RecvOk payload src srclen :: rs)) s =
  ([(EvRecvfrom BUFSIZE, s);
    (EvPerror "Bad magic word for peer\n",
     after_recv V2.buffer_ V2.client_addr_ V2.clientlen_
                (RecvOk payload src srclen) s)],
   Exited 1 (after_recv V2.buffer_ V2.client_addr_ V2.clientlen_
                        (RecvOk payload src srclen) s)).
Proof.
  intros Hd. pose proof (magic_mismatch payload (V2.buffer s) Hd) as Hne.
  destruct s. cbn [V2.buffer] in Hne. mred_hs. mred.
  rewrite recv_count_not_negative. mred. unfold c_ne. rewrite Hne.
  reflexivity.
Qed.

(* ================================================================= *)
(** ** The passive endpoint and a datagram that is not the magic word *)

(** C3, as the claim states it, fails twice.  In v2 the server receives
    one datagram whose payload is not the magic word and exits with status
    1; the magic word that arrives next is never received.  In v1 what is
    compared is the buffer, not the datagram: after a wrong token of full
    length, the single byte ["W"] leaves the magic word in the buffer, and
    the server completes the handshake with the sender of that byte as its
    peer. *)
Lemma passive_wrong_datagram_not_always_discarded :
  (bad_token <> MAGIC_WORD /\
   exit_status (snd (run (V2.main world_v2_bad_token) v2_stack)) = Some 1 /\
   receives (calls (fst (run (V2.main world_v2_bad_token) v2_stack))) = 1%nat) /\
  ([x57] <> MAGIC_WORD /\
   relaying (snd (run (V1.main world_v1_stale_buffer) v1_stack)) = true /\
   v1_peer (final (snd (run (V1.main world_v1_stale_buffer) v1_stack))) = addr_Q /\
   sendto_dsts (calls (fst (run (V1.main world_v1_stale_buffer) v1_stack)))
     = [addr_Q; addr_Q]).
Proof.
  split.
  - split; [intros H; discriminate H|].
    split; vm_compute; reflexivity.
  - split; [intros H; discriminate H|].
    vm_compute. repeat split; reflexivity.
Qed.

(** C3, amended: for a datagram whose payload differs from the magic word
    in a byte both have, the v1 server prints ["Bad magic word from"],
    sends nothing, does not exit and goes on with the next [recvfrom], in
    which it is blocked when nothing else arrives; the v2 server reports
    ["Bad magic word for peer"] and exits with status 1, its tracked peer
    untouched. *)
Theorem passive_mismatch_v1_waits_v2_exits :
  forall (payload : list byte) (src : sockaddr_in) (srclen : Z)
         (rs : list recv_result) (s1 : V1.machine) (s2 : V2.machine),
    differs MAGIC_WORD payload = true ->
    run (V1.wait_for_magic (RecvOk payload src srclen :: rs)) s1 =
      ((EvRecvfrom BUFSIZE, s1)
         :: (EvPrintf "Bad magic word from %s:%i\n"
                      [PIp (sin_addr src); PInt (ntohs (sin_port src))],
             after_recv V1.buffer_ V1.client_addr_ V1.clientlen_
                        (RecvOk payload src srclen) s1)
         :: fst (run (V1.wait_for_magic rs)
                     (after_recv V1.buffer_ V1.client_addr_ V1.clientlen_
                                 (RecvOk payload src srclen) s1)),
       snd (run (V1.wait_for_magic rs)
                (after_recv V1.buffer_ V1.client_addr_ V1.clientlen_
                            (RecvOk payload src srclen) s1))) /\
    waiting (snd (run (V1.wait_for_magic [RecvOk payload src srclen]) s1)) = true /\
    sends (calls (fst (run (V1.wait_for_magic [RecvOk payload src srclen]) s1))) = 0%nat /\
    run (V2.wait_for_magic (RecvOk payload src srclen :: rs)) s2 =
      ([(EvRecvfrom BUFSIZE, s2);
        (EvPerror "Bad magic word for peer\n",
         after_recv V2.buffer_ V2.client_addr_ V2.clientlen_
                    (RecvOk payload src srclen) s2)],
       Exited 1 (after_recv V2.buffer_ V2.client_addr_ V2.clientlen_
                            (RecvOk payload src srclen) s2)) /\
    V2.remote_addr (after_recv V2.buffer_ V2.client_addr_ V2.clientlen_
                               (RecvOk payload src srclen) s2)
      = V2.remote_addr s2.
Proof.
  intros payload src srclen rs s1 s2 Hd.
  split; [apply v1_wait_mismatch, Hd|].
  split; [rewrite (v1_wait_mismatch payload src srclen [] s1 Hd); reflexivity|].
  split; [rewrite (v1_wait_mismatch payload src srclen [] s1 Hd); reflexivity|].
  split; [apply v2_wait_mismatch, Hd|].
  reflexivity.
Qed.

Lemma passive_mismatch_v1_waits_v2_exits_witness :
  differs MAGIC_WORD bad_token = true /\
  run (V1.wait_for_magic (RecvOk bad_token addr_Q 16 :: [RecvOk MAGIC_WORD addr_P 16]))
      v1_stack =
    ((EvRecvfrom BUFSIZE, v1_stack)
       :: (EvPrintf "Bad magic word from %s:%i\n"
                    [PIp (sin_addr addr_Q); PInt (ntohs (sin_port addr_Q))],
           after_recv V1.buffer_ V1.client_addr_ V1.clientlen_
                      (RecvOk bad_token addr_Q 16) v1_stack)
       :: fst (run (V1.wait_for_magic [RecvOk MAGIC_WORD addr_P 16])
                   (after_recv V1.buffer_ V1.client_addr_ V1.clientlen_
                               (RecvOk bad_token addr_Q 16) v1_stack)),
     snd (run (V1.wait_for_magic [RecvOk MAGIC_WORD addr_P 16])
              (after_recv V1.buffer_ V1.client_addr_ V1.clientlen_
                          (RecvOk bad_token addr_Q 16) v1_stack))) /\
  waiting (snd (run (V1.wait_for_magic [RecvOk bad_token addr_Q 16]) v1_stack)) = true /\
  sends (calls (fst (run (V1.wait_for_magic [RecvOk bad_token addr_Q 16]) v1_stack)))
    = 0%nat /\
  run (V2.wait_for_magic (RecvOk bad_token addr_Q 16 :: [RecvOk MAGIC_WORD addr_P 16]))
      v2_stack =
    ([(EvRecvfrom BUFSIZE, v2_stack);
      (EvPerror "Bad magic word for peer\n",
       after_recv V2.buffer_ V2.client_addr_ V2.clientlen_
                  (RecvOk bad_token addr_Q 16) v2_stack)],
     Exited 1 (after_recv V2.buffer_ V2.client_addr_ V2.clientlen_
                          (RecvOk bad_token addr_Q 16) v2_stack)) /\
  V2.remote_addr (after_recv V2.buffer_ V2.client_addr_ V2.clientlen_
                             (RecvOk bad_token addr_Q 16) v2_stack)
    = V2.remote_addr v2_stack.
Proof.
  split; [vm_compute; reflexivity|].
  apply (passive_mismatch_v1_waits_v2_exits bad_token addr_Q 16
           [RecvOk MAGIC_WORD addr_P 16] v1_stack v2_stack).
  vm_compute; reflexivity.
Defined.

(** A v2 server that receives the magic word from [addr_Q] echoes it to
    [addr_Q] and relays the next frame to [addr_Q]. *)
Example v2_server_accepts_the_magic_word :
  relaying (snd (run (V2.main (world_of opts_server 0 [RecvOk MAGIC_WORD addr_Q 16]
                                        [pass_frame])) v2_stack)) = true /\
  map (fun a => ntohs (sin_port a))
      (bind_addrs (calls (fst (run (V2.main (world_of opts_server 0
                                    [RecvOk MAGIC_WORD addr_Q 16] [pass_frame]))
                                   v2_stack)))) = [5588] /\
  sendto_dsts (calls (fst (run (V2.main (world_of opts_server 0
                                  [RecvOk MAGIC_WORD addr_Q 16] [pass_frame]))
                               v2_stack))) = [addr_Q; addr_Q].
Proof. vm_compute. repeat split; reflexivity. Qed.

(** The v1 server that first receives a wrong token keeps waiting,
    accepts the magic word that arrives second and relays to its sender. *)
Example v1_server_waits_for_the_magic_word :
  relaying (snd (run (V1.main world_v1_bad_token) v1_stack)) = true /\
  receives (calls (fst (run (V1.main world_v1_bad_token) v1_stack))) = 2%nat /\
  sendto_dsts (calls (fst (run (V1.main world_v1_bad_token) v1_stack)))
    = [addr_P1; addr_P1].
Proof. vm_compute. repeat split; reflexivity. Qed.

(* ================================================================= *)
(** ** The active endpoint and the reply *)

(** The client's comparison looks at one byte: the third argument of its
    [strncmp] is the value of [sizeof(MAGIC_WORD) != 0], which is 1. *)
Lemma client_compares_first_byte (buf : list byte) :
  c_true (strncmp MAGIC_WORD buf (Z.to_nat (c_ne sizeof_MAGIC_WORD 0)))
  = negb (Byte.eqb "W" (hd x00 buf)).
Proof.
  change (Z.to_nat (c_ne sizeof_MAGIC_WORD 0)) with 1%nat.
  cbn [strncmp].
  change (hd x00 MAGIC_WORD) with "W"%byte.
  rewrite byte_val_eqb.
  destruct (Byte.eqb "W" (hd x00 buf)) eqn:E; cbn [negb].
  - reflexivity.
  - unfold c_true. apply Byte.eqb_false in E.
    destruct (Z.eqb_spec (byte_val "W" - byte_val (hd x00 buf)) 0) as [H|H];
      [|reflexivity].
    exfalso. apply E, byte_val_inj. lia.
Qed.

(** C4 at its failing input: the v2 client that sent the magic word to
    [addr_P] and receives ["Wrong"] from [addr_Q] does not exit; it enters
    the relay loop and sends the next frame to [addr_Q].  The v1 client
    enters the relay loop even when the first byte of the answer is wrong,
    after reporting ["Bad magic word for peer"]. *)
Theorem client_accepts_reply_that_is_not_the_magic_word :
  wrong_reply <> MAGIC_WORD /\
  exit_status (snd (run (V2.main world_wrong_reply) v2_stack)) = None /\
  relaying (snd (run (V2.main world_wrong_reply) v2_stack)) = true /\
  V2.remote_addr (final (snd (run (V2.main world_wrong_reply) v2_stack))) = addr_Q /\
  sendto_dsts (calls (fst (run (V2.main world_wrong_reply) v2_stack)))
    = [addr_P; addr_Q] /\
  relaying (snd (run (V1.main world_v1_bad_reply) v1_stack)) = true /\
  existsb (fun e => match e with
                    | EvPerror msg => String.eqb msg "Bad magic word for peer\n"
                    | _ => false
                    end)
          (calls (fst (run (V1.main world_v1_bad_reply) v1_stack))) = true.
Proof.
  split; [intros H; discriminate H|].
  vm_compute. repeat split; reflexivity.
Qed.

(* ================================================================= *)
(** ** A failing bind *)

(** C5 at its failing input: the v1 client whose [bind] fails reports
    ["bind"] and goes on: it sends the magic word, completes the handshake
    and relays a frame. *)
Theorem v1_client_bind_failure_not_fatal :
  w_bind world_client_bind_fails = -1 /\
  exit_status (snd (run (V1.main world_client_bind_fails) v1_stack)) = None /\
  relaying (snd (run (V1.main world_client_bind_fails) v1_stack)) = true /\
  existsb (fun e => match e with
                    | EvPerror msg => String.eqb msg "bind"
                    | _ => false
                    end)
          (calls (fst (run (V1.main world_client_bind_fails) v1_stack))) = true /\
  sends (calls (fst (run (V1.main world_client_bind_fails) v1_stack))) = 2%nat.
Proof. vm_compute. repeat split; reflexivity. Qed.

(** The three sibling paths exit with status 1 before any datagram is
    sent: the v1 server and both roles of v2. *)
Lemma v1_server_bind_failure_exits (w : world) (s : V1.machine) :
  0 <= w_setsockopt w -> w_bind w < 0 ->
  exists t s',
    run (V1.server_handshake w) s = (t, Exited 1 s') /\
    sends (calls t) = 0%nat /\ receives (calls t) = 0%nat.
Proof.
  intros H1 H2. apply Z.ltb_ge in H1. apply Z.ltb_lt in H2.
  destruct s. mred_hs. mred. rewrite H1. mred. rewrite H2. mred.
  do 2 eexists. repeat split; reflexivity.
Qed.

Lemma v2_client_bind_failure_exits (w : world) (s : V2.machine) :
  w_bind w < 0 ->
  exists t s',
    run (V2.client_handshake w) s = (t, Exited 1 s') /\
    sends (calls t) = 0%nat /\ receives (calls t) = 0%nat.
Proof.
  intros H2. apply Z.ltb_lt in H2.
  destruct s. mred_hs. mred.
  destruct (w_inet_aton w server_ip); mred; rewrite H2; mred;
    do 2 eexists; repeat split; reflexivity.
Qed.

Lemma v2_server_bind_failure_exits (w : world) (s : V2.machine) :
  0 <= w_setsockopt w -> w_bind w < 0 ->
  exists t s',
    run (V2.server_handshake w) s = (t, Exited 1 s') /\
    sends (calls t) = 0%nat /\ receives (calls t) = 0%nat.
Proof.
  intros H1 H2. apply Z.ltb_ge in H1. apply Z.ltb_lt in H2.
  destruct s. mred_hs. mred. rewrite H1. mred. rewrite H2. mred.
  do 2 eexists. repeat split; reflexivity.
Qed.

Example bind_failure_in_the_sibling_paths :
  exit_status (snd (run (V1.main world_server_bind_fails) v1_stack)) = Some 1 /\
  exit_status (snd (run (V2.main world_client_bind_fails) v2_stack)) = Some 1 /\
  exit_status (snd (run (V2.main world_server_bind_fails) v2_stack)) = Some 1.
Proof. vm_compute. repeat split; reflexivity. Qed.

(* ================================================================= *)
(** ** The command line *)

Lemma only_messages_app {S} (a b : list (event * S)) :
  only_messages a -> only_messages b -> only_messages (a ++ b).
Proof.
  unfold only_messages, calls. intros Ha Hb.
  rewrite map_app, forallb_app, Ha, Hb. reflexivity.
Qed.

Lemma v1_usage_run (w : world) (s : V1.machine) :
  exists t, run (V1.usage w) s = (t, Exited 1 s) /\ only_messages t.
Proof. eexists. split; reflexivity. Qed.

Lemma v2_usage_run (w : world) (s : V2.machine) :
  exists t, run (V2.usage w) s = (t, Exited 1 s) /\ only_messages t.
Proof. eexists. split; reflexivity. Qed.

Ltac case_option c :=
  repeat match goal with
         | |- context [Ascii.eqb c ?x] => destruct (Ascii.eqb_spec c x) as [->|?]
         end.

Lemma v1_handle_option_run (w : world) (g : getopt_result) (s : V1.machine) :
  if v1_accepted g
  then run (V1.handle_option w g) s = ([], Ok tt (v1_option_effect s g))
  else exists t, run (V1.handle_option w g) s = (t, Exited 1 s) /\ only_messages t.
Proof.
  destruct g as [c arg]. destruct s.
  unfold v1_accepted, V1.handle_option, v1_option_effect. cbn [opt optarg existsb].
  case_option c; cbn; try reflexivity; eexists; split; reflexivity.
Qed.

Lemma v2_handle_option_run (w : world) (g : getopt_result) (s : V2.machine) :
  if v2_accepted g
  then run (V2.handle_option w g) s = ([], Ok tt (v2_option_effect w s g))
  else exists t, run (V2.handle_option w g) s = (t, Exited 1 s) /\ only_messages t.
Proof.
  destruct g as [c arg]. destruct s.
  unfold v2_accepted, V2.handle_option, v2_option_effect. cbn [opt optarg existsb].
  case_option c; cbn; try reflexivity; eexists; split; reflexivity.
Qed.

(** The option loop: every option accepted, or exit at the first that is
    not. *)
Lemma v1_parse_run (w : world) (gs : list getopt_result) :
  forall s : V1.machine,
    if forallb v1_accepted gs
    then run (V1.parse_options w gs) s = ([], Ok tt (fold_left v1_option_effect gs s))
    else exists t s', run (V1.parse_options w gs) s = (t, Exited 1 s') /\
                      only_messages t.
Proof.
  induction gs as [|g gs IH]; intros s; [reflexivity|].
  cbn [forallb V1.parse_options fold_left].
  pose proof (v1_handle_option_run w g s) as Hg.
  destruct (v1_accepted g); cbn [andb].
  - rewrite (run_bind_ok _ _ _ _ _ _ Hg). cbn [app]. rewrite pair_fst_snd.
    apply IH.
  - destruct Hg as (t & Hg & Ht). exists t, s.
    rewrite (run_bind_exited _ _ _ _ _ _ Hg). auto.
Qed.

Lemma v2_parse_run (w : world) (gs : list getopt_result) :
  forall s : V2.machine,
    if forallb v2_accepted gs
    then run (V2.parse_options w gs) s
         = ([], Ok tt (fold_left (v2_option_effect w) gs s))
    else exists t s', run (V2.parse_options w gs) s = (t, Exited 1 s') /\
                      only_messages t.
Proof.
  induction gs as [|g gs IH]; intros s; [reflexivity|].
  cbn [forallb V2.parse_options fold_left].
  pose proof (v2_handle_option_run w g s) as Hg.
  destruct (v2_accepted g); cbn [andb].
  - rewrite (run_bind_ok _ _ _ _ _ _ Hg). cbn [app]. rewrite pair_fst_snd.
    apply IH.
  - destruct Hg as (t & Hg & Ht). exists t, s.
    rewrite (run_bind_exited _ _ _ _ _ _ Hg). auto.
Qed.

Lemma v1_check_options_run (w : world) (s : V1.machine) :
  if v1_valid w s
  then run (V1.check_options w) s = ([], Ok tt s)
  else exists t, run (V1.check_options w) s = (t, Exited 1 s) /\ only_messages t.
Proof.
  destruct s. unfold v1_valid, V1.check_options, V1.usage. mred.
  destruct (0 <? w_extra w), (is_empty if_name), (cliserv <? 0), (cliserv =? CLIENT),
    (is_empty server_ip); cbn [negb andb]; mred; try reflexivity;
    eexists; split; reflexivity.
Qed.

Lemma v2_check_options_run (w : world) (s : V2.machine) :
  if v2_valid w s
  then run (V2.check_options w) s = ([], Ok tt s)
  else exists t, run (V2.check_options w) s = (t, Exited 1 s) /\ only_messages t.
Proof.
  destruct s. unfold v2_valid, V2.check_options, V2.usage. mred.
  destruct (0 <? w_extra w), (is_empty if_name), (cliserv <? 0), (cliserv =? CLIENT),
    (is_empty server_ip); cbn [negb andb]; mred; try reflexivity;
    eexists; split; reflexivity.
Qed.

Lemma run_modify_bind {S B} (f : S -> S) (k : unit -> M S B) s :
  run (bind (modify f) k) s = run (k tt) (f s).
Proof. unfold run, bind, modify. destruct (k tt (f s)). reflexivity. Qed.

Lemma v1_main_split (w : world) (s : V1.machine) :
  run (V1.main w) s =
  run (V1.parse_options w (w_getopt w) ;; V1.check_options w ;; v1_after_options w)%monad
      (v1_init s).
Proof. unfold V1.main, assign. rewrite !run_modify_bind. reflexivity. Qed.

Lemma v2_main_split (w : world) (s : V2.machine) :
  run (V2.main w) s =
  run (V2.parse_options w (w_getopt w) ;; V2.check_options w ;; v2_after_options w)%monad
      (v2_init s).
Proof. unfold V2.main, assign. rewrite !run_modify_bind. reflexivity. Qed.

(** [main] and the command line: either every option is accepted and the
    checks pass, and [main] goes on from the parsed variables; or [main]
    exits with status 1 after messages only. *)
Lemma v1_main_command_line (w : world) (s : V1.machine) :
  if v1_config_ok w s
  then run (V1.main w) s = run (v1_after_options w) (v1_parsed w s)
  else exists t s', run (V1.main w) s = (t, Exited 1 s') /\ only_messages t.
Proof.
  rewrite v1_main_split. unfold v1_config_ok, v1_parsed.
  pose proof (v1_parse_run w (w_getopt w) (v1_init s)) as Hp.
  destruct (forallb v1_accepted (w_getopt w)); cbn [andb].
  - rewrite (run_bind_ok _ _ _ _ _ _ Hp). cbn [app]. rewrite pair_fst_snd.
    pose proof (v1_check_options_run w (fold_left v1_option_effect (w_getopt w) (v1_init s)))
      as Hc.
    destruct (v1_valid w _).
    + rewrite (run_bind_ok _ _ _ _ _ _ Hc). cbn [app]. apply pair_fst_snd.
    + destruct Hc as (t & Hc & Ht). exists t. eexists.
      rewrite (run_bind_exited _ _ _ _ _ _ Hc). auto.
  - destruct Hp as (t & s' & Hp & Ht). exists t, s'.
    rewrite (run_bind_exited _ _ _ _ _ _ Hp). auto.
Qed.

Lemma v2_main_command_line (w : world) (s : V2.machine) :
  if v2_config_ok w s
  then run (V2.main w) s = run (v2_after_options w) (v2_parsed w s)
  else exists t s', run (V2.main w) s = (t, Exited 1 s') /\ only_messages t.
Proof.
  rewrite v2_main_split. unfold v2_config_ok, v2_parsed.
  pose proof (v2_parse_run w (w_getopt w) (v2_init s)) as Hp.
  destruct (forallb v2_accepted (w_getopt w)); cbn [andb].
  - rewrite (run_bind_ok _ _ _ _ _ _ Hp). cbn [app]. rewrite pair_fst_snd.
    pose proof (v2_check_options_run w
                  (fold_left (v2_option_effect w) (w_getopt w) (v2_init s))) as Hc.
    destruct (v2_valid w _).
    + rewrite (run_bind_ok _ _ _ _ _ _ Hc). cbn [app]. apply pair_fst_snd.
    + destruct Hc as (t & Hc & Ht). exists t. eexists.
      rewrite (run_bind_exited _ _ _ _ _ _ Hc). auto.
  - destruct Hp as (t & s' & Hp & Ht). exists t, s'.
    rewrite (run_bind_exited _ _ _ _ _ _ Hp). auto.
Qed.

(* ================================================================= *)
(** ** Opening the tun/tap device and the socket *)

Lemma tun_alloc_run {S} (w : world) (dev : string) (fl : Z) (s : S) :
  run (tun_alloc w dev fl) s =
  if w_open w <? 0 then
    ([(EvOpen, s); (EvPerror "Opening /dev/net/tun", s)], Ok (w_open w, dev) s)
  else if w_ioctl w <? 0 then
    ([(EvOpen, s);
      (EvIoctl (if is_empty dev then "" else strncpy dev IFNAMSIZ) fl, s);
      (EvPerror "ioctl(TUNSETIFF)", s); (EvClose, s)],
     Ok (w_ioctl w, dev) s)
  else
    ([(EvOpen, s);
      (EvIoctl (if is_empty dev then "" else strncpy dev IFNAMSIZ) fl, s)],
     Ok (w_open w, w_ifr_name w) s).
Proof.
  unfold tun_alloc.
  destruct (w_open w <? 0); [reflexivity|].
  destruct (w_ioctl w <? 0); reflexivity.
Qed.

(** X1: [tun_alloc] always returns to its caller and leaves the caller's
    variables alone.  It returns a negative value exactly when [open] or
    [ioctl] fails, and then the name in [dev] is as it was; otherwise it
    returns the descriptor of [open] and [dev] holds the name the kernel
    chose.  [ioctl] is called only after a successful [open], and the
    descriptor is closed again exactly when [ioctl] fails. *)
Theorem tun_alloc_result :
  forall (S : Type) (w : world) (dev : string) (fl : Z) (s : S),
  exists t r,
    run (tun_alloc w dev fl) s = (t, Ok r s) /\
    (fst r <? 0) = ((w_open w <? 0) || (w_ioctl w <? 0)) /\
    snd r = (if fst r <? 0 then dev else w_ifr_name w) /\
    (if fst r <? 0 then True else fst r = w_open w) /\
    existsb is_open (calls t) = true /\
    List.length (ioctls (calls t)) = Nat.b2n (negb (w_open w <? 0)) /\
    existsb is_close (calls t) = negb (w_open w <? 0) && (w_ioctl w <? 0).
Proof.
  intros S w dev fl s. rewrite tun_alloc_run.
  destruct (w_open w <? 0) eqn:Ho.
  - do 2 eexists. split; [reflexivity|]. cbn [fst snd]. rewrite Ho.
    repeat split; reflexivity.
  - destruct (w_ioctl w <? 0) eqn:Hi.
    + do 2 eexists. split; [reflexivity|]. cbn [fst snd]. rewrite Hi.
      repeat split; reflexivity.
    + do 2 eexists. split; [reflexivity|]. cbn [fst snd]. rewrite Ho.
      repeat split; reflexivity.
Qed.

Lemma v1_open_devices_run (w : world) (s : V1.machine) :
  exists t r,
    run (V1.open_devices w) s = (t, r) /\
    only_setup t /\
    ioctls (calls t)
      = (if w_open w <? 0 then []
         else [(if is_empty (V1.if_name s) then "" else strncpy (V1.if_name s) IFNAMSIZ,
                Z.lor (V1.flags s) IFF_NO_PI)]) /\
    if devices_fail w
    then exit_status r = Some 1
    else r = Ok tt (wr V1.if_name_ (w_ifr_name w) s).
Proof.
  destruct s. unfold V1.open_devices, tun_alloc, devices_fail. mred.
  destruct (w_open w <? 0) eqn:Ho, (w_ioctl w <? 0) eqn:Hi, (w_socket w <? 0) eqn:Hs,
    (c_true debug) eqn:Hd;
    repeat (mred; rewrite ?Ho, ?Hi, ?Hs, ?Hd);
    cbn [orb]; do 2 eexists; (split; [reflexivity|]); repeat split; reflexivity.
Qed.

Lemma v2_open_devices_run (w : world) (s : V2.machine) :
  exists t r,
    run (V2.open_devices w) s = (t, r) /\
    only_setup t /\
    ioctls (calls t)
      = (if w_open w <? 0 then []
         else [(if is_empty (V2.if_name s) then "" else strncpy (V2.if_name s) IFNAMSIZ,
                Z.lor IFF_TUN IFF_NO_PI)]) /\
    if devices_fail w
    then exit_status r = Some 1
    else r = Ok tt (wr V2.if_name_ (w_ifr_name w) s).
Proof.
  destruct s. unfold V2.open_devices, tun_alloc, devices_fail. mred.
  destruct (w_open w <? 0) eqn:Ho, (w_ioctl w <? 0) eqn:Hi, (w_socket w <? 0) eqn:Hs;
    repeat (mred; rewrite ?Ho, ?Hi, ?Hs);
    cbn [orb]; do 2 eexists; (split; [reflexivity|]); repeat split; reflexivity.
Qed.

(* ================================================================= *)
(** ** Calls that a piece of code never makes *)

Lemma never_ret {S A} (p : event -> bool) (a : A) : never p (@ret S A a).
Proof. intros s. reflexivity. Qed.

Lemma never_exit {S A} (p : event -> bool) (st : Z) : never p (@exit S A st).
Proof. intros s. reflexivity. Qed.

Lemma never_blocked {S A} (p : event -> bool) (w : wait_point) :
  never p (@blocked S A w).
Proof. intros s. reflexivity. Qed.

Lemma never_gets {S T} (p : event -> bool) (g : S -> T) : never p (gets g).
Proof. intros s. reflexivity. Qed.

Lemma never_modify {S} (p : event -> bool) (f : S -> S) : never p (modify f).
Proof. intros s. reflexivity. Qed.

Lemma never_emit {S} (p : event -> bool) (e : event) :
  p e = false -> never p (@emit S e).
Proof. intros H s. cbn. rewrite H. reflexivity. Qed.

Lemma never_bind {S A B} (p : event -> bool) (m : M S A) (f : A -> M S B) :
  never p m -> (forall a, never p (f a)) -> never p (bind m f).
Proof.
  intros Hm Hf s. specialize (Hm s). unfold run, bind in *.
  destruct (m s) as [t [a s'|st s'|w s']]; cbn [fst] in *; try exact Hm.
  specialize (Hf a s'). unfold run in Hf. destruct (f a s') as [t' r]. cbn [fst] in *.
  unfold calls in *. rewrite map_app, existsb_app, Hm, Hf. reflexivity.
Qed.

Lemma never_when {S} (p : event -> bool) (c : bool) (m : M S unit) :
  never p m -> never p (when c m).
Proof. destruct c; [auto|intros _; apply never_ret]. Qed.

(** Structural proof that straight-line code never makes a call. *)
Ltac never_step :=
  first
    [ apply never_bind; [|intros ?]
    | apply never_ret | apply never_exit | apply never_blocked
    | apply never_gets | apply never_modify
    | apply never_when
    | apply never_emit; reflexivity
    | match goal with
      | |- never _ (if ?c then _ else _) => destruct c
      | |- never _ (match ?c with RecvErr => _ | RecvOk _ _ _ => _ end) => destruct c
      | |- never _ (match ?c with ReadErr => _ | ReadOk _ => _ end) => destruct c
      | |- never _ (match ?c with Some _ => _ | None => _ end) => destruct c
      | |- never _ (match ?c with [] => _ | _ :: _ => _ end) => destruct c
      end ].

Ltac never_tac :=
  unfold assign, update, perror, printf, fprintf_stderr, sendto, write, read,
    recvfrom, recvfrom_blocking, inet_aton, V1.do_debug, V1.my_err;
  repeat never_step.

Lemma v1_relay_iteration_calls (it : iteration) :
  never (fun e => negb (is_relay_call e)) (V1.relay_iteration it).
Proof. unfold V1.relay_iteration, V1.tap_branch, V1.sock_branch. never_tac. Qed.

Lemma v2_relay_iteration_calls (it : iteration) :
  never (fun e => negb (is_relay_call e)) (V2.relay_iteration it).
Proof. unfold V2.relay_iteration, V2.tap_branch, V2.sock_branch. never_tac. Qed.

Lemma v1_relay_loop_calls (its : list iteration) :
  never (fun e => negb (is_relay_call e)) (V1.relay_loop its).
Proof.
  unfold V1.relay_loop. apply never_bind; [|intros _; never_tac].
  induction its as [|it its IH]; cbn [V1.relay_iterations]; [apply never_ret|].
  apply never_bind; [apply v1_relay_iteration_calls|intros _; exact IH].
Qed.

Lemma v2_relay_loop_calls (its : list iteration) :
  never (fun e => negb (is_relay_call e)) (V2.relay_loop its).
Proof.
  unfold V2.relay_loop. apply never_bind; [|intros _; never_tac].
  induction its as [|it its IH]; cbn [V2.relay_iterations]; [apply never_ret|].
  apply never_bind; [apply v2_relay_iteration_calls|intros _; exact IH].
Qed.

(* ================================================================= *)
(** ** How the relay loop ends *)

Lemma fatal_cases (it : iteration) :
  (fatal it = true /\ sel_ret it < 0 /\ sel_errno it <> EINTR) \/
  (fatal it = false /\ sel_ret it < 0 /\ sel_errno it = EINTR) \/
  (fatal it = false /\ 0 <= sel_ret it).
Proof.
  unfold fatal.
  destruct (Z.ltb_spec (sel_ret it) 0) as [H|H];
    destruct (Z.eqb_spec (sel_errno it) EINTR) as [E|E]; cbn; auto.
Qed.

Lemma v1_pass_not_fatal (it : iteration) (s : V1.machine) :
  fatal it = false -> exists t s', run (V1.relay_iteration it) s = (t, Ok tt s').
Proof.
  intros Hf. destruct (fatal_cases it) as [(F & _)|[(_ & Hr & He)|(_ & Hr)]].
  - congruence.
  - do 2 eexists. apply v1_pass_interrupted; assumption.
  - do 2 eexists. apply v1_pass_run; assumption.
Qed.

Lemma v2_pass_not_fatal (it : iteration) (s : V2.machine) :
  fatal it = false -> exists t s', run (V2.relay_iteration it) s = (t, Ok tt s').
Proof.
  intros Hf. destruct (fatal_cases it) as [(F & _)|[(_ & Hr & He)|(_ & Hr)]].
  - congruence.
  - do 2 eexists. apply v2_pass_interrupted; assumption.
  - do 2 eexists. apply v2_pass_run; assumption.
Qed.

Lemma v1_pass_is_fatal (it : iteration) (s : V1.machine) :
  fatal it = true ->
  run (V1.relay_iteration it) s = ([(EvSelect, s); (EvPerror "select()", s)], Exited 1 s).
Proof.
  intros Hf. destruct (fatal_cases it) as [(_ & Hr & He)|[(F & _)|(F & _)]];
    try congruence.
  apply v1_pass_fatal; assumption.
Qed.

Lemma v2_pass_is_fatal (it : iteration) (s : V2.machine) :
  fatal it = true ->
  run (V2.relay_iteration it) s = ([(EvSelect, s); (EvPerror "select()", s)], Exited 1 s).
Proof.
  intros Hf. destruct (fatal_cases it) as [(_ & Hr & He)|[(F & _)|(F & _)]];
    try congruence.
  apply v2_pass_fatal; assumption.
Qed.

Lemma v1_loop_outcome (its : list iteration) :
  forall s : V1.machine,
    exit_status (snd (run (V1.relay_loop its) s))
      = (if existsb fatal its then Some 1 else None) /\
    relaying (snd (run (V1.relay_loop its) s)) = negb (existsb fatal its) /\
    run (V1.relay_loop its) s = run (V1.relay_loop (until_fatal its)) s.
Proof.
  induction its as [|it its IH]; intros s; [repeat split; reflexivity|].
  cbn [existsb until_fatal]. destruct (fatal it) eqn:Hf; cbn [orb].
  - rewrite (v1_loop_exit it its _ _ _ _ (v1_pass_is_fatal it s Hf)).
    rewrite (v1_loop_exit it [] _ _ _ _ (v1_pass_is_fatal it s Hf)).
    repeat split; reflexivity.
  - destruct (v1_pass_not_fatal it s Hf) as (t & s' & Hrun).
    rewrite (v1_loop_step it its _ _ _ Hrun).
    rewrite (v1_loop_step it (until_fatal its) _ _ _ Hrun). cbn [snd].
    destruct (IH s') as (H1 & H2 & H3).
    split; [exact H1|]. split; [exact H2|]. rewrite H3. reflexivity.
Qed.

Lemma v2_loop_outcome (its : list iteration) :
  forall s : V2.machine,
    exit_status (snd (run (V2.relay_loop its) s))
      = (if existsb fatal its then Some 1 else None) /\
    relaying (snd (run (V2.relay_loop its) s)) = negb (existsb fatal its) /\
    run (V2.relay_loop its) s = run (V2.relay_loop (until_fatal its)) s.
Proof.
  induction its as [|it its IH]; intros s; [repeat split; reflexivity|].
  cbn [existsb until_fatal]. destruct (fatal it) eqn:Hf; cbn [orb].
  - rewrite (v2_loop_exit it its _ _ _ _ (v2_pass_is_fatal it s Hf)).
    rewrite (v2_loop_exit it [] _ _ _ _ (v2_pass_is_fatal it s Hf)).
    repeat split; reflexivity.
  - destruct (v2_pass_not_fatal it s Hf) as (t & s' & Hrun).
    rewrite (v2_loop_step it its _ _ _ Hrun).
    rewrite (v2_loop_step it (until_fatal its) _ _ _ Hrun). cbn [snd].
    destruct (IH s') as (H1 & H2 & H3).
    split; [exact H1|]. split; [exact H2|]. rewrite H3. reflexivity.
Qed.

(** X2: the relay loop of both variants ends in one way only: a [select]
    that fails with an error other than [EINTR] makes the process exit
    with status 1, and the passes after it are not run; with no such pass
    the process is still in the loop, blocked in [select].  Whatever the
    script, the loop calls nothing but [select], [read], [sendto],
    [recvfrom], [write] and the message functions: the socket is not bound
    or configured again and the interface is not reopened. *)
Theorem relay_loop_ends_only_by_fatal_select :
  forall (its : list iteration) (s1 : V1.machine) (s2 : V2.machine),
    (exit_status (snd (run (V1.relay_loop its) s1))
       = (if existsb fatal its then Some 1 else None) /\
     relaying (snd (run (V1.relay_loop its) s1)) = negb (existsb fatal its) /\
     run (V1.relay_loop its) s1 = run (V1.relay_loop (until_fatal its)) s1 /\
     forallb is_relay_call (calls (fst (run (V1.relay_loop its) s1))) = true) /\
    (exit_status (snd (run (V2.relay_loop its) s2))
       = (if existsb fatal its then Some 1 else None) /\
     relaying (snd (run (V2.relay_loop its) s2)) = negb (existsb fatal its) /\
     run (V2.relay_loop its) s2 = run (V2.relay_loop (until_fatal its)) s2 /\
     forallb is_relay_call (calls (fst (run (V2.relay_loop its) s2))) = true).
Proof.
  intros its s1 s2.
  assert (Hnever : forall (l : list event),
             existsb (fun e => negb (is_relay_call e)) l = false ->
             forallb is_relay_call l = true).
  { induction l as [|e l IH]; cbn; [reflexivity|].
    intros H. apply orb_false_iff in H. destruct H as [He Hl].
    apply negb_false_iff in He. rewrite He. auto. }
  split.
  - destruct (v1_loop_outcome its s1) as (H1 & H2 & H3).
    repeat split; auto. apply Hnever, v1_relay_loop_calls.
  - destruct (v2_loop_outcome its s2) as (H1 & H2 & H3).
    repeat split; auto. apply Hnever, v2_relay_loop_calls.
Qed.

(* ================================================================= *)
(** ** Command lines that are turned down *)

Lemma fold_left_inv {A B} (f : A -> B -> A) (I : A -> Prop) (l : list B) :
  (forall a b, I a -> I (f a b)) -> forall a, I a -> I (fold_left f l a).
Proof. intros Hf. induction l as [|b l IH]; cbn; auto. Qed.

Lemma fold_left_rel {A B C} (f : A -> C -> A) (g : B -> C -> B) (R : A -> B -> Prop)
    (l : list C) :
  (forall a b c, R a b -> R (f a c) (g b c)) ->
  forall a b, R a b -> R (fold_left f l a) (fold_left g l b).
Proof. intros H. induction l as [|c l IH]; cbn; auto. Qed.

Lemma fold_left_keeps {A B T} (f : A -> B -> A) (field : A -> T) (keep : B -> bool)
    (l : list B) :
  (forall a b, keep b = true -> field (f a b) = field a) ->
  forallb keep l = true ->
  forall a, field (fold_left f l a) = field a.
Proof.
  intros Hf. induction l as [|b l IH]; cbn; [reflexivity|].
  intros H a. apply andb_true_iff in H. destruct H as [Hb Hl].
  rewrite (IH Hl). apply Hf, Hb.
Qed.

Lemma v1_effect_keeps_if_name (s : V1.machine) (g : getopt_result) :
  negb (Ascii.eqb (opt g) "i") = true ->
  V1.if_name (v1_option_effect s g) = V1.if_name s.
Proof.
  destruct g as [c arg], s. unfold v1_option_effect. cbn [opt optarg].
  case_option c; cbn; congruence.
Qed.

Lemma v2_effect_keeps_if_name (w : world) (s : V2.machine) (g : getopt_result) :
  negb (Ascii.eqb (opt g) "i") = true ->
  V2.if_name (v2_option_effect w s g) = V2.if_name s.
Proof.
  destruct g as [c arg], s. unfold v2_option_effect. cbn [opt optarg].
  case_option c; cbn; congruence.
Qed.

Lemma v1_effect_keeps_cliserv (s : V1.machine) (g : getopt_result) :
  negb (Ascii.eqb (opt g) "s") && negb (Ascii.eqb (opt g) "c") = true ->
  V1.cliserv (v1_option_effect s g) = V1.cliserv s.
Proof.
  destruct g as [c arg], s. unfold v1_option_effect. cbn [opt optarg].
  case_option c; cbn; congruence.
Qed.

Lemma v2_effect_keeps_cliserv (w : world) (s : V2.machine) (g : getopt_result) :
  negb (Ascii.eqb (opt g) "s") && negb (Ascii.eqb (opt g) "c") = true ->
  V2.cliserv (v2_option_effect w s g) = V2.cliserv s.
Proof.
  destruct g as [c arg], s. unfold v2_option_effect. cbn [opt optarg].
  case_option c; cbn; congruence.
Qed.

Lemma forallb_and {A} (p q : A -> bool) (l : list A) :
  forallb p l && forallb q l = forallb (fun x => p x && q x) l.
Proof.
  induction l as [|x l IH]; cbn; [reflexivity|]. rewrite <- IH.
  destruct (p x), (q x), (forallb p l), (forallb q l); reflexivity.
Qed.

Lemma v2_accepted_v1 (g : getopt_result) : v2_accepted g = true -> v1_accepted g = true.
Proof.
  destruct g as [c arg]. unfold v1_accepted, v2_accepted. cbn [opt existsb].
  case_option c; cbn; congruence.
Qed.

Lemma not_all_accepted (gs : list getopt_result) :
  existsb (fun g => negb (v1_accepted g)) gs = true ->
  forallb v1_accepted gs = false /\ forallb v2_accepted gs = false.
Proof.
  induction gs as [|g gs IH]; cbn [existsb forallb]; [discriminate|].
  intros H. apply orb_true_iff in H. destruct H as [H|H].
  - apply negb_true_iff in H. rewrite H. split; [reflexivity|].
    destruct (v2_accepted g) eqn:E; [|reflexivity].
    apply v2_accepted_v1 in E. congruence.
  - destruct (IH H) as [H1 H2]. rewrite H1, H2, !andb_false_r. auto.
Qed.

Lemma v1_rejected_config (w : world) (s : V1.machine) :
  cmdline_rejected w = true -> v1_config_ok w s = false.
Proof.
  unfold cmdline_rejected, v1_config_ok. intros H.
  destruct (forallb v1_accepted (w_getopt w)) eqn:Ha; [cbn [andb]|reflexivity].
  repeat (apply orb_true_iff in H; destruct H as [H|H]).
  - apply not_all_accepted in H. destruct H. congruence.
  - unfold v1_valid, v1_parsed.
    rewrite (fold_left_keeps v1_option_effect V1.if_name _ _
               (fun a b => v1_effect_keeps_if_name a b) H).
    destruct s. cbn. rewrite ?andb_false_r. reflexivity.
  - unfold v1_valid, v1_parsed. unfold no_option in H. rewrite forallb_and in H.
    rewrite (fold_left_keeps v1_option_effect V1.cliserv _ _
               (fun a b => v1_effect_keeps_cliserv a b) H).
    destruct s. cbn. rewrite ?andb_false_r. reflexivity.
  - unfold v1_valid. rewrite H. reflexivity.
Qed.

Lemma v2_rejected_config (w : world) (s : V2.machine) :
  cmdline_rejected w = true -> v2_config_ok w s = false.
Proof.
  unfold cmdline_rejected, v2_config_ok. intros H.
  destruct (forallb v2_accepted (w_getopt w)) eqn:Ha; [cbn [andb]|reflexivity].
  repeat (apply orb_true_iff in H; destruct H as [H|H]).
  - apply not_all_accepted in H. destruct H. congruence.
  - unfold v2_valid, v2_parsed.
    rewrite (fold_left_keeps (v2_option_effect w) V2.if_name _ _
               (fun a b => v2_effect_keeps_if_name w a b) H).
    destruct s. cbn. rewrite ?andb_false_r. reflexivity.
  - unfold v2_valid, v2_parsed. unfold no_option in H. rewrite forallb_and in H.
    rewrite (fold_left_keeps (v2_option_effect w) V2.cliserv _ _
               (fun a b => v2_effect_keeps_cliserv w a b) H).
    destruct s. cbn. rewrite ?andb_false_r. reflexivity.
  - unfold v2_valid. rewrite H. reflexivity.
Qed.

(** X3: a command line with [-h] or an option outside the option string,
    without [-i], with neither [-s] nor [-c], or with arguments left after
    the options makes [main] of both variants exit with status 1 after
    messages only: no device is opened and no socket created. *)
Theorem rejected_command_line_opens_nothing :
  forall (w : world) (s1 : V1.machine) (s2 : V2.machine),
    cmdline_rejected w = true ->
    (exists t s', run (V1.main w) s1 = (t, Exited 1 s') /\ only_messages t) /\
    (exists t s', run (V2.main w) s2 = (t, Exited 1 s') /\ only_messages t).
Proof.
  intros w s1 s2 H. split.
  - pose proof (v1_main_command_line w s1) as Hm.
    rewrite (v1_rejected_config w s1 H) in Hm. exact Hm.
  - pose proof (v2_main_command_line w s2) as Hm.
    rewrite (v2_rejected_config w s2 H) in Hm. exact Hm.
Qed.

Lemma rejected_command_line_opens_nothing_witness :
  cmdline_rejected (world_of [mk_getopt "s" ""] 0 [] []) = true /\
  (exists t s', run (V1.main (world_of [mk_getopt "s" ""] 0 [] [])) v1_stack
                = (t, Exited 1 s') /\ only_messages t) /\
  (exists t s', run (V2.main (world_of [mk_getopt "s" ""] 0 [] [])) v2_stack
                = (t, Exited 1 s') /\ only_messages t).
Proof.
  split; [reflexivity|].
  apply (rejected_command_line_opens_nothing (world_of [mk_getopt "s" ""] 0 [] [])
           v1_stack v2_stack).
  reflexivity.
Defined.

Lemma v1_only_option_cases (g : getopt_result) :
  existsb (Ascii.eqb (opt g)) ["d"; "u"; "a"]%char = true ->
  v1_accepted g = true /\ v2_accepted g = false.
Proof.
  destruct g as [c arg]. unfold v1_accepted, v2_accepted. cbn [opt existsb].
  case_option c; cbn; auto; congruence.
Qed.

Lemma has_v1_only_not_v2 (gs : list getopt_result) :
  existsb (fun g => existsb (Ascii.eqb (opt g)) ["d"; "u"; "a"]%char) gs = true ->
  forallb v2_accepted gs = false.
Proof.
  induction gs as [|g gs IH]; cbn [existsb forallb]; [discriminate|].
  intros H. apply orb_true_iff in H. destruct H as [H|H].
  - apply v1_only_option_cases in H. destruct H as [_ H]. rewrite H. reflexivity.
  - rewrite (IH H). apply andb_false_r.
Qed.

(** X4: v2 turns down the options [-d], [-u] and [-a], although its
    option string lists them: its switch sends each of them to [usage],
    and with one of them on the command line [main] exits with status 1
    after messages only.  The switch of v1 accepts each of them and returns
    to the option loop. *)
Theorem v2_rejects_debug_and_tap_options :
  forall (w : world) (g : getopt_result) (s1 : V1.machine) (s2 : V2.machine),
    has_v1_only_option w = true ->
    existsb (Ascii.eqb (opt g)) ["d"; "u"; "a"]%char = true ->
    (exists t s', run (V2.main w) s2 = (t, Exited 1 s') /\ only_messages t) /\
    (exists t, run (V2.handle_option w g) s2 = (t, Exited 1 s2) /\ only_messages t) /\
    (exists s', run (V1.handle_option w g) s1 = ([], Ok tt s')).
Proof.
  intros w g s1 s2 H Hg.
  pose proof (has_v1_only_not_v2 (w_getopt w) H) as H2.
  destruct (v1_only_option_cases g Hg) as [Ha1 Ha2].
  split; [|split].
  - pose proof (v2_main_command_line w s2) as Hm.
    unfold v2_config_ok in Hm. rewrite H2 in Hm. exact Hm.
  - pose proof (v2_handle_option_run w g s2) as Hh. rewrite Ha2 in Hh. exact Hh.
  - pose proof (v1_handle_option_run w g s1) as Hh. rewrite Ha1 in Hh.
    eexists. exact Hh.
Qed.

Lemma v2_rejects_debug_and_tap_options_witness :
  has_v1_only_option (world_of (opts_server ++ [mk_getopt "a" ""]) 0 [] []) = true /\
  existsb (Ascii.eqb (opt (mk_getopt "a" ""))) ["d"; "u"; "a"]%char = true /\
  (exists t s', run (V2.main (world_of (opts_server ++ [mk_getopt "a" ""]) 0 [] []))
                    v2_stack = (t, Exited 1 s') /\ only_messages t) /\
  (exists t, run (V2.handle_option (world_of (opts_server ++ [mk_getopt "a" ""]) 0 [] [])
                                   (mk_getopt "a" "")) v2_stack
             = (t, Exited 1 v2_stack) /\ only_messages t) /\
  (exists s', run (V1.handle_option (world_of (opts_server ++ [mk_getopt "a" ""]) 0 [] [])
                                    (mk_getopt "a" "")) v1_stack = ([], Ok tt s')).
Proof.
  split; [reflexivity|]. split; [reflexivity|].
  apply (v2_rejects_debug_and_tap_options
           (world_of (opts_server ++ [mk_getopt "a" ""]) 0 [] []) (mk_getopt "a" "")
           v1_stack v2_stack); reflexivity.
Defined.

(* ================================================================= *)
(** ** A device or a socket that cannot be opened *)

Lemma messages_are_setup {S} (t : list (event * S)) : only_messages t -> only_setup t.
Proof.
  unfold only_messages, only_setup. induction (calls t) as [|e l IH]; [reflexivity|].
  cbn [forallb]. intros H. apply andb_true_iff in H. destruct H as [He Hl].
  rewrite (IH Hl), andb_true_r. destruct e; try discriminate He; reflexivity.
Qed.

Lemma v1_after_options_devices_fail (w : world) (s : V1.machine) :
  devices_fail w = true ->
  exists t s', run (v1_after_options w) s = (t, Exited 1 s') /\ only_setup t.
Proof.
  intros H. destruct (v1_open_devices_run w s) as (t & r & Hrun & Ht & _ & Hr).
  rewrite H in Hr. destruct r as [a s'|st s'|wp s']; try discriminate Hr.
  cbn in Hr. injection Hr as ->.
  exists t, s'. split; [|exact Ht].
  unfold v1_after_options. apply run_bind_exited. exact Hrun.
Qed.

Lemma v2_after_options_devices_fail (w : world) (s : V2.machine) :
  devices_fail w = true ->
  exists t s', run (v2_after_options w) s = (t, Exited 1 s') /\ only_setup t.
Proof.
  intros H. destruct (v2_open_devices_run w s) as (t & r & Hrun & Ht & _ & Hr).
  rewrite H in Hr. destruct r as [a s'|st s'|wp s']; try discriminate Hr.
  cbn in Hr. injection Hr as ->.
  exists t, s'. split; [|exact Ht].
  unfold v2_after_options. apply run_bind_exited. exact Hrun.
Qed.

(** X5: when [open] of the tun/tap device, its [ioctl] or [socket] fails,
    [main] of both variants exits with status 1, whatever the command
    line, and up to then it has only printed messages and made calls of
    the set-up: the socket is never bound, nothing is sent or received and
    the relay loop is not entered. *)
Theorem device_or_socket_failure_is_fatal :
  forall (w : world) (s1 : V1.machine) (s2 : V2.machine),
    devices_fail w = true ->
    (exists t s', run (V1.main w) s1 = (t, Exited 1 s') /\ only_setup t) /\
    (exists t s', run (V2.main w) s2 = (t, Exited 1 s') /\ only_setup t).
Proof.
  intros w s1 s2 H. split.
  - pose proof (v1_main_command_line w s1) as Hm.
    destruct (v1_config_ok w s1).
    + rewrite Hm. apply v1_after_options_devices_fail, H.
    + destruct Hm as (t & s' & Hrun & Ht). exists t, s'.
      split; [exact Hrun|apply messages_are_setup, Ht].
  - pose proof (v2_main_command_line w s2) as Hm.
    destruct (v2_config_ok w s2).
    + rewrite Hm. apply v2_after_options_devices_fail, H.
    + destruct Hm as (t & s' & Hrun & Ht). exists t, s'.
      split; [exact Hrun|apply messages_are_setup, Ht].
Qed.

Lemma device_or_socket_failure_is_fatal_witness :
  devices_fail (mk_world "simpletun" opts_server 0 (fun _ => 0) aton_example
                         3 (-1) "tun0" 4 0 0 21 [] []) = true /\
  (exists t s', run (V1.main (mk_world "simpletun" opts_server 0 (fun _ => 0) aton_example
                                       3 (-1) "tun0" 4 0 0 21 [] [])) v1_stack
                = (t, Exited 1 s') /\ only_setup t) /\
  (exists t s', run (V2.main (mk_world "simpletun" opts_server 0 (fun _ => 0) aton_example
                                       3 (-1) "tun0" 4 0 0 21 [] [])) v2_stack
                = (t, Exited 1 s') /\ only_setup t).
Proof.
  split; [reflexivity|].
  apply (device_or_socket_failure_is_fatal
           (mk_world "simpletun" opts_server 0 (fun _ => 0) aton_example
                     3 (-1) "tun0" 4 0 0 21 [] []) v1_stack v2_stack).
  reflexivity.
Defined.

(* ================================================================= *)
(** ** What the option loop leaves in the variables *)

Lemma strncpy_length (src : string) (n : Z) :
  (String.length (strncpy src n) <= Z.to_nat n)%nat.
Proof.
  unfold strncpy. generalize (Z.to_nat n) as k. clear n.
  induction src as [|c src IH]; intros [|k]; cbn; try lia.
  specialize (IH k). lia.
Qed.

Lemma last_opt_snoc (c : ascii) (gs : list getopt_result) (g : getopt_result) :
  last_opt c (gs ++ [g]) = if Ascii.eqb (opt g) c then Some (optarg g) else last_opt c gs.
Proof. unfold last_opt. rewrite fold_left_app. reflexivity. Qed.

Lemma last_mode_snoc (gs : list getopt_result) (g : getopt_result) :
  last_mode (gs ++ [g]) =
  if Ascii.eqb (opt g) "s" then Some SERVER
  else if Ascii.eqb (opt g) "c" then Some CLIENT else last_mode gs.
Proof. unfold last_mode. rewrite fold_left_app. reflexivity. Qed.

Lemma last_flag_snoc (gs : list getopt_result) (g : getopt_result) :
  last_flag (gs ++ [g]) =
  if Ascii.eqb (opt g) "u" then Some IFF_TUN
  else if Ascii.eqb (opt g) "a" then Some IFF_TAP else last_flag gs.
Proof. unfold last_flag. rewrite fold_left_app. reflexivity. Qed.

Lemma no_option_snoc (c : ascii) (gs : list getopt_result) (g : getopt_result) :
  no_option c (gs ++ [g]) = no_option c gs && negb (Ascii.eqb (opt g) c).
Proof. unfold no_option. rewrite forallb_app. cbn. rewrite andb_true_r. reflexivity. Qed.

Lemma v1_parsed_fields (gs : list getopt_result) (s : V1.machine) :
  let s' := fold_left v1_option_effect gs s in
  V1.if_name s' = match last_opt "i" gs with
                  | Some a => strncpy a (IFNAMSIZ - 1)
                  | None => V1.if_name s
                  end /\
  V1.cliserv s' = match last_mode gs with Some m => m | None => V1.cliserv s end /\
  V1.server_ip s' = match last_opt "c" gs with
                    | Some a => strncpy a 15
                    | None => V1.server_ip s
                    end /\
  V1.flags s' = match last_flag gs with Some f => f | None => V1.flags s end /\
  V1.debug s' = (if no_option "d" gs then V1.debug s else 1) /\
  V1.header_len s' = (if no_option "a" gs then V1.header_len s else ETH_HDR_LEN).
Proof.
  induction gs as [|g gs IH] using rev_ind; [cbn; auto 10|].
  cbn zeta in *. rewrite fold_left_app. cbn [fold_left].
  rewrite !last_opt_snoc, last_mode_snoc, last_flag_snoc, !no_option_snoc.
  destruct IH as (H1 & H2 & H3 & H4 & H5 & H6).
  destruct (fold_left v1_option_effect gs s) as [].
  cbn [V1.if_name V1.cliserv V1.server_ip V1.flags V1.debug V1.header_len] in *.
  destruct g as [c arg]. unfold v1_option_effect. cbn [opt optarg].
  case_option c; cbn; rewrite ?andb_true_r, ?andb_false_r; auto 10.
Qed.

Lemma v2_parsed_fields (w : world) (gs : list getopt_result) (s : V2.machine) :
  let s' := fold_left (v2_option_effect w) gs s in
  V2.if_name s' = match last_opt "i" gs with
                  | Some a => strncpy a (IFNAMSIZ - 1)
                  | None => V2.if_name s
                  end /\
  V2.cliserv s' = match last_mode gs with Some m => m | None => V2.cliserv s end /\
  V2.server_ip s' = match last_opt "c" gs with
                    | Some a => strncpy a 15
                    | None => V2.server_ip s
                    end /\
  V2.port s' = match last_opt "p" gs with
               | Some a => (w_atoi w a) mod 65536
               | None => V2.port s
               end.
Proof.
  induction gs as [|g gs IH] using rev_ind; [cbn; auto 10|].
  cbn zeta in *. rewrite fold_left_app. cbn [fold_left].
  rewrite !last_opt_snoc, last_mode_snoc.
  destruct IH as (H1 & H2 & H3 & H4).
  destruct (fold_left (v2_option_effect w) gs s) as [].
  cbn [V2.if_name V2.cliserv V2.server_ip V2.port] in *.
  destruct g as [c arg]. unfold v2_option_effect. cbn [opt optarg].
  case_option c; cbn; auto 10.
Qed.

(** X6: the option loop of v1 handles the options in order, and for each
    variable the last option that sets it wins: the interface name is the
    first 15 characters of the argument of the last [-i], the role is the
    one of the last of [-s] and [-c], the server address the first 15
    characters of the argument of the last [-c], the interface flag the one
    of the last of [-u] and [-a]; [-d] sets [debug] for good, and [-a] sets
    [header_len] to 14 even when a later [-u] selects TUN again.  A
    variable that no option sets keeps its value. *)
Theorem v1_option_loop_last_option_wins :
  forall (w : world) (gs : list getopt_result) (s : V1.machine),
    forallb v1_accepted gs = true ->
    exists s',
      run (V1.parse_options w gs) s = ([], Ok tt s') /\
      V1.if_name s' = match last_opt "i" gs with
                      | Some a => strncpy a (IFNAMSIZ - 1)
                      | None => V1.if_name s
                      end /\
      V1.cliserv s' = match last_mode gs with Some m => m | None => V1.cliserv s end /\
      V1.server_ip s' = match last_opt "c" gs with
                        | Some a => strncpy a 15
                        | None => V1.server_ip s
                        end /\
      V1.flags s' = match last_flag gs with Some f => f | None => V1.flags s end /\
      V1.debug s' = (if no_option "d" gs then V1.debug s else 1) /\
      V1.header_len s' = (if no_option "a" gs then V1.header_len s else ETH_HDR_LEN) /\
      (no_option "i" gs = false -> (String.length (V1.if_name s') <= 15)%nat) /\
      (no_option "c" gs = false -> (String.length (V1.server_ip s') <= 15)%nat).
Proof.
  intros w gs s Hacc.
  pose proof (v1_parse_run w gs s) as Hrun. rewrite Hacc in Hrun.
  exists (fold_left v1_option_effect gs s). split; [exact Hrun|].
  destruct (v1_parsed_fields gs s) as (H1 & H2 & H3 & H4 & H5 & H6).
  repeat (split; [assumption|]).
  assert (Hlast : forall c, no_option c gs = false -> exists a, last_opt c gs = Some a).
  { intros c. clear. induction gs as [|g gs IH] using rev_ind; [discriminate|].
    rewrite no_option_snoc, last_opt_snoc.
    destruct (Ascii.eqb (opt g) c); cbn [negb]; [eauto|].
    rewrite andb_true_r. exact IH. }
  split; intros Hn; destruct (Hlast _ Hn) as [a Ha].
  - rewrite H1, Ha. apply (strncpy_length a 15).
  - rewrite H3, Ha. apply (strncpy_length a 15).
Qed.

Lemma v1_option_loop_last_option_wins_witness :
  forallb v1_accepted [mk_getopt "i" "tun0"; mk_getopt "a" ""; mk_getopt "c" "10.0.0.5";
                       mk_getopt "i" "a-very-long-interface-name"; mk_getopt "u" "";
                       mk_getopt "s" ""] = true /\
  exists s',
    run (V1.parse_options (world_of [] 0 [] [])
           [mk_getopt "i" "tun0"; mk_getopt "a" ""; mk_getopt "c" "10.0.0.5";
            mk_getopt "i" "a-very-long-interface-name"; mk_getopt "u" "";
            mk_getopt "s" ""]) (v1_init v1_stack) = ([], Ok tt s') /\
    V1.if_name s' = "a-very-long-int" /\
    V1.cliserv s' = SERVER /\
    V1.server_ip s' = "10.0.0.5" /\
    V1.flags s' = IFF_TUN /\
    V1.debug s' = 0 /\
    V1.header_len s' = ETH_HDR_LEN.
Proof.
  split; [reflexivity|].
  destruct (v1_option_loop_last_option_wins (world_of [] 0 [] [])
              [mk_getopt "i" "tun0"; mk_getopt "a" ""; mk_getopt "c" "10.0.0.5";
               mk_getopt "i" "a-very-long-interface-name"; mk_getopt "u" "";
               mk_getopt "s" ""] (v1_init v1_stack) eq_refl)
    as (s' & Hrun & H1 & H2 & H3 & H4 & H5 & H6 & _).
  exists s'. repeat (split; [assumption|]). assumption.
Defined.

(* ================================================================= *)
(** ** From the set-up to the session *)

(** The log and the result of a sequence. *)
Lemma run_bind_split {S A B} (m : M S A) (f : A -> M S B) (s : S) :
  run (bind m f) s =
  match snd (run m s) with
  | Ok a s' => (fst (run m s) ++ fst (run (f a) s'), snd (run (f a) s'))
  | Exited st s' => (fst (run m s), Exited st s')
  | Blocked wp s' => (fst (run m s), Blocked wp s')
  end.
Proof.
  unfold run, bind. destruct (m s) as [t [a s'|st s'|wp s']]; cbn [fst snd];
    [destruct (f a s')|..]; reflexivity.
Qed.

Lemma v1_main_session (w : world) (s : V1.machine) :
  v1_config_ok w s = true -> devices_fail w = false ->
  exists t0,
    only_setup t0 /\
    ioctls (calls t0)
      = [(if is_empty (V1.if_name (v1_parsed w s)) then ""
          else strncpy (V1.if_name (v1_parsed w s)) IFNAMSIZ,
          Z.lor (V1.flags (v1_parsed w s)) IFF_NO_PI)] /\
    run (V1.main w) s =
    (t0 ++ fst (run (v1_session w) (v1_ready w s)),
     snd (run (v1_session w) (v1_ready w s))).
Proof.
  intros Hok Hdev. pose proof (v1_main_command_line w s) as Hm. rewrite Hok in Hm.
  destruct (v1_open_devices_run w (v1_parsed w s)) as (t0 & r & Hrun & Ht & Hio & Hr).
  rewrite Hdev in Hr. subst r.
  assert (Ho : (w_open w <? 0) = false).
  { unfold devices_fail in Hdev. destruct (w_open w <? 0); [discriminate|reflexivity]. }
  rewrite Ho in Hio.
  exists t0. split; [exact Ht|]. split; [exact Hio|].
  rewrite Hm.
  exact (run_bind_ok (V1.open_devices w) (fun _ => v1_session w) _ _ _ _ Hrun).
Qed.

Lemma v2_main_session (w : world) (s : V2.machine) :
  v2_config_ok w s = true -> devices_fail w = false ->
  exists t0,
    only_setup t0 /\
    ioctls (calls t0)
      = [(if is_empty (V2.if_name (v2_parsed w s)) then ""
          else strncpy (V2.if_name (v2_parsed w s)) IFNAMSIZ,
          Z.lor IFF_TUN IFF_NO_PI)] /\
    run (V2.main w) s =
    (t0 ++ fst (run (v2_session w) (v2_ready w s)),
     snd (run (v2_session w) (v2_ready w s))).
Proof.
  intros Hok Hdev. pose proof (v2_main_command_line w s) as Hm. rewrite Hok in Hm.
  destruct (v2_open_devices_run w (v2_parsed w s)) as (t0 & r & Hrun & Ht & Hio & Hr).
  rewrite Hdev in Hr. subst r.
  assert (Ho : (w_open w <? 0) = false).
  { unfold devices_fail in Hdev. destruct (w_open w <? 0); [discriminate|reflexivity]. }
  rewrite Ho in Hio.
  exists t0. split; [exact Ht|]. split; [exact Hio|].
  rewrite Hm.
  exact (run_bind_ok (V2.open_devices w) (fun _ => v2_session w) _ _ _ _ Hrun).
Qed.

Lemma never_weaken {S A} (p q : event -> bool) (m : M S A) :
  (forall e, p e = true -> q e = true) -> never q m -> never p m.
Proof.
  intros Hpq Hm s. specialize (Hm s).
  induction (calls (fst (run m s))) as [|e l IH]; [reflexivity|].
  cbn [existsb] in *. apply orb_false_iff in Hm. destruct Hm as [He Hl].
  rewrite (IH Hl), orb_false_r.
  destruct (p e) eqn:E; [|reflexivity]. rewrite (Hpq e E) in He. discriminate He.
Qed.

Lemma v1_wait_for_magic_calls (rs : list recv_result) :
  never (fun e => negb (is_session_call e)) (V1.wait_for_magic rs).
Proof.
  induction rs as [|r rs IH]; cbn [V1.wait_for_magic]; never_tac. exact IH.
Qed.

Lemma session_call_relay_call (e : event) :
  negb (is_session_call e) = true -> negb (is_relay_call e) = true.
Proof. unfold is_session_call. destruct (is_relay_call e); [discriminate|reflexivity]. Qed.

Lemma v1_relay_iterations_calls (its : list iteration) :
  never (fun e => negb (is_session_call e)) (V1.relay_iterations its).
Proof.
  induction its as [|it its IH]; cbn [V1.relay_iterations]; [apply never_ret|].
  apply never_bind; [|intros _; exact IH].
  apply (never_weaken _ _ _ session_call_relay_call), v1_relay_iteration_calls.
Qed.

Lemma v2_relay_iterations_calls (its : list iteration) :
  never (fun e => negb (is_session_call e)) (V2.relay_iterations its).
Proof.
  induction its as [|it its IH]; cbn [V2.relay_iterations]; [apply never_ret|].
  apply never_bind; [|intros _; exact IH].
  apply (never_weaken _ _ _ session_call_relay_call), v2_relay_iteration_calls.
Qed.

Lemma v1_session_calls (w : world) :
  never (fun e => negb (is_session_call e)) (v1_session w).
Proof.
  unfold v1_session, V1.client_handshake, V1.server_handshake. never_tac.
  all: first [apply v1_wait_for_magic_calls | apply v1_relay_iterations_calls].
Qed.

Lemma v2_session_calls (w : world) :
  never (fun e => negb (is_session_call e)) (v2_session w).
Proof.
  unfold v2_session, V2.client_handshake, V2.server_handshake, V2.wait_for_magic. never_tac.
  all: apply v2_relay_iterations_calls.
Qed.

(* ================================================================= *)
(** ** The interface that [main] configures *)

Lemma calls_app {S} (a b : list (event * S)) : calls (a ++ b) = calls a ++ calls b.
Proof. apply map_app. Qed.

Lemma ioctls_app (a b : list event) : ioctls (a ++ b) = ioctls a ++ ioctls b.
Proof. unfold ioctls. apply flat_map_app. Qed.

Lemma session_calls_no_ioctl (l : list event) :
  existsb (fun e => negb (is_session_call e)) l = false -> ioctls l = [].
Proof.
  induction l as [|e l IH]; [reflexivity|]. cbn [existsb]. intros H.
  apply orb_false_iff in H. destruct H as [He Hl].
  unfold ioctls in *. cbn [flat_map]. rewrite (IH Hl), app_nil_r.
  destruct e; try reflexivity; discriminate He.
Qed.

Lemma substring_whole (s : string) (n : nat) :
  (String.length s <= n)%nat -> substring 0 n s = s.
Proof.
  revert n. induction s as [|c s IH]; intros [|n] H; cbn in *; try reflexivity; try lia.
  rewrite IH; [reflexivity|lia].
Qed.

Lemma v1_main_ioctls (w : world) (s : V1.machine) :
  v1_config_ok w s = true ->
  ioctls (calls (fst (run (V1.main w) s)))
  = (if w_open w <? 0 then []
     else [(if is_empty (V1.if_name (v1_parsed w s)) then ""
            else strncpy (V1.if_name (v1_parsed w s)) IFNAMSIZ,
            Z.lor (V1.flags (v1_parsed w s)) IFF_NO_PI)]).
Proof.
  intros Hok. pose proof (v1_main_command_line w s) as Hm. rewrite Hok in Hm.
  rewrite Hm. change (v1_after_options w) with (bind (V1.open_devices w) (fun _ => v1_session w)).
  rewrite run_bind_split.
  destruct (v1_open_devices_run w (v1_parsed w s)) as (t0 & r & Hrun & _ & Hio & _).
  rewrite Hrun. cbn [fst snd]. destruct r as [[] s'|st s'|wp s']; cbn [fst]; try exact Hio.
  rewrite calls_app, ioctls_app, Hio.
  rewrite (session_calls_no_ioctl _ (v1_session_calls w s')). apply app_nil_r.
Qed.

Lemma v2_main_ioctls (w : world) (s : V2.machine) :
  v2_config_ok w s = true ->
  ioctls (calls (fst (run (V2.main w) s)))
  = (if w_open w <? 0 then []
     else [(if is_empty (V2.if_name (v2_parsed w s)) then ""
            else strncpy (V2.if_name (v2_parsed w s)) IFNAMSIZ,
            Z.lor IFF_TUN IFF_NO_PI)]).
Proof.
  intros Hok. pose proof (v2_main_command_line w s) as Hm. rewrite Hok in Hm.
  rewrite Hm. change (v2_after_options w) with (bind (V2.open_devices w) (fun _ => v2_session w)).
  rewrite run_bind_split.
  destruct (v2_open_devices_run w (v2_parsed w s)) as (t0 & r & Hrun & _ & Hio & _).
  rewrite Hrun. cbn [fst snd]. destruct r as [[] s'|st s'|wp s']; cbn [fst]; try exact Hio.
  rewrite calls_app, ioctls_app, Hio.
  rewrite (session_calls_no_ioctl _ (v2_session_calls w s')). apply app_nil_r.
Qed.

(** The name a valid command line leaves in [if_name]: the first 15
    characters of the argument of the last [-i], which are not empty and
    pass through the [strncpy] of [tun_alloc] unchanged. *)
Lemma v1_valid_name (w : world) (s : V1.machine) :
  v1_config_ok w s = true ->
  exists a,
    last_opt "i" (w_getopt w) = Some a /\
    is_empty (strncpy a 15) = false /\
    V1.if_name (v1_parsed w s) = strncpy a 15 /\
    strncpy (strncpy a 15) IFNAMSIZ = strncpy a 15.
Proof.
  unfold v1_config_ok, v1_valid. intros H.
  apply andb_true_iff in H. destruct H as [_ H].
  apply andb_true_iff in H. destruct H as [H _].
  apply andb_true_iff in H. destruct H as [H _].
  apply andb_true_iff in H. destruct H as [_ H].
  destruct (v1_parsed_fields (w_getopt w) (v1_init s)) as (H1 & _).
  fold (v1_parsed w s) in H1.
  destruct (last_opt "i" (w_getopt w)) as [a|].
  - exists a. change (IFNAMSIZ - 1) with 15 in H1. rewrite H1 in *.
    split; [reflexivity|]. split; [apply negb_true_iff; exact H|].
    split; [reflexivity|].
    unfold strncpy at 1. apply substring_whole.
    pose proof (strncpy_length a 15). change (Z.to_nat IFNAMSIZ) with 16%nat.
    change (Z.to_nat 15) with 15%nat in *. lia.
  - rewrite H1 in *. destruct s; discriminate.
Qed.

Lemma v2_valid_name (w : world) (s : V2.machine) :
  v2_config_ok w s = true ->
  exists a,
    last_opt "i" (w_getopt w) = Some a /\
    is_empty (strncpy a 15) = false /\
    V2.if_name (v2_parsed w s) = strncpy a 15 /\
    strncpy (strncpy a 15) IFNAMSIZ = strncpy a 15.
Proof.
  unfold v2_config_ok, v2_valid. intros H.
  apply andb_true_iff in H. destruct H as [_ H].
  apply andb_true_iff in H. destruct H as [H _].
  apply andb_true_iff in H. destruct H as [H _].
  apply andb_true_iff in H. destruct H as [_ H].
  destruct (v2_parsed_fields w (w_getopt w) (v2_init s)) as (H1 & _).
  fold (v2_parsed w s) in H1.
  destruct (last_opt "i" (w_getopt w)) as [a|].
  - exists a. change (IFNAMSIZ - 1) with 15 in H1. rewrite H1 in *.
    split; [reflexivity|]. split; [apply negb_true_iff; exact H|].
    split; [reflexivity|].
    unfold strncpy at 1. apply substring_whole.
    pose proof (strncpy_length a 15). change (Z.to_nat IFNAMSIZ) with 16%nat.
    change (Z.to_nat 15) with 15%nat in *. lia.
  - rewrite H1 in *. destruct s; discriminate.
Qed.

(** X7: with a command line that [main] accepts, the interface is
    configured at most once, right after a successful [open], and never
    again during the handshake or the relay loop.  The name passed to
    [ioctl(TUNSETIFF)] is the first 15 characters of the argument of the
    last [-i] and is not empty.  In v1 the flags are [IFF_NO_PI] with
    [IFF_TAP] when the last of [-u] and [-a] is [-a], and with [IFF_TUN]
    otherwise; in v2 they are always [IFF_TUN | IFF_NO_PI]. *)
Theorem main_configures_the_interface_once :
  forall (w1 w2 : world) (s1 : V1.machine) (s2 : V2.machine),
    v1_config_ok w1 s1 = true ->
    v2_config_ok w2 s2 = true ->
    (exists a,
        last_opt "i" (w_getopt w1) = Some a /\
        is_empty (strncpy a 15) = false /\
        ioctls (calls (fst (run (V1.main w1) s1)))
        = (if w_open w1 <? 0 then []
           else [(strncpy a 15,
                  Z.lor (match last_flag (w_getopt w1) with Some f => f | None => IFF_TUN end)
                        IFF_NO_PI)])) /\
    (exists a,
        last_opt "i" (w_getopt w2) = Some a /\
        is_empty (strncpy a 15) = false /\
        ioctls (calls (fst (run (V2.main w2) s2)))
        = (if w_open w2 <? 0 then [] else [(strncpy a 15, Z.lor IFF_TUN IFF_NO_PI)])).
Proof.
  intros w1 w2 s1 s2 H1 H2. split.
  - destruct (v1_valid_name w1 s1 H1) as (a & Ha & He & Hn & Hc).
    exists a. split; [exact Ha|]. split; [exact He|].
    rewrite (v1_main_ioctls w1 s1 H1), Hn, He, Hc.
    destruct (v1_parsed_fields (w_getopt w1) (v1_init s1)) as (_ & _ & _ & Hf & _).
    fold (v1_parsed w1 s1) in Hf. rewrite Hf.
    destruct (last_flag (w_getopt w1)); destruct s1; reflexivity.
  - destruct (v2_valid_name w2 s2 H2) as (a & Ha & He & Hn & Hc).
    exists a. split; [exact Ha|]. split; [exact He|].
    rewrite (v2_main_ioctls w2 s2 H2), Hn, He, Hc. reflexivity.
Qed.

Lemma main_configures_the_interface_once_witness :
  v1_config_ok (world_of (opts_server ++ [mk_getopt "a" ""]) 0 [] []) v1_stack = true /\
  v2_config_ok (world_of opts_client 0 [] []) v2_stack = true /\
  (exists a,
      last_opt "i" (w_getopt (world_of (opts_server ++ [mk_getopt "a" ""]) 0 [] []))
      = Some a /\
      is_empty (strncpy a 15) = false /\
      ioctls (calls (fst (run (V1.main (world_of (opts_server ++ [mk_getopt "a" ""]) 0 [] []))
                              v1_stack)))
      = (if w_open (world_of (opts_server ++ [mk_getopt "a" ""]) 0 [] []) <? 0 then []
         else [(strncpy a 15,
                Z.lor (match last_flag (w_getopt (world_of (opts_server ++ [mk_getopt "a" ""])
                                                           0 [] []))
                       with Some f => f | None => IFF_TUN end)
                      IFF_NO_PI)])) /\
  (exists a,
      last_opt "i" (w_getopt (world_of opts_client 0 [] [])) = Some a /\
      is_empty (strncpy a 15) = false /\
      ioctls (calls (fst (run (V2.main (world_of opts_client 0 [] [])) v2_stack)))
      = (if w_open (world_of opts_client 0 [] []) <? 0 then []
         else [(strncpy a 15, Z.lor IFF_TUN IFF_NO_PI)])).
Proof.
  split; [reflexivity|]. split; [reflexivity|].
  apply (main_configures_the_interface_once
           (world_of (opts_server ++ [mk_getopt "a" ""]) 0 [] [])
           (world_of opts_client 0 [] []) v1_stack v2_stack); reflexivity.
Defined.

(* ================================================================= *)
(** ** The port of v2 *)

(** [htons] swaps the two bytes of a 16-bit value, and [ntohs] swaps them
    back. *)
Lemma htons_testbit (x n : Z) :
  0 <= n ->
  Z.testbit (htons x) n
  = if n <? 8 then Z.testbit x (n + 8)
    else if n <? 16 then Z.testbit x (n - 8) else false.
Proof.
  intros Hn. unfold htons.
  rewrite Z.lor_spec, Z.land_spec, Z.shiftr_spec, Z.shiftl_spec, Z.land_spec by lia.
  change 255 with (Z.ones 8). rewrite !Z.testbit_ones by lia.
  destruct (Z.ltb_spec n 8), (Z.ltb_spec n 16), (Z.leb_spec 0 n),
    (Z.leb_spec 0 (n - 8)), (Z.ltb_spec (n - 8) 8); try lia;
    cbn [andb orb]; rewrite ?andb_true_r, ?andb_false_r, ?orb_false_r;
    try reflexivity.

Qed.

Lemma ntohs_htons (p : Z) : 0 <= p < 65536 -> ntohs (htons p) = p.
Proof.
  intros Hp. unfold ntohs. apply Z.bits_inj'. intros n Hn.
  rewrite htons_testbit by lia.
  destruct (Z.ltb_spec n 8).
  - rewrite htons_testbit by lia.
    destruct (Z.ltb_spec (n + 8) 8), (Z.ltb_spec (n + 8) 16); try lia.
    f_equal. lia.
  - destruct (Z.ltb_spec n 16).
    + rewrite htons_testbit by lia.
      destruct (Z.ltb_spec (n - 8) 8); try lia. f_equal. lia.
    + symmetry. destruct (Z.eq_dec p 0) as [->|Hne]; [apply Z.bits_0|].
      apply Z.bits_above_log2; [lia|].
      apply Z.lt_le_trans with 16; [|lia].
      apply Z.log2_lt_pow2; lia.
Qed.

Lemma v2_port_of_range (w : world) (gs : list getopt_result) :
  0 <= v2_port_of w gs < 65536.
Proof.
  unfold v2_port_of. destruct (last_opt "p" gs).
  - apply Z.mod_pos_bound. lia.
  - unfold V2.PORT. lia.
Qed.

Lemma run_gets_bind {S T B} (g : S -> T) (k : T -> M S B) s :
  run (bind (gets g) k) s = run (k (g s)) s.
Proof. unfold run, bind, gets. destruct (k (g s) s). reflexivity. Qed.

Lemma run_bind_prefix {S A B} (m : M S A) (f : A -> M S B) (s : S) :
  exists rest, fst (run (bind m f) s) = fst (run m s) ++ rest.
Proof.
  rewrite run_bind_split. destruct (snd (run m s)); cbn [fst]; eexists;
    first [reflexivity | symmetry; apply app_nil_r].
Qed.

Lemma bind_addrs_app (a b : list event) : bind_addrs (a ++ b) = bind_addrs a ++ bind_addrs b.
Proof. unfold bind_addrs. apply flat_map_app. Qed.

Lemma setup_calls_no_bind {S} (t : list (event * S)) :
  only_setup t -> bind_addrs (calls t) = [] /\ sendto_dsts (calls t) = [].
Proof.
  unfold only_setup. induction (calls t) as [|e l IH]; [auto|].
  cbn [forallb]. intros H. apply andb_true_iff in H. destruct H as [He Hl].
  destruct (IH Hl) as [H1 H2]. unfold bind_addrs, sendto_dsts in *. cbn [flat_map].
  rewrite H1, H2. destruct e; try discriminate He; auto.
Qed.

Lemma relay_calls_no_bind (l : list event) :
  existsb (fun e => negb (is_relay_call e)) l = false -> bind_addrs l = [].
Proof.
  induction l as [|e l IH]; [reflexivity|]. cbn [existsb]. intros H.
  apply orb_false_iff in H. destruct H as [He Hl].
  unfold bind_addrs in *. cbn [flat_map]. rewrite (IH Hl), app_nil_r.
  destruct e; try reflexivity; discriminate He.
Qed.

(** The relay loop after a handshake binds nothing. *)
Lemma v2_bind_addrs_before_loop (hs : M V2.machine unit) (its : list iteration) s :
  bind_addrs (calls (fst (run (bind hs (fun _ => V2.relay_loop its)) s)))
  = bind_addrs (calls (fst (run hs s))).
Proof.
  rewrite run_bind_split. destruct (snd (run hs s)) as [[] s'|st s'|wp s']; cbn [fst];
    try reflexivity.
  rewrite calls_app, bind_addrs_app.
  rewrite (relay_calls_no_bind _ (v2_relay_loop_calls its s')). apply app_nil_r.
Qed.

Lemma v2_client_handshake_addresses (w : world) (s : V2.machine) :
  bind_addrs (calls (fst (run (V2.client_handshake w) s))) = [v2_local_addr (V2.port s)] /\
  (0 <= w_bind w ->
   sendto_dsts (calls (fst (run (V2.client_handshake w) s)))
   = [{| sin_family := AF_INET; sin_port := htons (V2.port s);
         sin_addr := aton_or_zero w (V2.server_ip s) |}]).
Proof.
  destruct s. unfold aton_or_zero, v2_local_addr. cbn [V2.port V2.server_ip].
  split; [|intros Hb; apply Z.ltb_ge in Hb].
  - mcase_hs; reflexivity.
  - mred_hs. mred. destruct (w_inet_aton w server_ip); mred; rewrite Hb; mcase_hs;
      reflexivity.
Qed.

Lemma v2_server_handshake_addresses (w : world) (s : V2.machine) :
  bind_addrs (calls (fst (run (V2.server_handshake w) s)))
  = (if w_setsockopt w <? 0 then [] else [v2_local_addr (V2.port s)]).
Proof.
  destruct s. unfold v2_local_addr. cbn [V2.port].
  mred_hs. mred. destruct (w_setsockopt w <? 0); [reflexivity|].
  mcase_hs; reflexivity.
Qed.

Lemma v2_client_handshake_bind_fails (w : world) (s : V2.machine) :
  w_bind w < 0 ->
  exists t s',
    run (V2.client_handshake w) s = (t, Exited 1 s') /\ sendto_dsts (calls t) = [].
Proof.
  intros H2. apply Z.ltb_lt in H2.
  destruct s. mred_hs. mred.
  destruct (w_inet_aton w server_ip); mred; rewrite H2; mred;
    do 2 eexists; split; reflexivity.
Qed.

Lemma v2_session_bind_addrs (w : world) (s : V2.machine) :
  bind_addrs (calls (fst (run (v2_session w) s)))
  = (if V2.cliserv s =? CLIENT then [v2_local_addr (V2.port s)]
     else if w_setsockopt w <? 0 then [] else [v2_local_addr (V2.port s)]).
Proof.
  unfold v2_session. rewrite run_gets_bind.
  destruct (V2.cliserv s =? CLIENT); rewrite v2_bind_addrs_before_loop.
  - apply v2_client_handshake_addresses.
  - apply v2_server_handshake_addresses.
Qed.

Lemma sendto_dsts_calls_app {S} (a b : list (event * S)) :
  sendto_dsts (calls (a ++ b)) = sendto_dsts (calls a) ++ sendto_dsts (calls b).
Proof. unfold sendto_dsts, calls. rewrite map_app. apply flat_map_app. Qed.

Lemma v2_client_session_first_datagram (w : world) (s : V2.machine) :
  V2.cliserv s = CLIENT ->
  hd_error (sendto_dsts (calls (fst (run (v2_session w) s))))
  = (if w_bind w <? 0 then None
     else Some {| sin_family := AF_INET; sin_port := htons (V2.port s);
                  sin_addr := aton_or_zero w (V2.server_ip s) |}).
Proof.
  intros Hc. unfold v2_session. rewrite run_gets_bind, Hc. cbn [Z.eqb CLIENT].
  destruct (Z.ltb_spec (w_bind w) 0) as [Hb|Hb].
  - destruct (v2_client_handshake_bind_fails w s Hb) as (t & s' & Hrun & Ht).
    rewrite (run_bind_exited _ _ _ _ _ _ Hrun). cbn [fst]. rewrite Ht. reflexivity.
  - destruct (run_bind_prefix (V2.client_handshake w)
                (fun _ => V2.relay_loop (w_relay w)) s) as [rest Hrest].
    rewrite Hrest, sendto_dsts_calls_app.
    destruct (v2_client_handshake_addresses w s) as [_ Hd]. rewrite (Hd Hb).
    reflexivity.
Qed.

(** X8: in v2 the option [-p] sets the port.  With an accepted command
    line and the devices open, the port is the argument of the last [-p]
    converted to [unsigned short], or 5588 without [-p]; it lies between 0
    and 65535 and [htons] stores it so that [ntohs] gives it back.  The
    client binds the socket to that port and, when [bind] succeeds, sends
    its first datagram to that port at the address of the last [-c], or at
    address 0 when [inet_aton] does not parse it; when [bind] fails it
    sends nothing.  The server binds the socket to that port unless
    [setsockopt] has failed.  The relay loop binds nothing. *)
Theorem v2_port_option_sets_the_port :
  forall (w : world) (s : V2.machine),
    v2_config_ok w s = true ->
    devices_fail w = false ->
    0 <= v2_port_of w (w_getopt w) < 65536 /\
    ntohs (htons (v2_port_of w (w_getopt w))) = v2_port_of w (w_getopt w) /\
    match last_mode (w_getopt w) with
    | Some mode =>
        if mode =? CLIENT then
          bind_addrs (calls (fst (run (V2.main w) s)))
          = [v2_local_addr (v2_port_of w (w_getopt w))] /\
          hd_error (sendto_dsts (calls (fst (run (V2.main w) s))))
          = (if w_bind w <? 0 then None
             else Some {| sin_family := AF_INET;
                          sin_port := htons (v2_port_of w (w_getopt w));
                          sin_addr :=
                            aton_or_zero w (match last_opt "c" (w_getopt w) with
                                            | Some a => strncpy a 15
                                            | None => ""
                                            end) |})
        else
          bind_addrs (calls (fst (run (V2.main w) s)))
          = (if w_setsockopt w <? 0 then []
             else [v2_local_addr (v2_port_of w (w_getopt w))])
    | None => False
    end.
Proof.
  intros w s Hok Hdev.
  split; [apply v2_port_of_range|].
  split; [apply ntohs_htons, v2_port_of_range|].
  destruct (v2_main_session w s Hok Hdev) as (t0 & Ht0 & _ & Hrun).
  destruct (setup_calls_no_bind t0 Ht0) as [Hb0 Hd0].
  destruct (v2_parsed_fields w (w_getopt w) (v2_init s)) as (_ & Hmode & Hip & Hport).
  fold (v2_parsed w s) in Hmode, Hip, Hport.
  assert (Hp : V2.port (v2_ready w s) = v2_port_of w (w_getopt w)).
  { unfold v2_port_of. destruct s. exact Hport. }
  assert (Hi : V2.server_ip (v2_ready w s)
               = match last_opt "c" (w_getopt w) with
                 | Some a => strncpy a 15
                 | None => ""
                 end).
  { destruct s. exact Hip. }
  assert (Hm : V2.cliserv (v2_ready w s)
               = match last_mode (w_getopt w) with Some m => m | None => -1 end).
  { destruct s. exact Hmode. }
  assert (Hv : (V2.cliserv (v2_ready w s) <? 0) = false).
  { unfold v2_config_ok, v2_valid in Hok.
    apply andb_true_iff in Hok. destruct Hok as [_ Hok].
    apply andb_true_iff in Hok. destruct Hok as [Hok _].
    apply andb_true_iff in Hok. destruct Hok as [_ Hok].
    apply negb_true_iff in Hok. destruct s. exact Hok. }
  rewrite Hrun. cbn [fst]. rewrite calls_app, bind_addrs_app, Hb0. cbn [app].
  rewrite v2_session_bind_addrs, Hp.
  destruct (last_mode (w_getopt w)) as [mode|].
  - rewrite Hm. destruct (mode =? CLIENT) eqn:Hc; [|reflexivity].
    split; [reflexivity|].
    rewrite <- calls_app, sendto_dsts_calls_app, Hd0. cbn [app].
    apply Z.eqb_eq in Hc. rewrite <- Hm in Hc.
    rewrite (v2_client_session_first_datagram w _ Hc), Hp, Hi. reflexivity.
  - rewrite Hm in Hv. discriminate Hv.
Qed.

Lemma v2_port_option_sets_the_port_witness :
  v2_config_ok world_v2_port_1234 v2_stack = true /\
  devices_fail world_v2_port_1234 = false /\
  v2_port_of world_v2_port_1234 (w_getopt world_v2_port_1234) = 1234 /\
  bind_addrs (calls (fst (run (V2.main world_v2_port_1234) v2_stack)))
  = [v2_local_addr 1234] /\
  hd_error (sendto_dsts (calls (fst (run (V2.main world_v2_port_1234) v2_stack))))
  = Some {| sin_family := AF_INET; sin_port := htons 1234; sin_addr := ip_10_0_0_5 |}.
Proof.
  split; [reflexivity|]. split; [reflexivity|]. split; [reflexivity|].
  destruct (v2_port_option_sets_the_port world_v2_port_1234 v2_stack eq_refl eq_refl)
    as (_ & _ & H).
  exact H.
Defined.

(* ================================================================= *)
(** ** The server and the connection request *)

(** [strncmp] of a token with memory that begins with the token is 0. *)
Lemma strncmp_prefix (tok rest : list byte) :
  strncmp tok (tok ++ rest) (List.length tok) = 0.
Proof.
  induction tok as [|t tok IH]; [reflexivity|].
  cbn [List.length app strncmp hd tl]. rewrite Z.eqb_refl. cbn [negb].
  rewrite IH. destruct (byte_val t =? 0); reflexivity.
Qed.

Lemma magic_match (more old : list byte) :
  strncmp MAGIC_WORD (fill BUFSIZE (MAGIC_WORD ++ more) old) (Z.to_nat sizeof_MAGIC_WORD)
  = 0.
Proof.
  unfold fill. rewrite firstn_app, firstn_all2, <- app_assoc.
  - unfold sizeof_MAGIC_WORD. rewrite Nat2Z.id. apply strncmp_prefix.
  - apply Nat.leb_le. vm_compute. reflexivity.
Qed.

Lemma v1_wait_match more src srclen (rs : list recv_result) (s : V1.machine) :
  run (V1.wait_for_magic (RecvOk (MAGIC_WORD ++ more) src srclen :: rs)) s =
  ([(EvRecvfrom BUFSIZE, s)],
   Ok tt (after_recv V1.buffer_ V1.client_addr_ V1.clientlen_
                     (RecvOk (MAGIC_WORD ++ more) src srclen) s)).
Proof.
  pose proof (magic_match more (V1.buffer s)) as He.
  remember (MAGIC_WORD ++ more) as payload eqn:Hp. clear Hp.
  destruct s. cbn [V1.buffer] in He. cbn [V1.wait_for_magic]. mred.
  rewrite recv_count_not_negative. mred. rewrite He. reflexivity.
Qed.

Lemma v2_wait_match more src srclen (rs : list recv_result) (s : V2.machine) :
  run (V2.wait_for_magic (RecvOk (MAGIC_WORD ++ more) src srclen :: rs)) s =
  ([(EvRecvfrom BUFSIZE, s)],
   Ok tt (after_recv V2.buffer_ V2.client_addr_ V2.clientlen_
                     (RecvOk (MAGIC_WORD ++ more) src srclen) s)).
Proof.
  pose proof (magic_match more (V2.buffer s)) as He.
  remember (MAGIC_WORD ++ more) as payload eqn:Hp. clear Hp.
  destruct s. cbn [V2.buffer] in He. mred_hs. mred.
  rewrite recv_count_not_negative. mred. rewrite He. reflexivity.
Qed.

(** The wait of the v1 server: every mismatching datagram is received and
    answered by a message only, the first one that begins with the magic
    word ends the wait. *)
Lemma v1_wait_skips more src srclen (rest bad : list recv_result) :
  forallb mismatching bad = true ->
  forall s : V1.machine,
  exists t s',
    run (V1.wait_for_magic (bad ++ RecvOk (MAGIC_WORD ++ more) src srclen :: rest)) s
    = (t, Ok tt s') /\
    V1.client_addr s' = src /\ V1.clientlen s' = srclen /\
    receives (calls t) = S (List.length bad) /\
    sent (calls t) = [].
Proof.
  induction bad as [|r bad IH]; intros Hbad s.
  - cbn [app]. rewrite v1_wait_match. do 2 eexists. split; [reflexivity|].
    destruct s. repeat split; reflexivity.
  - cbn [forallb] in Hbad. apply andb_true_iff in Hbad. destruct Hbad as [Hr Hbad].
    destruct r as [|payload src' srclen']; [discriminate Hr|]. cbn [mismatching] in Hr.
    cbn [app]. rewrite (v1_wait_mismatch payload src' srclen' _ s Hr).
    destruct (IH Hbad (after_recv V1.buffer_ V1.client_addr_ V1.clientlen_
                                  (RecvOk payload src' srclen') s))
      as (t & s' & Hrun & H1 & H2 & H3 & H4).
    rewrite Hrun. cbn [fst snd]. do 2 eexists. split; [reflexivity|].
    split; [exact H1|]. split; [exact H2|].
    unfold receives, sent, calls in *. cbn [map fst filter is_recvfrom is_sendto List.length].
    rewrite H3, H4. split; reflexivity.
Qed.

Lemma v1_server_handshake_split (w : world) (s : V1.machine) :
  0 <= w_setsockopt w -> 0 <= w_bind w ->
  run (V1.server_handshake w) s =
  ((EvSetsockopt, s)
     :: (EvBind v1_local_addr, wr V1.server_addr_ v1_local_addr s)
     :: fst (run (V1.wait_for_magic (w_hs_recvfrom w) ;; v1_server_reply w)
                 (v1_listening s)),
   snd (run (V1.wait_for_magic (w_hs_recvfrom w) ;; v1_server_reply w) (v1_listening s))).
Proof.
  intros H1 H2. apply Z.ltb_ge in H1. apply Z.ltb_ge in H2.
  destruct s. unfold v1_server_reply, v1_listening, v1_local_addr. mred_hs. mred.
  rewrite H1. mred. rewrite H2. mred.
  cbv [with_sin_addr set_sin_port set_sin_family sin_family sin_port sin_addr zero_sockaddr].
  match goal with
  | |- context [V1.wait_for_magic ?rs ?st] =>
      destruct (V1.wait_for_magic rs st) as [t0 [[] s0|st0 s0|wp s0]]
  end; [|reflexivity..].
  destruct s0. mcase; reflexivity.
Qed.

Lemma v2_server_handshake_split (w : world) (s : V2.machine) :
  0 <= w_setsockopt w -> 0 <= w_bind w ->
  run (V2.server_handshake w) s =
  ((EvSetsockopt, s)
     :: (EvBind (v2_local_addr (V2.port s)),
         wr V2.server_addr_ (v2_local_addr (V2.port s)) s)
     :: fst (run (V2.wait_for_magic (w_hs_recvfrom w) ;; v2_server_reply w)
                 (wr V2.server_addr_ (v2_local_addr (V2.port s)) s)),
   snd (run (V2.wait_for_magic (w_hs_recvfrom w) ;; v2_server_reply w)
            (wr V2.server_addr_ (v2_local_addr (V2.port s)) s))).
Proof.
  intros H1 H2. apply Z.ltb_ge in H1. apply Z.ltb_ge in H2.
  destruct s. unfold v2_server_reply, v2_local_addr, V2.server_handshake. mred.
  rewrite H1. mred. rewrite H2. mred.
  cbv [with_sin_addr set_sin_port set_sin_family sin_family sin_port sin_addr zero_sockaddr].
  match goal with
  | |- context [V2.wait_for_magic ?rs ?st] =>
      destruct (V2.wait_for_magic rs st) as [t0 [[] s0|st0 s0|wp s0]]
  end; [|reflexivity..].
  destruct s0. mcase; reflexivity.
Qed.

Lemma v1_server_reply_run (w : world) (s : V1.machine) :
  exists t,
    run (v1_server_reply w) s = (t, Ok tt s) /\
    sent (calls t) = [EvSendto MAGIC_WORD (V1.client_addr s) (V1.clientlen s)] /\
    receives (calls t) = 0%nat.
Proof.
  destruct s. unfold v1_server_reply. mcase; eexists; repeat split; reflexivity.
Qed.

Lemma v2_server_reply_run (w : world) (s : V2.machine) :
  exists t,
    run (v2_server_reply w) s = (t, Ok tt (wr V2.remote_addr_ (V2.client_addr s) s)) /\
    sent (calls t) = [EvSendto MAGIC_WORD (V2.client_addr s) (V2.clientlen s)] /\
    receives (calls t) = 0%nat.
Proof.
  destruct s. unfold v2_server_reply. mcase; eexists; repeat split; reflexivity.
Qed.

Lemma sent_app (a b : list event) : sent (a ++ b) = sent a ++ sent b.
Proof. apply filter_app. Qed.

Lemma receives_app (a b : list event) : receives (a ++ b) = (receives a + receives b)%nat.
Proof. unfold receives. rewrite filter_app. apply length_app. Qed.

Lemma v1_server_accepts (w : world) bad more src srclen rest (s : V1.machine) :
  0 <= w_setsockopt w ->
  0 <= w_bind w ->
  w_hs_recvfrom w = bad ++ RecvOk (MAGIC_WORD ++ more) src srclen :: rest ->
  forallb mismatching bad = true ->
  exists t s',
    run (V1.server_handshake w) s = (t, Ok tt s') /\
    V1.client_addr s' = src /\ V1.clientlen s' = srclen /\
    receives (calls t) = S (List.length bad) /\
    sent (calls t) = [EvSendto MAGIC_WORD src srclen].
Proof.
  intros Hso Hb Hrs Hbad.
  rewrite (v1_server_handshake_split w s Hso Hb), Hrs.
  destruct (v1_wait_skips more src srclen rest bad Hbad (v1_listening s))
    as (t & s' & Hrun & H1 & H2 & H3 & H4).
  rewrite (run_bind_ok _ _ _ _ _ _ Hrun).
  destruct (v1_server_reply_run w s') as (t' & Hrep & H5 & H6).
  rewrite Hrep. cbn [fst snd]. do 2 eexists. split; [reflexivity|].
  split; [exact H1|]. split; [exact H2|].
  change (calls ((EvSetsockopt, s)
                   :: (EvBind v1_local_addr, wr V1.server_addr_ v1_local_addr s)
                   :: t ++ t'))
    with (EvSetsockopt :: EvBind v1_local_addr :: calls (t ++ t')).
  rewrite calls_app. split.
  - change (receives (EvSetsockopt :: EvBind v1_local_addr :: calls t ++ calls t'))
      with (receives (calls t ++ calls t')).
    rewrite receives_app, H3, H6. lia.
  - change (sent (EvSetsockopt :: EvBind v1_local_addr :: calls t ++ calls t'))
      with (sent (calls t ++ calls t')).
    rewrite sent_app, H4, H5, H1, H2. reflexivity.
Qed.

Lemma v2_server_accepts (w : world) more src srclen rest (s : V2.machine) :
  0 <= w_setsockopt w ->
  0 <= w_bind w ->
  w_hs_recvfrom w = RecvOk (MAGIC_WORD ++ more) src srclen :: rest ->
  exists t s',
    run (V2.server_handshake w) s = (t, Ok tt s') /\
    V2.remote_addr s' = src /\
    receives (calls t) = 1%nat /\
    sent (calls t) = [EvSendto MAGIC_WORD src srclen].
Proof.
  intros Hso Hb Hrs.
  rewrite (v2_server_handshake_split w s Hso Hb), Hrs.
  rewrite (run_bind_ok _ _ _ _ _ _ (v2_wait_match more src srclen rest _)).
  match goal with
  | |- context [run (v2_server_reply w) ?st] =>
      destruct (v2_server_reply_run w st) as (t' & Hrep & H5 & H6)
  end.
  rewrite Hrep. cbn [fst snd]. do 2 eexists. split; [reflexivity|].
  split; [destruct s; reflexivity|].
  unfold receives, sent, calls in *.
  cbn [map fst app filter is_recvfrom is_sendto List.length].
  rewrite H5, H6. split; [reflexivity|]. destruct s; reflexivity.
Qed.

Lemma v2_server_rejects (w : world) payload src srclen rest (s : V2.machine) :
  0 <= w_setsockopt w ->
  0 <= w_bind w ->
  w_hs_recvfrom w = RecvOk payload src srclen :: rest ->
  differs MAGIC_WORD payload = true ->
  exists t s',
    run (V2.server_handshake w) s = (t, Exited 1 s') /\
    receives (calls t) = 1%nat /\
    sent (calls t) = [].
Proof.
  intros Hso Hb Hrs Hr.
  rewrite (v2_server_handshake_split w s Hso Hb), Hrs.
  rewrite (run_bind_exited _ _ _ _ _ _ (v2_wait_mismatch payload src srclen _ _ Hr)).
  cbn [fst snd]. do 2 eexists. split; [reflexivity|]. split; reflexivity.
Qed.

(** X9: a server whose [setsockopt] and [bind] succeed accepts a datagram
    whose payload begins with the 21 bytes of the magic word, whatever
    follows them: it echoes the magic word once, to the source of that
    datagram and with the address length [recvfrom] reported, and that
    source is the peer it relays to.  The v1 server first receives every
    mismatching datagram that arrives before, sending nothing; the v2
    server accepts only when that datagram is the first one, and exits
    with status 1 after one [recvfrom] otherwise. *)
Theorem server_accepts_datagram_that_begins_with_magic_word :
  forall (w : world) (bad : list recv_result) (more : list byte) (src : sockaddr_in)
         (srclen : Z) (rest : list recv_result) (s1 : V1.machine) (s2 : V2.machine),
    0 <= w_setsockopt w ->
    0 <= w_bind w ->
    w_hs_recvfrom w = bad ++ RecvOk (MAGIC_WORD ++ more) src srclen :: rest ->
    forallb mismatching bad = true ->
    (exists t s',
        run (V1.server_handshake w) s1 = (t, Ok tt s') /\
        V1.client_addr s' = src /\ V1.clientlen s' = srclen /\
        receives (calls t) = S (List.length bad) /\
        sent (calls t) = [EvSendto MAGIC_WORD src srclen]) /\
    match bad with
    | [] =>
        exists t s',
          run (V2.server_handshake w) s2 = (t, Ok tt s') /\
          V2.remote_addr s' = src /\
          receives (calls t) = 1%nat /\
          sent (calls t) = [EvSendto MAGIC_WORD src srclen]
    | _ :: _ =>
        exists t s',
          run (V2.server_handshake w) s2 = (t, Exited 1 s') /\
          receives (calls t) = 1%nat /\
          sent (calls t) = []
    end.
Proof.
  intros w bad more src srclen rest s1 s2 Hso Hb Hrs Hbad. split.
  - exact (v1_server_accepts w bad more src srclen rest s1 Hso Hb Hrs Hbad).
  - destruct bad as [|r bad].
    + exact (v2_server_accepts w more src srclen rest s2 Hso Hb Hrs).
    + cbn [forallb] in Hbad. apply andb_true_iff in Hbad. destruct Hbad as [Hr _].
      destruct r as [|payload src' srclen']; [discriminate Hr|].
      exact (v2_server_rejects w payload src' srclen' _ s2 Hso Hb Hrs Hr).
Qed.

Lemma server_accepts_datagram_that_begins_with_magic_word_witness :
  0 <= w_setsockopt world_v1_bad_token /\
  0 <= w_bind world_v1_bad_token /\
  w_hs_recvfrom world_v1_bad_token
  = [RecvOk bad_token addr_Q 16] ++ RecvOk (MAGIC_WORD ++ []) addr_P1 16 :: [] /\
  forallb mismatching [RecvOk bad_token addr_Q 16] = true /\
  (exists t s',
      run (V1.server_handshake world_v1_bad_token) v1_stack = (t, Ok tt s') /\
      V1.client_addr s' = addr_P1 /\ V1.clientlen s' = 16 /\
      receives (calls t) = 2%nat /\
      sent (calls t) = [EvSendto MAGIC_WORD addr_P1 16]) /\
  (exists t s',
      run (V2.server_handshake world_v1_bad_token) v2_stack = (t, Exited 1 s') /\
      receives (calls t) = 1%nat /\
      sent (calls t) = []).
Proof.
  split; [discriminate|]. split; [discriminate|].
  split; [reflexivity|]. split; [reflexivity|].
  apply (server_accepts_datagram_that_begins_with_magic_word
           world_v1_bad_token [RecvOk bad_token addr_Q 16] [] addr_P1 16 []
           v1_stack v2_stack); first [discriminate | reflexivity].
Defined.

(* ================================================================= *)
(** ** The client and the reply *)

(** The first byte of the buffer after a datagram has been stored: the
    first byte of the payload, or the byte that was there when the payload
    is empty. *)
Lemma hd_fill (payload old : list byte) :
  hd x00 (fill BUFSIZE payload old) = hd (hd x00 old) payload.
Proof.
  unfold fill. destruct payload as [|b p]; [reflexivity|].
  change (Z.to_nat BUFSIZE) with (S (Z.to_nat 4095)). reflexivity.
Qed.

Lemma v1_client_handshake_reply (w : world) payload src srclen rest (s : V1.machine) :
  w_hs_recvfrom w = RecvOk payload src srclen :: rest ->
  exists t s',
    run (V1.client_handshake w) s = (t, Ok tt s') /\
    V1.server_addr s' = src /\ V1.serverlen s' = srclen /\
    sent (calls t)
    = [EvSendto MAGIC_WORD
                {| sin_family := AF_INET; sin_port := htons V1.PORT;
                   sin_addr := match w_inet_aton w (V1.server_ip s) with
                               | Some a => a
                               | None => sin_addr (V1.server_addr s)
                               end |}
                sizeof_sockaddr_in] /\
    receives (calls t) = 1%nat.
Proof.
  intros Hrs. destruct s. cbn [V1.server_ip V1.server_addr].
  remember (match w_inet_aton w server_ip with
            | Some a => a
            | None => sin_addr server_addr
            end) as ip eqn:Hip.
  mred_hs. rewrite Hrs. mcase_hs.
  all: try match goal with H : w_inet_aton _ _ = _ |- _ => rewrite H in Hip end.
  all: subst ip; do 2 eexists; repeat split; reflexivity.
Qed.

Lemma v2_client_handshake_reply (w : world) payload src srclen rest (s : V2.machine) :
  w_hs_recvfrom w = RecvOk payload src srclen :: rest ->
  exists t r,
    run (V2.client_handshake w) s = (t, r) /\
    if w_bind w <? 0 then
      exit_status r = Some 1 /\ sent (calls t) = [] /\ receives (calls t) = 0%nat
    else
      sent (calls t)
      = [EvSendto MAGIC_WORD
                  {| sin_family := AF_INET; sin_port := htons (V2.port s);
                     sin_addr := aton_or_zero w (V2.server_ip s) |}
                  sizeof_sockaddr_in] /\
      receives (calls t) = 1%nat /\
      if Byte.eqb "W" (hd (hd x00 (V2.buffer s)) payload) then
        exists s', r = Ok tt s' /\
                   V2.remote_addr s' = src /\ V2.server_addr s' = src /\
                   V2.serverlen s' = srclen
      else exit_status r = Some 1.
Proof.
  intros Hrs. destruct s. unfold aton_or_zero. cbn [V2.server_ip V2.port V2.buffer].
  mred_hs. rewrite Hrs. mred.
  destruct (w_inet_aton w server_ip); mred;
    (destruct (w_bind w <? 0); mred;
     [do 2 eexists; split; [reflexivity|]; repeat split; reflexivity|]);
    (destruct (w_hs_sendto w <? 0); mred; rewrite recv_count_not_negative; mred;
     rewrite client_compares_first_byte, hd_fill;
     destruct (Byte.eqb "W" (hd (hd x00 buffer) payload)); cbn [negb]; mred;
     do 2 eexists; (split; [reflexivity|]); (split; [reflexivity|]);
     (split; [reflexivity|]);
     first [reflexivity | eexists; repeat split; reflexivity]).
Qed.

(** X10: the client sends the magic word exactly once and takes the source
    of the first datagram it receives as its peer, whatever address [-c]
    named: [server_addr] and its length are overwritten by [recvfrom].
    The v1 client always goes on to the relay loop.  The v2 client whose
    [bind] failed has exited before sending; otherwise it goes on exactly
    when the first byte of the buffer after the datagram is ['W'], the
    first byte of the payload or, for an empty payload, the byte the buffer
    held before, and exits with status 1 when it is not.  The magic word
    goes to the port of the variant at the address [inet_aton] stored; when
    the address does not parse, this is what [server_addr] held before in
    v1 and address 0 in v2. *)
Theorem client_takes_source_of_reply_as_peer :
  forall (w : world) (payload : list byte) (src : sockaddr_in) (srclen : Z)
         (rest : list recv_result) (s1 : V1.machine) (s2 : V2.machine),
    w_hs_recvfrom w = RecvOk payload src srclen :: rest ->
    (exists t s',
        run (V1.client_handshake w) s1 = (t, Ok tt s') /\
        V1.server_addr s' = src /\ V1.serverlen s' = srclen /\
        sent (calls t)
        = [EvSendto MAGIC_WORD
                    {| sin_family := AF_INET; sin_port := htons V1.PORT;
                       sin_addr := match w_inet_aton w (V1.server_ip s1) with
                                   | Some a => a
                                   | None => sin_addr (V1.server_addr s1)
                                   end |}
                    sizeof_sockaddr_in] /\
        receives (calls t) = 1%nat) /\
    (exists t r,
        run (V2.client_handshake w) s2 = (t, r) /\
        if w_bind w <? 0 then
          exit_status r = Some 1 /\ sent (calls t) = [] /\ receives (calls t) = 0%nat
        else
          sent (calls t)
          = [EvSendto MAGIC_WORD
                      {| sin_family := AF_INET; sin_port := htons (V2.port s2);
                         sin_addr := aton_or_zero w (V2.server_ip s2) |}
                      sizeof_sockaddr_in] /\
          receives (calls t) = 1%nat /\
          if Byte.eqb "W" (hd (hd x00 (V2.buffer s2)) payload) then
            exists s', r = Ok tt s' /\
                       V2.remote_addr s' = src /\ V2.server_addr s' = src /\
                       V2.serverlen s' = srclen
          else exit_status r = Some 1).
Proof.
  intros w payload src srclen rest s1 s2 Hrs. split.
  - exact (v1_client_handshake_reply w payload src srclen rest s1 Hrs).
  - exact (v2_client_handshake_reply w payload src srclen rest s2 Hrs).
Qed.

Lemma client_takes_source_of_reply_as_peer_witness :
  w_hs_recvfrom world_wrong_reply = RecvOk wrong_reply addr_Q 16 :: [] /\
  (exists t s',
      run (V1.client_handshake world_wrong_reply) v1_client_P = (t, Ok tt s') /\
      V1.server_addr s' = addr_Q /\ V1.serverlen s' = 16 /\
      sent (calls t) = [EvSendto MAGIC_WORD addr_P1 sizeof_sockaddr_in] /\
      receives (calls t) = 1%nat) /\
  (exists t s',
      run (V2.client_handshake world_wrong_reply) v2_relay_P = (t, Ok tt s') /\
      V2.remote_addr s' = addr_Q /\
      sent (calls t) = [EvSendto MAGIC_WORD addr_P sizeof_sockaddr_in]).
Proof.
  split; [reflexivity|].
  destruct (client_takes_source_of_reply_as_peer world_wrong_reply wrong_reply addr_Q 16 []
              v1_client_P v2_relay_P eq_refl) as [H1 (t & r & Hrun & H2)].
  split; [exact H1|].
  cbn in H2. destruct H2 as (Hs & _ & s' & -> & Hr & _).
  exists t, s'. repeat split; assumption.
Defined.

(* ================================================================= *)
(** ** A frame from one interface to the other *)

Lemma sent_data_app {S} (a b : list (event * S)) :
  sent_data (calls (a ++ b)) = sent_data (calls a) ++ sent_data (calls b).
Proof. unfold sent_data, calls. rewrite map_app, flat_map_app. reflexivity. Qed.

Lemma written_app {S} (a b : list (event * S)) :
  written (calls (a ++ b)) = written (calls a) ++ written (calls b).
Proof. unfold written, calls. rewrite map_app, flat_map_app. reflexivity. Qed.

Lemma v1_tap_log_data (it : iteration) (s : V1.machine) :
  sent_data (calls (v1_tap_log it s))
  = [firstn (Z.to_nat BUFSIZE) (V1.buffer (v1_tap_state it s))] /\
  written (calls (v1_tap_log it s)) = [].
Proof. unfold v1_tap_log, sent_data, written. split; dsts_log. Qed.

Lemma v1_sock_log_data (it : iteration) (s : V1.machine) :
  sent_data (calls (v1_sock_log it s)) = [] /\
  written (calls (v1_sock_log it s))
  = [firstn (Z.to_nat BUFSIZE) (V1.buffer (v1_sock_state it s))].
Proof. unfold v1_sock_log, sent_data, written. split; dsts_log. Qed.

Lemma v2_tap_log_data (it : iteration) (s : V2.machine) :
  sent_data (calls (v2_tap_log it s))
  = [firstn (Z.to_nat BUFSIZE) (V2.buffer (v2_tap_state it s))] /\
  written (calls (v2_tap_log it s)) = [].
Proof. unfold v2_tap_log, sent_data, written. split; dsts_log. Qed.

Lemma v2_sock_log_data (it : iteration) (s : V2.machine) :
  sent_data (calls (v2_sock_log it s)) = [] /\
  written (calls (v2_sock_log it s))
  = [firstn (Z.to_nat BUFSIZE) (V2.buffer (v2_sock_state it s))].
Proof. unfold v2_sock_log, sent_data, written. split; dsts_log. Qed.

(** The data a pass sends and writes when [select] succeeds. *)
Lemma v1_pass_data (it : iteration) (s : V1.machine) :
  0 <= sel_ret it ->
  sent_data (calls (fst (run (V1.relay_iteration it) s)))
  = (if sel_tap it then [firstn (Z.to_nat BUFSIZE) (V1.buffer (v1_tap_state it s))]
     else []) /\
  written (calls (fst (run (V1.relay_iteration it) s)))
  = (if sel_sock it
     then [firstn (Z.to_nat BUFSIZE) (V1.buffer (v1_sock_state it (v1_pass_mid it s)))]
     else []).
Proof.
  intros Hret. rewrite (v1_pass_run it s Hret). cbn [fst]. unfold v1_pass_log.
  change ((EvSelect, s) :: ?a ++ ?b) with ([(EvSelect, s)] ++ a ++ b).
  rewrite !sent_data_app, !written_app.
  destruct (v1_tap_log_data it s) as [H1 H2].
  destruct (v1_sock_log_data it (v1_pass_mid it s)) as [H3 H4].
  destruct (sel_tap it), (sel_sock it); rewrite ?H1, ?H2, ?H3, ?H4; split; reflexivity.
Qed.

Lemma v2_pass_data (it : iteration) (s : V2.machine) :
  0 <= sel_ret it ->
  sent_data (calls (fst (run (V2.relay_iteration it) s)))
  = (if sel_tap it then [firstn (Z.to_nat BUFSIZE) (V2.buffer (v2_tap_state it s))]
     else []) /\
  written (calls (fst (run (V2.relay_iteration it) s)))
  = (if sel_sock it
     then [firstn (Z.to_nat BUFSIZE) (V2.buffer (v2_sock_state it (v2_pass_mid it s)))]
     else []).
Proof.
  intros Hret. rewrite (v2_pass_run it s Hret). cbn [fst]. unfold v2_pass_log.
  change ((EvSelect, s) :: ?a ++ ?b) with ([(EvSelect, s)] ++ a ++ b).
  rewrite !sent_data_app, !written_app.
  destruct (v2_tap_log_data it s) as [H1 H2].
  destruct (v2_sock_log_data it (v2_pass_mid it s)) as [H3 H4].
  destruct (sel_tap it), (sel_sock it); rewrite ?H1, ?H2, ?H3, ?H4; split; reflexivity.
Qed.

Lemma v1_tap_state_frame (it : iteration) (s : V1.machine) f :
  tap_read it = ReadOk f ->
  V1.buffer (v1_tap_state it s) = fill BUFSIZE f (V1.buffer s).
Proof. intros H. unfold v1_tap_state, after_read. rewrite H. destruct s. reflexivity. Qed.

Lemma v2_tap_state_frame (it : iteration) (s : V2.machine) f :
  tap_read it = ReadOk f ->
  V2.buffer (v2_tap_state it s) = fill BUFSIZE f (V2.buffer s).
Proof. intros H. unfold v2_tap_state, after_read. rewrite H. destruct s. reflexivity. Qed.

Lemma v1_sock_state_datagram (it : iteration) (s : V1.machine) d src srclen :
  sock_recvfrom it = RecvOk d src srclen ->
  V1.buffer (v1_sock_state it s) = fill BUFSIZE d (V1.buffer s).
Proof.
  intros H. unfold v1_sock_state, after_recv. rewrite H.
  destruct s. cbn [V1.cliserv]. destruct (cliserv =? CLIENT); reflexivity.
Qed.

Lemma v2_sock_state_datagram (it : iteration) (s : V2.machine) d src srclen :
  sock_recvfrom it = RecvOk d src srclen ->
  V2.buffer (v2_sock_state it s) = fill BUFSIZE d (V2.buffer s).
Proof.
  intros H. unfold v2_sock_state, v2_tracked, after_recv. rewrite H.
  destruct s. reflexivity.
Qed.

(** A datagram that fills the buffer replaces all of it. *)
Lemma firstn_fill_whole (d old : list byte) :
  Z.of_nat (List.length d) = BUFSIZE ->
  firstn (Z.to_nat BUFSIZE) (fill BUFSIZE d old) = d.
Proof.
  intros H. unfold fill. rewrite (firstn_all2 (n := Z.to_nat BUFSIZE) d) by lia.
  rewrite firstn_app, firstn_all2 by lia.
  replace (Z.to_nat BUFSIZE - List.length d)%nat with 0%nat by lia.
  cbn [firstn]. apply app_nil_r.
Qed.

(** A frame shorter than the buffer leaves the rest of the buffer as it
    was. *)
Lemma firstn_fill_frame (f old : list byte) :
  Z.of_nat (List.length f) <= BUFSIZE ->
  Z.of_nat (List.length old) = BUFSIZE ->
  firstn (Z.to_nat BUFSIZE) (fill BUFSIZE f old) = f ++ skipn (List.length f) old.
Proof.
  intros Hf Ho. rewrite firstn_bufsize by (apply fill_keeps_bufsize, Ho).
  unfold fill. rewrite (firstn_all2 (n := Z.to_nat BUFSIZE) f) by lia. reflexivity.
Qed.

Lemma frame_in_buffer (f old : list byte) :
  Z.of_nat (List.length f) <= BUFSIZE ->
  Z.of_nat (List.length old) = BUFSIZE ->
  Z.of_nat (List.length (f ++ skipn (List.length f) old)) = BUFSIZE /\
  firstn (List.length f) (f ++ skipn (List.length f) old) = f /\
  skipn (List.length f) (f ++ skipn (List.length f) old) = skipn (List.length f) old.
Proof.
  intros Hf Ho. split; [|split].
  - rewrite length_app, length_skipn. lia.
  - rewrite firstn_app, firstn_all, Nat.sub_diag. cbn [firstn]. apply app_nil_r.
  - rewrite skipn_app, skipn_all, Nat.sub_diag. reflexivity.
Qed.

(** X11: a frame through the tunnel.  When one endpoint reads a frame [f]
    of at most 4096 bytes from its interface, the datagram it sends is
    4096 bytes long: [f], then the bytes its buffer held behind the frame.
    The endpoint that receives this datagram writes exactly these 4096
    bytes to its interface, whatever its own buffer held, so the frame
    arrives unchanged at the head of the block and its length is not
    carried across.  Either endpoint can be of either variant. *)
Theorem relayed_frame_arrives_padded :
  forall (f d : list byte) (itA itB : iteration) (src : sockaddr_in) (srclen : Z)
         (a1 b1 : V1.machine) (a2 b2 : V2.machine),
    0 <= sel_ret itA -> sel_tap itA = true -> tap_read itA = ReadOk f ->
    Z.of_nat (List.length f) <= BUFSIZE ->
    Z.of_nat (List.length (V1.buffer a1)) = BUFSIZE ->
    Z.of_nat (List.length (V2.buffer a2)) = BUFSIZE ->
    In d (sent_data (calls (fst (run (V1.relay_iteration itA) a1))) ++
          sent_data (calls (fst (run (V2.relay_iteration itA) a2)))) ->
    0 <= sel_ret itB -> sel_sock itB = true ->
    sock_recvfrom itB = RecvOk d src srclen ->
    written (calls (fst (run (V1.relay_iteration itB) b1))) = [d] /\
    written (calls (fst (run (V2.relay_iteration itB) b2))) = [d] /\
    Z.of_nat (List.length d) = BUFSIZE /\
    firstn (List.length f) d = f /\
    (skipn (List.length f) d = skipn (List.length f) (V1.buffer a1) \/
     skipn (List.length f) d = skipn (List.length f) (V2.buffer a2)).
Proof.
  intros f d itA itB src srclen a1 b1 a2 b2 HretA HtapA Hread Hf Ha1 Ha2 Hd
         HretB HsockB Hrecv.
  destruct (v1_pass_data itA a1 HretA) as [Hs1 _].
  destruct (v2_pass_data itA a2 HretA) as [Hs2 _].
  rewrite HtapA, (v1_tap_state_frame itA a1 f Hread), (firstn_fill_frame f _ Hf Ha1) in Hs1.
  rewrite HtapA, (v2_tap_state_frame itA a2 f Hread), (firstn_fill_frame f _ Hf Ha2) in Hs2.
  rewrite Hs1, Hs2 in Hd.
  destruct (frame_in_buffer f (V1.buffer a1) Hf Ha1) as (L1 & F1 & K1).
  destruct (frame_in_buffer f (V2.buffer a2) Hf Ha2) as (L2 & F2 & K2).
  assert (Hlen : Z.of_nat (List.length d) = BUFSIZE).
  { destruct Hd as [<-|[<-|[]]]; assumption. }
  destruct (v1_pass_data itB b1 HretB) as [_ Hw1].
  destruct (v2_pass_data itB b2 HretB) as [_ Hw2].
  rewrite HsockB, (v1_sock_state_datagram itB _ d src srclen Hrecv),
    (firstn_fill_whole d _ Hlen) in Hw1.
  rewrite HsockB, (v2_sock_state_datagram itB _ d src srclen Hrecv),
    (firstn_fill_whole d _ Hlen) in Hw2.
  split; [exact Hw1|]. split; [exact Hw2|]. split; [exact Hlen|].
  destruct Hd as [<-|[<-|[]]]; auto.
Qed.

Lemma relayed_frame_arrives_padded_witness :
  0 <= sel_ret pass_frame /\ sel_tap pass_frame = true /\
  tap_read pass_frame = ReadOk frame_45 /\
  Z.of_nat (List.length frame_45) <= BUFSIZE /\
  Z.of_nat (List.length (V1.buffer v1_client_P)) = BUFSIZE /\
  Z.of_nat (List.length (V2.buffer v2_relay_P)) = BUFSIZE /\
  In datagram_45
     (sent_data (calls (fst (run (V1.relay_iteration pass_frame) v1_client_P))) ++
      sent_data (calls (fst (run (V2.relay_iteration pass_frame) v2_relay_P)))) /\
  0 <= sel_ret pass_datagram_45 /\ sel_sock pass_datagram_45 = true /\
  sock_recvfrom pass_datagram_45 = RecvOk datagram_45 addr_P 16 /\
  written (calls (fst (run (V1.relay_iteration pass_datagram_45) v1_client_P)))
  = [datagram_45] /\
  written (calls (fst (run (V2.relay_iteration pass_datagram_45) v2_relay_P)))
  = [datagram_45] /\
  Z.of_nat (List.length datagram_45) = BUFSIZE /\
  firstn (List.length frame_45) datagram_45 = frame_45 /\
  (skipn (List.length frame_45) datagram_45
   = skipn (List.length frame_45) (V1.buffer v1_client_P) \/
   skipn (List.length frame_45) datagram_45
   = skipn (List.length frame_45) (V2.buffer v2_relay_P)).
Proof.
  assert (Hin : In datagram_45
     (sent_data (calls (fst (run (V1.relay_iteration pass_frame) v1_client_P))) ++
      sent_data (calls (fst (run (V2.relay_iteration pass_frame) v2_relay_P))))).
  { left. vm_compute. reflexivity. }
  repeat (split; [first [discriminate | reflexivity | exact Hin
                        | vm_compute; first [discriminate | reflexivity]]|]).
  apply (relayed_frame_arrives_padded frame_45 datagram_45 pass_frame pass_datagram_45
           addr_P 16 v1_client_P v1_client_P v2_relay_P v2_relay_P);
    first [discriminate | reflexivity | exact Hin
          | vm_compute; first [discriminate | reflexivity]].
Defined.

(* ================================================================= *)
(** ** A pass whose transfers fail *)

Lemma v1_pass_state_failed (it : iteration) (s : V1.machine) :
  tap_read it = ReadErr -> sock_recvfrom it = RecvErr ->
  v1_tap_state it s = s /\ v1_pass_mid it s = s /\ v1_pass_state it s = s.
Proof.
  intros Hr Hv.
  assert (Ht : v1_tap_state it s = s) by (unfold v1_tap_state; rewrite Hr; reflexivity).
  assert (Hm : v1_pass_mid it s = s)
    by (unfold v1_pass_mid; rewrite Ht; destruct (sel_tap it); reflexivity).
  split; [exact Ht|]. split; [exact Hm|].
  unfold v1_pass_state, v1_sock_state. rewrite Hm, Hv. cbn [after_recv].
  destruct (sel_sock it), (V1.cliserv s =? CLIENT); reflexivity.
Qed.

(** X12: a pass in which [read] and [recvfrom] fail still forwards: the
    tap branch sends the 4096 bytes the buffer already held to the peer,
    and the socket branch writes them to the interface; the buffer is not
    changed.  In v1 no variable changes at all.  In v2 the socket branch
    then assigns [read_addr] to the tracked peer although nothing was
    received, so the peer becomes the source of the last datagram of the
    relay loop, or what [read_addr] held at the start. *)
Theorem failed_read_or_recvfrom_forwards_old_buffer :
  forall (it : iteration) (s1 : V1.machine) (s2 : V2.machine),
    0 <= sel_ret it ->
    tap_read it = ReadErr ->
    sock_recvfrom it = RecvErr ->
    Z.of_nat (List.length (V1.buffer s1)) = BUFSIZE ->
    Z.of_nat (List.length (V2.buffer s2)) = BUFSIZE ->
    (exists t,
        run (V1.relay_iteration it) s1 = (t, Ok tt s1) /\
        sent_data (calls t) = (if sel_tap it then [V1.buffer s1] else []) /\
        written (calls t) = (if sel_sock it then [V1.buffer s1] else [])) /\
    (exists t s',
        run (V2.relay_iteration it) s2 = (t, Ok tt s') /\
        sent_data (calls t) = (if sel_tap it then [V2.buffer s2] else []) /\
        written (calls t) = (if sel_sock it then [V2.buffer s2] else []) /\
        V2.buffer s' = V2.buffer s2 /\
        V2.remote_addr s'
        = (if sel_sock it then V2.read_addr s2 else V2.remote_addr s2) /\
        sendto_dsts (calls t) = (if sel_tap it then [V2.remote_addr s2] else [])).
Proof.
  intros it s1 s2 Hret Hr Hv Hb1 Hb2. split.
  - destruct (v1_pass_state_failed it s1 Hr Hv) as (Ht & Hm & Hs).
    exists (v1_pass_log it s1). split.
    + rewrite (v1_pass_run it s1 Hret), Hs. reflexivity.
    + destruct (v1_pass_data it s1 Hret) as [Hd Hw].
      rewrite (v1_pass_run it s1 Hret) in Hd, Hw. cbn [fst] in Hd, Hw.
      rewrite Hd, Hw, Hm, Ht.
      assert (Hk : v1_sock_state it s1 = s1).
      { unfold v1_sock_state. rewrite Hv. cbn [after_recv].
        destruct (V1.cliserv s1 =? CLIENT); reflexivity. }
      rewrite Hk, (firstn_bufsize _ Hb1). split; reflexivity.
  - exists (v2_pass_log it s2), (v2_pass_state it s2).
    split; [apply v2_pass_run, Hret|].
    destruct (v2_pass_data it s2 Hret) as [Hd Hw].
    rewrite (v2_pass_run it s2 Hret) in Hd, Hw. cbn [fst] in Hd, Hw.
    rewrite Hd, Hw, v2_pass_log_dsts.
    unfold v2_pass_state, v2_pass_mid, v2_sock_state, v2_tracked, v2_tap_state.
    rewrite Hr, Hv. cbn [after_read after_recv].
    destruct s2. cbn [V2.buffer] in Hb2.
    destruct (sel_tap it), (sel_sock it); cbn; rewrite ?(firstn_bufsize _ Hb2);
      repeat split; reflexivity.
Qed.

Lemma failed_read_or_recvfrom_forwards_old_buffer_witness :
  0 <= sel_ret pass_all_fail /\
  tap_read pass_all_fail = ReadErr /\
  sock_recvfrom pass_all_fail = RecvErr /\
  Z.of_nat (List.length (V1.buffer v1_client_P)) = BUFSIZE /\
  Z.of_nat (List.length (V2.buffer v2_relay_P)) = BUFSIZE /\
  (exists t,
      run (V1.relay_iteration pass_all_fail) v1_client_P = (t, Ok tt v1_client_P) /\
      sent_data (calls t) = [zeros] /\ written (calls t) = [zeros]) /\
  (exists t s',
      run (V2.relay_iteration pass_all_fail) v2_relay_P = (t, Ok tt s') /\
      sent_data (calls t) = [zeros] /\ written (calls t) = [zeros] /\
      V2.remote_addr v2_relay_P = addr_P /\
      V2.remote_addr s' = zero_sockaddr).
Proof.
  split; [discriminate|]. split; [reflexivity|]. split; [reflexivity|].
  split; [vm_compute; reflexivity|]. split; [vm_compute; reflexivity|].
  destruct (failed_read_or_recvfrom_forwards_old_buffer pass_all_fail v1_client_P v2_relay_P)
    as [H1 (t & s' & Hrun & Hd & Hw & _ & Hp & _)];
    try first [discriminate | reflexivity | vm_compute; reflexivity].
  split; [exact H1|].
  exists t, s'. repeat split; assumption.
Defined.

(* ================================================================= *)
(** ** The message after [read] and [recvfrom] *)

(** [if(read(...))] and [if(recvfrom(...))] test the return value against
    0: the test holds for an error and for every transfer of at least one
    byte. *)
Lemma read_ret_nonzero (r : read_result) : c_true (read_ret r) = negb (empty_read r).
Proof.
  destruct r as [|[|b f]]; reflexivity.
Qed.

Lemma recv_ret_nonzero (r : recv_result) : c_true (recv_ret r) = negb (empty_datagram r).
Proof.
  destruct r as [|[|b f] src srclen]; reflexivity.
Qed.

Ltac in_log :=
  cbn [negb];
  repeat match goal with
         | |- context [if ?c then _ else _] => destruct c
         end;
  cbn [calls map fst app In negb];
  intuition (try discriminate; try congruence).

Lemma v1_tap_log_read_message (it : iteration) (s : V1.machine) :
  In (EvPerror "read") (calls (v1_tap_log it s)) <-> empty_read (tap_read it) = false.
Proof.
  unfold v1_tap_log. rewrite read_ret_nonzero.
  destruct (empty_read (tap_read it)); in_log.
Qed.

Lemma v1_sock_log_read_message (it : iteration) (s : V1.machine) :
  In (EvPerror "read") (calls (v1_sock_log it s))
  <-> empty_datagram (sock_recvfrom it) = false.
Proof.
  unfold v1_sock_log. rewrite recv_ret_nonzero.
  destruct (empty_datagram (sock_recvfrom it)); in_log.
Qed.

Lemma v2_tap_log_read_message (it : iteration) (s : V2.machine) :
  (In (EvPerror "read from virtual") (calls (v2_tap_log it s))
   <-> empty_read (tap_read it) = false) /\
  ~ In (EvPerror "read from network") (calls (v2_tap_log it s)).
Proof.
  unfold v2_tap_log. rewrite read_ret_nonzero.
  destruct (empty_read (tap_read it)); in_log.
Qed.

Lemma v2_sock_log_read_message (it : iteration) (s : V2.machine) :
  (In (EvPerror "read from network") (calls (v2_sock_log it s))
   <-> empty_datagram (sock_recvfrom it) = false) /\
  ~ In (EvPerror "read from virtual") (calls (v2_sock_log it s)).
Proof.
  unfold v2_sock_log. rewrite recv_ret_nonzero.
  destruct (empty_datagram (sock_recvfrom it)); in_log.
Qed.

(** X13: in a pass whose [select] succeeds, [perror] is called after
    [read] and after [recvfrom] exactly when the call returned a value
    other than 0: for an error, and just as much for every frame and every
    datagram of at least one byte that was transferred.  Only a transfer of
    0 bytes passes without the message.  v1 prints ["read"] for both
    calls, v2 a message of its own for each. *)
Theorem transfer_of_data_is_reported_like_an_error :
  forall (it : iteration) (s1 : V1.machine) (s2 : V2.machine),
    0 <= sel_ret it ->
    (In (EvPerror "read") (calls (fst (run (V1.relay_iteration it) s1)))
     <-> (sel_tap it = true /\ empty_read (tap_read it) = false) \/
         (sel_sock it = true /\ empty_datagram (sock_recvfrom it) = false)) /\
    (In (EvPerror "read from virtual") (calls (fst (run (V2.relay_iteration it) s2)))
     <-> sel_tap it = true /\ empty_read (tap_read it) = false) /\
    (In (EvPerror "read from network") (calls (fst (run (V2.relay_iteration it) s2)))
     <-> sel_sock it = true /\ empty_datagram (sock_recvfrom it) = false).
Proof.
  intros it s1 s2 Hret.
  rewrite (v1_pass_run it s1 Hret), (v2_pass_run it s2 Hret). cbn [fst].
  unfold v1_pass_log, v2_pass_log.
  change ((EvSelect, s1) :: ?a ++ ?b) with ([(EvSelect, s1)] ++ a ++ b).
  change ((EvSelect, s2) :: ?a ++ ?b) with ([(EvSelect, s2)] ++ a ++ b).
  rewrite !calls_app, !in_app_iff.
  pose proof (v1_tap_log_read_message it s1) as T1.
  pose proof (v1_sock_log_read_message it (v1_pass_mid it s1)) as S1.
  destruct (v2_tap_log_read_message it s2) as [T2 T2'].
  destruct (v2_sock_log_read_message it (v2_pass_mid it s2)) as [S2 S2'].
  destruct (sel_tap it), (sel_sock it); cbn [calls map fst In];
    intuition (try discriminate; try congruence).
Qed.

Lemma transfer_of_data_is_reported_like_an_error_witness :
  0 <= sel_ret pass_both_ready /\
  tap_read pass_both_ready = ReadOk [x45; x00] /\
  In (EvPerror "read")
     (calls (fst (run (V1.relay_iteration pass_both_ready) v1_client_P))) /\
  In (EvPerror "read from virtual")
     (calls (fst (run (V2.relay_iteration pass_both_ready) v2_relay_P))) /\
  In (EvPerror "read from network")
     (calls (fst (run (V2.relay_iteration pass_both_ready) v2_relay_P))).
Proof.
  split; [discriminate|]. split; [reflexivity|].
  destruct (transfer_of_data_is_reported_like_an_error pass_both_ready v1_client_P
              v2_relay_P) as (H1 & H2 & H3); [discriminate|].
  split; [apply H1; left; split; reflexivity|].
  split; [apply H2; split; reflexivity|apply H3; split; reflexivity].
Defined.

(* ================================================================= *)
(** ** From the command line to the relay loop *)

Lemma v1_session_established (w : world) more src srclen rest (s : V1.machine) :
  0 <= w_setsockopt w ->
  0 <= w_bind w ->
  w_hs_recvfrom w = RecvOk (MAGIC_WORD ++ more) src srclen :: rest ->
  exit_status (snd (run (v1_session w) s))
  = (if existsb fatal (w_relay w) then Some 1 else None) /\
  relaying (snd (run (v1_session w) s)) = negb (existsb fatal (w_relay w)).
Proof.
  intros Hso Hb Hrs. unfold v1_session. rewrite run_gets_bind.
  assert (Hhs : exists t s',
             run (if V1.cliserv s =? CLIENT then V1.client_handshake w
                  else V1.server_handshake w) s = (t, Ok tt s')).
  { destruct (V1.cliserv s =? CLIENT).
    - destruct (v1_client_handshake_reply w _ src srclen rest s Hrs) as (t & s' & H & _).
      eauto.
    - destruct (v1_server_accepts w [] more src srclen rest s Hso Hb Hrs eq_refl)
        as (t & s' & H & _).
      eauto. }
  destruct Hhs as (t & s' & Hrun). rewrite (run_bind_ok _ _ _ _ _ _ Hrun). cbn [snd].
  destruct (v1_loop_outcome (w_relay w) s') as (H1 & H2 & _). auto.
Qed.

Lemma v2_session_established (w : world) more src srclen rest (s : V2.machine) :
  0 <= w_setsockopt w ->
  0 <= w_bind w ->
  w_hs_recvfrom w = RecvOk (MAGIC_WORD ++ more) src srclen :: rest ->
  exit_status (snd (run (v2_session w) s))
  = (if existsb fatal (w_relay w) then Some 1 else None) /\
  relaying (snd (run (v2_session w) s)) = negb (existsb fatal (w_relay w)).
Proof.
  intros Hso Hb Hrs. unfold v2_session. rewrite run_gets_bind.
  assert (Hhs : exists t s',
             run (if V2.cliserv s =? CLIENT then V2.client_handshake w
                  else V2.server_handshake w) s = (t, Ok tt s')).
  { destruct (V2.cliserv s =? CLIENT).
    - destruct (v2_client_handshake_reply w _ src srclen rest s Hrs) as (t & r & H & Hr).
      apply Z.ltb_ge in Hb. rewrite Hb in Hr.
      destruct Hr as (_ & _ & Hr).
      change (hd (hd x00 (V2.buffer s)) (MAGIC_WORD ++ more)) with "W"%byte in Hr.
      cbn [Byte.eqb] in Hr. destruct Hr as (s' & -> & _). eauto.
    - destruct (v2_server_accepts w more src srclen rest s Hso Hb Hrs) as (t & s' & H & _).
      eauto. }
  destruct Hhs as (t & s' & Hrun). rewrite (run_bind_ok _ _ _ _ _ _ Hrun). cbn [snd].
  destruct (v2_loop_outcome (w_relay w) s') as (H1 & H2 & _). auto.
Qed.

(** X14: from the command line to the relay loop.  When the command line
    is accepted, the device and the socket open, [setsockopt] and [bind]
    succeed and the first datagram that arrives begins with the magic
    word, [main] of both variants, in either role, completes the handshake
    and enters the relay loop.  From then on it ends only if a [select]
    fails with an error other than [EINTR], with status 1; otherwise it is
    still relaying after any number of passes. *)
Theorem established_session_relays_until_select_fails :
  forall (w : world) (more : list byte) (src : sockaddr_in) (srclen : Z)
         (rest : list recv_result) (s1 : V1.machine) (s2 : V2.machine),
    v1_config_ok w s1 = true ->
    v2_config_ok w s2 = true ->
    devices_fail w = false ->
    0 <= w_setsockopt w ->
    0 <= w_bind w ->
    w_hs_recvfrom w = RecvOk (MAGIC_WORD ++ more) src srclen :: rest ->
    exit_status (snd (run (V1.main w) s1))
    = (if existsb fatal (w_relay w) then Some 1 else None) /\
    relaying (snd (run (V1.main w) s1)) = negb (existsb fatal (w_relay w)) /\
    exit_status (snd (run (V2.main w) s2))
    = (if existsb fatal (w_relay w) then Some 1 else None) /\
    relaying (snd (run (V2.main w) s2)) = negb (existsb fatal (w_relay w)).
Proof.
  intros w more src srclen rest s1 s2 Hok1 Hok2 Hdev Hso Hb Hrs.
  destruct (v1_main_session w s1 Hok1 Hdev) as (t1 & _ & _ & Hrun1).
  destruct (v2_main_session w s2 Hok2 Hdev) as (t2 & _ & _ & Hrun2).
  rewrite Hrun1, Hrun2. cbn [snd].
  destruct (v1_session_established w more src srclen rest (v1_ready w s1) Hso Hb Hrs).
  destruct (v2_session_established w more src srclen rest (v2_ready w s2) Hso Hb Hrs).
  auto.
Qed.

Lemma established_session_relays_until_select_fails_witness :
  v1_config_ok world_server_Q v1_stack = true /\
  v2_config_ok world_server_Q v2_stack = true /\
  devices_fail world_server_Q = false /\
  0 <= w_setsockopt world_server_Q /\
  0 <= w_bind world_server_Q /\
  w_hs_recvfrom world_server_Q = RecvOk (MAGIC_WORD ++ []) addr_Q 16 :: [] /\
  exit_status (snd (run (V1.main world_server_Q) v1_stack))
  = (if existsb fatal (w_relay world_server_Q) then Some 1 else None) /\
  relaying (snd (run (V1.main world_server_Q) v1_stack))
  = negb (existsb fatal (w_relay world_server_Q)) /\
  exit_status (snd (run (V2.main world_server_Q) v2_stack))
  = (if existsb fatal (w_relay world_server_Q) then Some 1 else None) /\
  relaying (snd (run (V2.main world_server_Q) v2_stack))
  = negb (existsb fatal (w_relay world_server_Q)).
Proof.
  split; [reflexivity|]. split; [reflexivity|]. split; [reflexivity|].
  split; [discriminate|]. split; [discriminate|]. split; [reflexivity|].
  apply (established_session_relays_until_select_fails world_server_Q [] addr_Q 16 []
           v1_stack v2_stack); first [discriminate | reflexivity].
Defined.

(* ================================================================= *)
(** ** The input and output helpers of v1 *)





Section InputHelpers.

Context {St : Type} (buf : var St (list byte)).
Hypothesis buf_get_put : forall (v : list byte) (s : St), rd buf (wr buf v s) = v.

Lemma cread_run (off : nat) (n : Z) (r : read_result) (s : St) :
  run (cread buf off n r) s =
  match r with
  | ReadErr => ([(EvRead n, s); (EvPerror "Reading data", s)], Exited 1 s)
  | ReadOk frame =>
      ([(EvRead n, s)],
       Ok (Z.of_nat (List.length (firstn (Z.to_nat n) frame)))
          (wr buf (splice off (firstn (Z.to_nat n) frame) (rd buf s)) s))
  end.
Proof.
  destruct r as [|frame]; [reflexivity|].
  unfold cread, read_at. mred. rewrite recv_count_not_negative.
  unfold splice, fill. rewrite skipn_skipn, (Nat.add_comm off). reflexivity.
Qed.

Lemma cwrite_run (data : list byte) (n r : Z) (s : St) :
  run (cwrite data n r) s =
  if r <? 0
  then ([(EvWrite (firstn (Z.to_nat n) data), s); (EvPerror "Writing data", s)],
        Exited 1 s)
  else ([(EvWrite (firstn (Z.to_nat n) data), s)], Ok r s).
Proof. unfold cwrite. mred. destruct (r <? 0); reflexivity. Qed.


End InputHelpers.



(** Three bytes from two reads: one byte, then the first two of three. *)
Example read_n_collects_two_reads :
  exists t s',
    run (read_n V1.buffer_ 3 two_reads) v1_stack = (t, Ok (Some 3) s') /\
    calls t = [EvRead 3; EvRead 2] /\
    firstn 4 (V1.buffer s') = [x45; x00; x28; x00].
Proof. do 2 eexists. split; [vm_compute; reflexivity|]. split; reflexivity. Qed.

(** X16: [cread] and [cwrite] never return a negative value.  When the
    call fails they print their message and exit with status 1, leaving
    the variables alone; otherwise they return what [read] or [write]
    returned, for [cread] a count between 0 and the count asked for. *)
Theorem cread_cwrite_return_or_exit :
  forall (St : Type) (buf : var St (list byte)) (off : nat) (n : Z) (r : read_result)
         (data : list byte) (w : Z) (s : St),
    (exists t res,
        run (cread buf off n r) s = (t, res) /\
        if read_failed r then
          res = Exited 1 s /\ calls t = [EvRead n; EvPerror "Reading data"]
        else
          exists v s', res = Ok v s' /\ 0 <= v <= Z.max 0 n /\ calls t = [EvRead n]) /\
    (exists t res,
        run (cwrite data n w) s = (t, res) /\
        if w <? 0 then
          res = Exited 1 s /\
          calls t = [EvWrite (firstn (Z.to_nat n) data); EvPerror "Writing data"]
        else
          res = Ok w s /\ calls t = [EvWrite (firstn (Z.to_nat n) data)]).
Proof.
  intros St buf off n r data w s. split.
  - rewrite cread_run. destruct r as [|frame]; cbn [read_failed].
    + do 2 eexists. split; [reflexivity|]. split; reflexivity.
    + do 2 eexists. split; [reflexivity|]. do 2 eexists. split; [reflexivity|].
      split; [|reflexivity]. rewrite length_firstn. lia.
  - rewrite cwrite_run. destruct (w <? 0); do 2 eexists; split; try reflexivity;
      split; reflexivity.
Qed.

(* ================================================================= *)
(** ** How [main] ends *)























(* ================================================================= *)
(** ** A handshake that is not answered *)

Lemma run_bind_blocked {S A B} (m : M S A) (f : A -> M S B) s t wp s' :
  run m s = (t, Blocked wp s') -> run (bind m f) s = (t, Blocked wp s').
Proof. unfold run, bind. intros ->. reflexivity. Qed.

Lemma v1_client_handshake_waits (w : world) (s : V1.machine) :
  w_hs_recvfrom w = [] ->
  exists t s',
    run (V1.client_handshake w) s = (t, Blocked InHandshake s') /\
    sends (calls t) = 1%nat /\ receives (calls t) = 1%nat.
Proof.
  intros Hrs. destruct s. mred_hs. rewrite Hrs. mcase_hs;
    do 2 eexists; repeat split; reflexivity.
Qed.

Lemma v2_client_handshake_waits (w : world) (s : V2.machine) :
  0 <= w_bind w ->
  w_hs_recvfrom w = [] ->
  exists t s',
    run (V2.client_handshake w) s = (t, Blocked InHandshake s') /\
    sends (calls t) = 1%nat /\ receives (calls t) = 1%nat.
Proof.
  intros Hb Hrs. apply Z.ltb_ge in Hb. destruct s. mred_hs. rewrite Hrs. mred.
  destruct (w_inet_aton w server_ip); mred; rewrite Hb; mcase_hs;
    do 2 eexists; repeat split; reflexivity.
Qed.

Lemma v1_server_handshake_waits (w : world) (s : V1.machine) :
  0 <= w_setsockopt w ->
  0 <= w_bind w ->
  w_hs_recvfrom w = [] ->
  exists t s',
    run (V1.server_handshake w) s = (t, Blocked InHandshake s') /\
    sends (calls t) = 0%nat /\ receives (calls t) = 1%nat.
Proof.
  intros Hso Hb Hrs. rewrite (v1_server_handshake_split w s Hso Hb), Hrs.
  do 2 eexists. repeat split; reflexivity.
Qed.

Lemma v2_server_handshake_waits (w : world) (s : V2.machine) :
  0 <= w_setsockopt w ->
  0 <= w_bind w ->
  w_hs_recvfrom w = [] ->
  exists t s',
    run (V2.server_handshake w) s = (t, Blocked InHandshake s') /\
    sends (calls t) = 0%nat /\ receives (calls t) = 1%nat.
Proof.
  intros Hso Hb Hrs. rewrite (v2_server_handshake_split w s Hso Hb), Hrs.
  do 2 eexists. repeat split; reflexivity.
Qed.

Lemma v1_session_waits (w : world) (s : V1.machine) :
  0 <= w_setsockopt w ->
  0 <= w_bind w ->
  w_hs_recvfrom w = [] ->
  exists t s',
    run (v1_session w) s = (t, Blocked InHandshake s') /\
    sends (calls t) = Nat.b2n (V1.cliserv s =? CLIENT) /\
    receives (calls t) = 1%nat.
Proof.
  intros Hso Hb Hrs. unfold v1_session. rewrite run_gets_bind.
  destruct (V1.cliserv s =? CLIENT).
  - destruct (v1_client_handshake_waits w s Hrs) as (t & s' & Hrun & H1 & H2).
    exists t, s'. split; [apply run_bind_blocked, Hrun|auto].
  - destruct (v1_server_handshake_waits w s Hso Hb Hrs) as (t & s' & Hrun & H1 & H2).
    exists t, s'. split; [apply run_bind_blocked, Hrun|auto].
Qed.

Lemma v2_session_waits (w : world) (s : V2.machine) :
  0 <= w_setsockopt w ->
  0 <= w_bind w ->
  w_hs_recvfrom w = [] ->
  exists t s',
    run (v2_session w) s = (t, Blocked InHandshake s') /\
    sends (calls t) = Nat.b2n (V2.cliserv s =? CLIENT) /\
    receives (calls t) = 1%nat.
Proof.
  intros Hso Hb Hrs. unfold v2_session. rewrite run_gets_bind.
  destruct (V2.cliserv s =? CLIENT).
  - destruct (v2_client_handshake_waits w s Hb Hrs) as (t & s' & Hrun & H1 & H2).
    exists t, s'. split; [apply run_bind_blocked, Hrun|auto].
  - destruct (v2_server_handshake_waits w s Hso Hb Hrs) as (t & s' & Hrun & H1 & H2).
    exists t, s'. split; [apply run_bind_blocked, Hrun|auto].
Qed.

Lemma setup_calls_no_transfer {S} (t : list (event * S)) :
  only_setup t ->
  sends (calls t) = 0%nat /\ receives (calls t) = 0%nat /\
  reads (calls t) = 0%nat /\ writes (calls t) = 0%nat.
Proof.
  unfold only_setup, sends, receives, reads, writes.
  induction (calls t) as [|e l IH]; [auto|].
  cbn [forallb]. intros H. apply andb_true_iff in H. destruct H as [He Hl].
  destruct (IH Hl) as (H1 & H2 & H3 & H4).
  destruct e; try discriminate He; cbn; auto.
Qed.

(** X18: the magic word is sent once and never again.  When the command
    line is accepted, the set-up succeeds and no datagram arrives, [main]
    of both variants is blocked in the [recvfrom] of the handshake for
    ever: there is no timeout and no retry.  Up to then the client has
    sent one datagram and the server none, and the relay loop has not
    started. *)
Theorem lost_magic_word_blocks_the_handshake :
  forall (w : world) (s1 : V1.machine) (s2 : V2.machine),
    v1_config_ok w s1 = true ->
    v2_config_ok w s2 = true ->
    devices_fail w = false ->
    0 <= w_setsockopt w ->
    0 <= w_bind w ->
    w_hs_recvfrom w = [] ->
    waiting (snd (run (V1.main w) s1)) = true /\
    waiting (snd (run (V2.main w) s2)) = true /\
    sends (calls (fst (run (V1.main w) s1)))
    = Nat.b2n (match last_mode (w_getopt w) with
               | Some m => m =? CLIENT
               | None => false
               end) /\
    sends (calls (fst (run (V2.main w) s2)))
    = Nat.b2n (match last_mode (w_getopt w) with
               | Some m => m =? CLIENT
               | None => false
               end) /\
    receives (calls (fst (run (V1.main w) s1))) = 1%nat /\
    receives (calls (fst (run (V2.main w) s2))) = 1%nat.
Proof.
  intros w s1 s2 Hok1 Hok2 Hdev Hso Hb Hrs.
  destruct (v1_main_session w s1 Hok1 Hdev) as (t1 & Ht1 & _ & Hrun1).
  destruct (v2_main_session w s2 Hok2 Hdev) as (t2 & Ht2 & _ & Hrun2).
  destruct (setup_calls_no_transfer t1 Ht1) as (A1 & A2 & _).
  destruct (setup_calls_no_transfer t2 Ht2) as (B1 & B2 & _).
  destruct (v1_session_waits w (v1_ready w s1) Hso Hb Hrs) as (u1 & r1 & Hs1 & C1 & C2).
  destruct (v2_session_waits w (v2_ready w s2) Hso Hb Hrs) as (u2 & r2 & Hs2 & D1 & D2).
  destruct (v1_parsed_fields (w_getopt w) (v1_init s1)) as (_ & M1 & _).
  destruct (v2_parsed_fields w (w_getopt w) (v2_init s2)) as (_ & M2 & _).
  assert (R1 : (V1.cliserv (v1_ready w s1) =? CLIENT)
               = match last_mode (w_getopt w) with
                 | Some m => m =? CLIENT
                 | None => false
                 end).
  { change (V1.cliserv (v1_ready w s1))
      with (V1.cliserv (fold_left v1_option_effect (w_getopt w) (v1_init s1))).
    rewrite M1. destruct (last_mode (w_getopt w)); [reflexivity|].
    destruct s1; reflexivity. }
  assert (R2 : (V2.cliserv (v2_ready w s2) =? CLIENT)
               = match last_mode (w_getopt w) with
                 | Some m => m =? CLIENT
                 | None => false
                 end).
  { change (V2.cliserv (v2_ready w s2))
      with (V2.cliserv (fold_left (v2_option_effect w) (w_getopt w) (v2_init s2))).
    rewrite M2. destruct (last_mode (w_getopt w)); [reflexivity|].
    destruct s2; reflexivity. }
  rewrite Hrun1, Hrun2, Hs1, Hs2. cbn [fst snd waiting].
  unfold sends, receives in *. rewrite !count_calls_app.
  rewrite A1, A2, B1, B2, C1, C2, D1, D2, R1, R2.
  repeat split; reflexivity.
Qed.

Lemma lost_magic_word_blocks_the_handshake_witness :
  v1_config_ok world_unanswered v1_stack = true /\
  v2_config_ok world_unanswered v2_stack = true /\
  devices_fail world_unanswered = false /\
  0 <= w_setsockopt world_unanswered /\
  0 <= w_bind world_unanswered /\
  w_hs_recvfrom world_unanswered = [] /\
  waiting (snd (run (V1.main world_unanswered) v1_stack)) = true /\
  waiting (snd (run (V2.main world_unanswered) v2_stack)) = true /\
  sends (calls (fst (run (V1.main world_unanswered) v1_stack))) = 1%nat /\
  sends (calls (fst (run (V2.main world_unanswered) v2_stack))) = 1%nat /\
  receives (calls (fst (run (V1.main world_unanswered) v1_stack))) = 1%nat /\
  receives (calls (fst (run (V2.main world_unanswered) v2_stack))) = 1%nat.
Proof.
  split; [reflexivity|]. split; [reflexivity|]. split; [reflexivity|].
  split; [discriminate|]. split; [discriminate|]. split; [reflexivity|].
  apply (lost_magic_word_blocks_the_handshake world_unanswered v1_stack v2_stack);
    first [discriminate | reflexivity].
Defined.

(* ================================================================= *)
(** ** The packet counters of v2 *)

Lemma int_wrap_small (z : Z) : - 2 ^ 31 <= z < 2 ^ 31 -> int_wrap z = z.
Proof. intros H. unfold int_wrap. rewrite Z.mod_small; lia. Qed.

Lemma numbered_app {S} (fmt : string) (a b : list (event * S)) :
  numbered fmt (calls (a ++ b)) = numbered fmt (calls a) ++ numbered fmt (calls b).
Proof. unfold numbered, calls. rewrite map_app, flat_map_app. reflexivity. Qed.

Lemma count_from_cons (c : Z) (n : nat) : count_from c (S n) = c :: count_from (c + 1) n.
Proof.
  unfold count_from. cbn [seq map]. rewrite Z.add_0_r. f_equal.
  rewrite <- seq_shift, map_map. apply map_ext. intros i. lia.
Qed.

Lemma v2_tap_log_numbers (it : iteration) (s : V2.machine) :
  numbered "Get packet from virtual -> real NIC %d\n" (calls (v2_tap_log it s))
  = [V2.tap_count s] /\
  numbered "Get packet from real -> virtual NIC %d\n" (calls (v2_tap_log it s)) = [].
Proof. unfold v2_tap_log, numbered. split; dsts_log. Qed.

Lemma v2_sock_log_numbers (it : iteration) (s : V2.machine) :
  numbered "Get packet from virtual -> real NIC %d\n" (calls (v2_sock_log it s)) = [] /\
  numbered "Get packet from real -> virtual NIC %d\n" (calls (v2_sock_log it s))
  = [V2.sock_count s].
Proof. unfold v2_sock_log, numbered. split; dsts_log. Qed.

Lemma v2_pass_counters (it : iteration) (s : V2.machine) :
  V2.tap_count (v2_pass_state it s)
  = (if sel_tap it then int_wrap (V2.tap_count s + 1) else V2.tap_count s) /\
  V2.sock_count (v2_pass_state it s)
  = (if sel_sock it then int_wrap (V2.sock_count s + 1) else V2.sock_count s) /\
  numbered "Get packet from virtual -> real NIC %d\n" (calls (v2_pass_log it s))
  = (if sel_tap it then [V2.tap_count s] else []) /\
  numbered "Get packet from real -> virtual NIC %d\n" (calls (v2_pass_log it s))
  = (if sel_sock it then [V2.sock_count s] else []).
Proof.
  assert (Hc : forall s0 : V2.machine,
             V2.tap_count (v2_tap_state it s0) = int_wrap (V2.tap_count s0 + 1) /\
             V2.sock_count (v2_tap_state it s0) = V2.sock_count s0 /\
             V2.tap_count (v2_sock_state it s0) = V2.tap_count s0 /\
             V2.sock_count (v2_sock_state it s0) = int_wrap (V2.sock_count s0 + 1)).
  { intros s0. unfold v2_sock_state, v2_tracked, v2_tap_state, after_read, after_recv.
    destruct s0, (tap_read it), (sock_recvfrom it); repeat split; reflexivity. }
  destruct (Hc s) as (A1 & A2 & A3 & A4).
  destruct (Hc (v2_tap_state it s)) as (_ & _ & B3 & B4).
  destruct (v2_tap_log_numbers it s) as [T1 T2].
  destruct (v2_sock_log_numbers it s) as [S1 S2].
  destruct (v2_sock_log_numbers it (v2_tap_state it s)) as [S3 S4].
  unfold v2_pass_state, v2_pass_log. unfold v2_pass_mid.
  change ((EvSelect, s) :: ?a ++ ?b) with ([(EvSelect, s)] ++ a ++ b).
  rewrite !numbered_app.
  change (numbered ?f (calls [(EvSelect, s)])) with (@nil Z).
  destruct (sel_tap it), (sel_sock it);
    rewrite ?T1, ?T2, ?S1, ?S2, ?S3, ?S4, ?B3, ?B4, ?A1, ?A2, ?A3, ?A4;
    repeat split; reflexivity.
Qed.

(** X19: the two packet counters of v2 count calls: from counters that are
    not negative and far enough below [INT_MAX], after any number of
    passes [tap_count] has grown by the number of [read] calls and
    [sock_count] by the number of [recvfrom] calls of the relay loop,
    whether the calls and the transfers that follow them succeeded or
    not.  The numbers printed with the two messages are the values before
    each increment, consecutive and without gaps. *)
Theorem v2_counters_number_the_transfers :
  forall (its : list iteration) (s : V2.machine),
    0 <= V2.tap_count s ->
    0 <= V2.sock_count s ->
    V2.tap_count s + Z.of_nat (List.length its) < 2 ^ 31 ->
    V2.sock_count s + Z.of_nat (List.length its) < 2 ^ 31 ->
    V2.tap_count (final (snd (run (V2.relay_loop its) s)))
    = V2.tap_count s + Z.of_nat (reads (calls (fst (run (V2.relay_loop its) s)))) /\
    V2.sock_count (final (snd (run (V2.relay_loop its) s)))
    = V2.sock_count s + Z.of_nat (receives (calls (fst (run (V2.relay_loop its) s)))) /\
    numbered "Get packet from virtual -> real NIC %d\n"
             (calls (fst (run (V2.relay_loop its) s)))
    = count_from (V2.tap_count s) (reads (calls (fst (run (V2.relay_loop its) s)))) /\
    numbered "Get packet from real -> virtual NIC %d\n"
             (calls (fst (run (V2.relay_loop its) s)))
    = count_from (V2.sock_count s) (receives (calls (fst (run (V2.relay_loop its) s)))).
Proof.
  intros its.
  induction its as [|it its IH]; intros s Ht Hs Htb Hsb.
  - cbn. rewrite !Z.add_0_r. repeat split; reflexivity.
  - cbn [List.length] in Htb, Hsb.
    destruct (Z.lt_ge_cases (sel_ret it) 0) as [Hret|Hret].
    + destruct (Z.eq_dec (sel_errno it) EINTR) as [Herr|Herr].
      * rewrite (v2_loop_step it its _ _ _ (v2_pass_interrupted it s Hret Herr)).
        cbn [fst snd app].
        destruct (IH s Ht Hs ltac:(lia) ltac:(lia)) as (H1 & H2 & H3 & H4).
        repeat split; assumption.
      * rewrite (v2_loop_exit it its _ _ _ _ (v2_pass_fatal it s Hret Herr)).
        cbn. rewrite !Z.add_0_r. repeat split; reflexivity.
    + rewrite (v2_loop_step it its _ _ _ (v2_pass_run it s Hret)).
      cbn [fst snd].
      destruct (v2_pass_counters it s) as (P1 & P2 & P3 & P4).
      destruct (v2_pass_log_counts it s) as (C1 & C2 & _).
      assert (Q1 : V2.tap_count (v2_pass_state it s)
                   = V2.tap_count s + Z.of_nat (reads (calls (v2_pass_log it s)))).
      { rewrite P1, C1. destruct (sel_tap it); [apply int_wrap_small|]; lia. }
      assert (Q2 : V2.sock_count (v2_pass_state it s)
                   = V2.sock_count s + Z.of_nat (receives (calls (v2_pass_log it s)))).
      { rewrite P2, C2. destruct (sel_sock it); [apply int_wrap_small|]; lia. }
      destruct (IH (v2_pass_state it s)) as (H1 & H2 & H3 & H4); try lia.
      { rewrite Q1, C1. destruct (sel_tap it); lia. }
      { rewrite Q2, C2. destruct (sel_sock it); lia. }
      rewrite !numbered_app, H1, H2, H3, H4, P3, P4.
      unfold reads, receives in *. rewrite !count_calls_app.
      rewrite Q1, Q2, C1, C2.
      split; [destruct (sel_tap it); lia|]. split; [destruct (sel_sock it); lia|].
      split.
      * destruct (sel_tap it); cbn [app Nat.add]; [|rewrite Z.add_0_r; reflexivity].
        rewrite count_from_cons. reflexivity.
      * destruct (sel_sock it); cbn [app Nat.add]; [|rewrite Z.add_0_r; reflexivity].
        rewrite count_from_cons. reflexivity.
Qed.

Lemma v2_counters_number_the_transfers_witness :
  0 <= V2.tap_count v2_relay_P /\
  0 <= V2.sock_count v2_relay_P /\
  V2.tap_count v2_relay_P
    + Z.of_nat (List.length [pass_both_ready; pass_all_fail; pass_frame]) < 2 ^ 31 /\
  V2.sock_count v2_relay_P
    + Z.of_nat (List.length [pass_both_ready; pass_all_fail; pass_frame]) < 2 ^ 31 /\
  V2.tap_count (final (snd (run (V2.relay_loop [pass_both_ready; pass_all_fail; pass_frame])
                                v2_relay_P))) = 3 /\
  V2.sock_count (final (snd (run (V2.relay_loop [pass_both_ready; pass_all_fail; pass_frame])
                                 v2_relay_P))) = 2 /\
  numbered "Get packet from virtual -> real NIC %d\n"
           (calls (fst (run (V2.relay_loop [pass_both_ready; pass_all_fail; pass_frame])
                            v2_relay_P))) = [0; 1; 2] /\
  numbered "Get packet from real -> virtual NIC %d\n"
           (calls (fst (run (V2.relay_loop [pass_both_ready; pass_all_fail; pass_frame])
                            v2_relay_P))) = [0; 1].
Proof.
  split; [discriminate|]. split; [discriminate|].
  split; [reflexivity|]. split; [reflexivity|].
  destruct (v2_counters_number_the_transfers [pass_both_ready; pass_all_fail; pass_frame]
              v2_relay_P) as (H1 & H2 & H3 & H4);
    try first [discriminate | reflexivity].
  rewrite H1, H2, H3, H4. vm_compute. repeat split; reflexivity.
Defined.

(* ================================================================= *)
(** ** A handshake whose [recvfrom] fails *)

(** Memory that differs from the token in no byte, and is as long as the
    token, begins with the token. *)
Lemma not_differs_prefix (tok : list byte) :
  forall buf : list byte,
    (List.length tok <= List.length buf)%nat ->
    differs tok buf = false ->
    buf = tok ++ skipn (List.length tok) buf.
Proof.
  induction tok as [|t tok IH]; intros buf Hlen Hd; [reflexivity|].
  destruct buf as [|b buf]; [cbn in Hlen; lia|].
  cbn [differs] in Hd. apply orb_false_iff in Hd. destruct Hd as [Hb Hd].
  apply negb_false_iff in Hb. apply Byte.byte_dec_bl in Hb. subst b.
  cbn [List.length skipn app]. f_equal. apply IH; [cbn in Hlen; lia|exact Hd].
Qed.

Lemma magic_compare_old_buffer (buf : list byte) :
  (21 <= List.length buf)%nat ->
  (strncmp MAGIC_WORD buf (Z.to_nat sizeof_MAGIC_WORD) =? 0)
  = negb (differs MAGIC_WORD buf).
Proof.
  intros Hlen. destruct (differs MAGIC_WORD buf) eqn:Hd; cbn [negb].
  - apply Z.eqb_neq. apply strncmp_differs.
    + exact magic_word_chars_not_nul.
    + apply Nat.leb_le. vm_compute. reflexivity.
    + exact Hd.
  - apply Z.eqb_eq. rewrite (not_differs_prefix MAGIC_WORD buf Hlen Hd).
    unfold sizeof_MAGIC_WORD. rewrite Nat2Z.id. apply strncmp_prefix.
Qed.

Lemma v2_wait_error (rest : list recv_result) (s : V2.machine) :
  (21 <= List.length (V2.buffer s))%nat ->
  run (V2.wait_for_magic (RecvErr :: rest)) s =
  ((EvRecvfrom BUFSIZE, s) :: (EvPerror "recvfrom", s)
     :: (if differs MAGIC_WORD (V2.buffer s)
         then [(EvPerror "Bad magic word for peer\n", s)] else []),
   if differs MAGIC_WORD (V2.buffer s) then Exited 1 s else Ok tt s).
Proof.
  intros Hlen. pose proof (magic_compare_old_buffer (V2.buffer s) Hlen) as Hc.
  destruct s. cbn [V2.buffer] in *. mred_hs. mred.
  change (-1 <? 0) with true. mred. unfold c_ne. rewrite Hc.
  destruct (differs MAGIC_WORD buffer); reflexivity.
Qed.

Lemma v2_server_recvfrom_fails (w : world) (rest : list recv_result) (s : V2.machine) :
  0 <= w_setsockopt w ->
  0 <= w_bind w ->
  w_hs_recvfrom w = RecvErr :: rest ->
  (21 <= List.length (V2.buffer s))%nat ->
  exists t r,
    run (V2.server_handshake w) s = (t, r) /\
    In (EvPerror "recvfrom") (calls t) /\
    if differs MAGIC_WORD (V2.buffer s) then
      exit_status r = Some 1 /\ sent (calls t) = []
    else
      exists s', r = Ok tt s' /\
                 V2.remote_addr s' = V2.client_addr s /\
                 sent (calls t) = [EvSendto MAGIC_WORD (V2.client_addr s) (V2.clientlen s)].
Proof.
  intros Hso Hb Hrs Hlen.
  rewrite (v2_server_handshake_split w s Hso Hb), Hrs.
  assert (Hlen' : (21 <= List.length
                           (V2.buffer (wr V2.server_addr_ (v2_local_addr (V2.port s)) s)))%nat)
    by (destruct s; exact Hlen).
  pose proof (v2_wait_error rest _ Hlen') as Hw.
  assert (Hbuf : V2.buffer (wr V2.server_addr_ (v2_local_addr (V2.port s)) s) = V2.buffer s)
    by (destruct s; reflexivity).
  rewrite Hbuf in Hw.
  destruct (differs MAGIC_WORD (V2.buffer s)).
  - rewrite (run_bind_exited _ _ _ _ _ _ Hw). cbn [fst snd].
    do 2 eexists. split; [reflexivity|].
    split; [cbn; auto|]. split; reflexivity.
  - rewrite (run_bind_ok _ _ _ _ _ _ Hw).
    match goal with
    | |- context [run (v2_server_reply w) ?st] =>
        destruct (v2_server_reply_run w st) as (t' & Hrep & H5 & H6)
    end.
    rewrite Hrep. cbn [fst snd]. do 2 eexists. split; [reflexivity|].
    split; [cbn; auto|].
    eexists. split; [reflexivity|]. split; [destruct s; reflexivity|].
    unfold sent, calls in *. cbn [map fst app filter is_sendto].
    rewrite H5. destruct s; reflexivity.
Qed.

Lemma v2_client_recvfrom_fails (w : world) (rest : list recv_result) (s : V2.machine) :
  0 <= w_bind w ->
  w_hs_recvfrom w = RecvErr :: rest ->
  exists t r,
    run (V2.client_handshake w) s = (t, r) /\
    In (EvPerror "recvfrom") (calls t) /\
    if Byte.eqb "W" (hd x00 (V2.buffer s)) then
      exists s', r = Ok tt s' /\
                 V2.remote_addr s'
                 = {| sin_family := AF_INET; sin_port := htons (V2.port s);
                      sin_addr := aton_or_zero w (V2.server_ip s) |}
    else exit_status r = Some 1.
Proof.
  intros Hb Hrs. apply Z.ltb_ge in Hb.
  destruct s. unfold aton_or_zero. cbn [V2.server_ip V2.port V2.buffer].
  mred_hs. rewrite Hrs. mred.
  destruct (w_inet_aton w server_ip); mred; rewrite Hb; mred;
    (destruct (w_hs_sendto w <? 0); mred;
     change (-1 <? 0) with true; mred;
     rewrite client_compares_first_byte;
     destruct (Byte.eqb "W" (hd x00 buffer)); cbn [negb]; mred;
     do 2 eexists; (split; [reflexivity|]); (split; [cbn; auto 6|]);
     first [reflexivity | eexists; split; reflexivity]).
Qed.

Lemma v1_client_recvfrom_fails (w : world) (rest : list recv_result) (s : V1.machine) :
  w_hs_recvfrom w = RecvErr :: rest ->
  exists t s',
    run (V1.client_handshake w) s = (t, Ok tt s') /\
    In (EvPerror "recvfrom") (calls t) /\
    V1.server_addr s'
    = {| sin_family := AF_INET; sin_port := htons V1.PORT;
         sin_addr := match w_inet_aton w (V1.server_ip s) with
                     | Some a => a
                     | None => sin_addr (V1.server_addr s)
                     end |} /\
    V1.buffer s' = V1.buffer s.
Proof.
  intros Hrs. destruct s. cbn [V1.server_ip V1.server_addr V1.buffer].
  remember (match w_inet_aton w server_ip with
            | Some a => a
            | None => sin_addr server_addr
            end) as ip eqn:Hip.
  mred_hs. rewrite Hrs. mred.
  repeat (change (-1 <? 0) with true; mred;
          match goal with
          | |- context [match ?c with Some _ => _ | None => _ end] => destruct c eqn:?
          | |- context [if ?c then _ else _] =>
              lazymatch c with
              | true => fail
              | _ => destruct c eqn:?
              end
          end).
  all: change (-1 <? 0) with true; mred.
  all: try match goal with H : w_inet_aton _ _ = _ |- _ => rewrite H in Hip end.
  all: subst ip; do 2 eexists; (split; [reflexivity|]); (split; [cbn; auto 8|]);
    split; reflexivity.
Qed.

(** X20: when the [recvfrom] of the handshake fails, the failure is
    reported with [perror] and the comparison with the magic word is made
    all the same, on what the buffer held before the call.  The v1 client
    goes on to the relay loop whatever the buffer holds, with the server
    address as it sent to it.  The v2 client goes on exactly when the old
    buffer begins with ['W'], and exits with status 1 otherwise.  The v2
    server accepts exactly when the old buffer begins with the 21 bytes of
    the magic word; it then echoes the magic word to the address
    [client_addr] held before, which becomes its peer. *)
Theorem handshake_recvfrom_failure_is_judged_on_old_buffer :
  forall (w : world) (rest : list recv_result) (s1 : V1.machine) (s2 : V2.machine),
    0 <= w_setsockopt w ->
    0 <= w_bind w ->
    w_hs_recvfrom w = RecvErr :: rest ->
    (21 <= List.length (V2.buffer s2))%nat ->
    (exists t s',
        run (V1.client_handshake w) s1 = (t, Ok tt s') /\
        In (EvPerror "recvfrom") (calls t) /\
        V1.server_addr s'
        = {| sin_family := AF_INET; sin_port := htons V1.PORT;
             sin_addr := match w_inet_aton w (V1.server_ip s1) with
                         | Some a => a
                         | None => sin_addr (V1.server_addr s1)
                         end |} /\
        V1.buffer s' = V1.buffer s1) /\
    (exists t r,
        run (V2.client_handshake w) s2 = (t, r) /\
        In (EvPerror "recvfrom") (calls t) /\
        if Byte.eqb "W" (hd x00 (V2.buffer s2)) then
          exists s', r = Ok tt s' /\
                     V2.remote_addr s'
                     = {| sin_family := AF_INET; sin_port := htons (V2.port s2);
                          sin_addr := aton_or_zero w (V2.server_ip s2) |}
        else exit_status r = Some 1) /\
    (exists t r,
        run (V2.server_handshake w) s2 = (t, r) /\
        In (EvPerror "recvfrom") (calls t) /\
        if differs MAGIC_WORD (V2.buffer s2) then
          exit_status r = Some 1 /\ sent (calls t) = []
        else
          exists s', r = Ok tt s' /\
                     V2.remote_addr s' = V2.client_addr s2 /\
                     sent (calls t)
                     = [EvSendto MAGIC_WORD (V2.client_addr s2) (V2.clientlen s2)]).
Proof.
  intros w rest s1 s2 Hso Hb Hrs Hlen. split; [|split].
  - exact (v1_client_recvfrom_fails w rest s1 Hrs).
  - exact (v2_client_recvfrom_fails w rest s2 Hb Hrs).
  - exact (v2_server_recvfrom_fails w rest s2 Hso Hb Hrs Hlen).
Qed.

Lemma handshake_recvfrom_failure_is_judged_on_old_buffer_witness :
  0 <= w_setsockopt world_recvfrom_fails /\
  0 <= w_bind world_recvfrom_fails /\
  w_hs_recvfrom world_recvfrom_fails = RecvErr :: [] /\
  (21 <= List.length (V2.buffer v2_relay_P))%nat /\
  (exists t s',
      run (V1.client_handshake world_recvfrom_fails) v1_client_P = (t, Ok tt s') /\
      In (EvPerror "recvfrom") (calls t) /\
      V1.server_addr s' = addr_P1) /\
  (exists t r,
      run (V2.client_handshake world_recvfrom_fails) v2_relay_P = (t, r) /\
      exit_status r = Some 1) /\
  (exists t r,
      run (V2.server_handshake world_recvfrom_fails) v2_relay_P = (t, r) /\
      exit_status r = Some 1 /\ sent (calls t) = []).
Proof.
  split; [discriminate|]. split; [discriminate|]. split; [reflexivity|].
  assert (Hlen : (21 <= List.length (V2.buffer v2_relay_P))%nat)
    by (apply Nat.leb_le; vm_compute; reflexivity).
  split; [exact Hlen|].
  destruct (handshake_recvfrom_failure_is_judged_on_old_buffer world_recvfrom_fails []
              v1_client_P v2_relay_P) as (H1 & H2 & H3);
    try first [discriminate | reflexivity | exact Hlen].
  split; [|split].
  - destruct H1 as (t & s' & Hrun & Hp & Ha & _). exists t, s'. auto.
  - destruct H2 as (t & r & Hrun & _ & Hr). exists t, r. auto.
  - destruct H3 as (t & r & Hrun & _ & Hr). exists t, r.
    change (differs MAGIC_WORD (V2.buffer v2_relay_P)) with true in Hr.
    destruct Hr. auto.
Defined.

(* ================================================================= *)
(** ** The debugging output of v1 *)

Lemma silent_ret {S A} (P : S -> Prop) (p : event -> bool) (a : A) :
  silent_if P p (@ret S A a).
Proof. intros s Hs. split; [reflexivity|exact Hs]. Qed.

Lemma silent_exit {S A} (P : S -> Prop) (p : event -> bool) (st : Z) :
  silent_if P p (@exit S A st).
Proof. intros s Hs. split; [reflexivity|exact Hs]. Qed.

Lemma silent_blocked {S A} (P : S -> Prop) (p : event -> bool) (w : wait_point) :
  silent_if P p (@blocked S A w).
Proof. intros s Hs. split; [reflexivity|exact Hs]. Qed.

Lemma silent_gets {S T} (P : S -> Prop) (p : event -> bool) (g : S -> T) :
  silent_if P p (gets g).
Proof. intros s Hs. split; [reflexivity|exact Hs]. Qed.

Lemma silent_modify {S} (P : S -> Prop) (p : event -> bool) (f : S -> S) :
  (forall s, P s -> P (f s)) -> silent_if P p (modify f).
Proof. intros Hf s Hs. split; [reflexivity|apply Hf, Hs]. Qed.

Lemma silent_emit {S} (P : S -> Prop) (p : event -> bool) (e : event) :
  p e = false -> silent_if P p (@emit S e).
Proof. intros H s Hs. split; [cbn; rewrite H; reflexivity|exact Hs]. Qed.

Lemma silent_bind {S A B} (P : S -> Prop) (p : event -> bool) (m : M S A)
    (f : A -> M S B) :
  silent_if P p m -> (forall a, silent_if P p (f a)) -> silent_if P p (bind m f).
Proof.
  intros Hm Hf s Hs. specialize (Hm s Hs). unfold run, bind in *.
  destruct (m s) as [t [a s'|st s'|w s']]; cbn [fst snd final] in *; try exact Hm.
  destruct Hm as [Ht Hs']. specialize (Hf a s' Hs'). unfold run in Hf.
  destruct (f a s') as [t' r]. cbn [fst snd] in *. destruct Hf as [Ht' Hr].
  split; [|exact Hr]. unfold calls in *. rewrite map_app, existsb_app, Ht, Ht'.
  reflexivity.
Qed.

Lemma silent_when {S} (P : S -> Prop) (p : event -> bool) (c : bool) (m : M S unit) :
  silent_if P p m -> silent_if P p (when c m).
Proof. destruct c; [auto|intros _; apply silent_ret]. Qed.

(** [do_debug] prints nothing while [debug] is 0. *)
Lemma do_debug_silent (msg : string) (args : list parg) :
  silent_if (fun s => V1.debug s = 0) is_stderr (V1.do_debug msg args).
Proof.
  intros s Hs. destruct s. cbn [V1.debug] in Hs. subst. split; reflexivity.
Qed.

Ltac silent_step :=
  first
    [ apply do_debug_silent
    | apply silent_bind; [|intros ?]
    | apply silent_ret | apply silent_exit | apply silent_blocked
    | apply silent_gets
    | apply silent_modify; intros [] Hdebug; exact Hdebug
    | apply silent_when
    | apply silent_emit; reflexivity
    | match goal with
      | |- silent_if _ _ (if ?c then _ else _) => destruct c
      | |- silent_if _ _ (match ?c with RecvErr => _ | RecvOk _ _ _ => _ end) => destruct c
      | |- silent_if _ _ (match ?c with ReadErr => _ | ReadOk _ => _ end) => destruct c
      | |- silent_if _ _ (match ?c with Some _ => _ | None => _ end) => destruct c
      | |- silent_if _ _ (match ?c with [] => _ | _ :: _ => _ end) => destruct c
      end ].

Ltac silent_tac :=
  unfold assign, update, perror, printf, sendto, write, read,
    recvfrom, recvfrom_blocking, inet_aton;
  repeat silent_step.

Lemma v1_wait_for_magic_silent (rs : list recv_result) :
  silent_if (fun s => V1.debug s = 0) is_stderr (V1.wait_for_magic rs).
Proof.
  induction rs as [|r rs IH]; cbn [V1.wait_for_magic]; silent_tac. exact IH.
Qed.

Lemma v1_relay_iterations_silent (its : list iteration) :
  silent_if (fun s => V1.debug s = 0) is_stderr (V1.relay_iterations its).
Proof.
  induction its as [|it its IH]; cbn [V1.relay_iterations]; [apply silent_ret|].
  apply silent_bind; [|intros _; exact IH].
  unfold V1.relay_iteration, V1.tap_branch, V1.sock_branch. silent_tac.
Qed.

Lemma v1_session_silent (w : world) :
  silent_if (fun s => V1.debug s = 0) is_stderr (v1_session w).
Proof.
  unfold v1_session, V1.client_handshake, V1.server_handshake, V1.relay_loop.
  silent_tac.
  all: first [apply v1_wait_for_magic_silent | apply v1_relay_iterations_silent].
Qed.

Lemma v1_open_devices_ok (w : world) (s : V1.machine) :
  devices_fail w = false ->
  run (V1.open_devices w) s =
  ((EvOpen, s)
     :: (EvIoctl (if is_empty (V1.if_name s) then "" else strncpy (V1.if_name s) IFNAMSIZ)
                 (Z.lor (V1.flags s) IFF_NO_PI), s)
     :: (if c_true (V1.debug s)
         then [(EvStderr "Successfully connected to interface %s\n" [PStr (w_ifr_name w)],
                wr V1.if_name_ (w_ifr_name w) s)]
         else [])
     ++ [(EvSocket, wr V1.if_name_ (w_ifr_name w) s)],
   Ok tt (wr V1.if_name_ (w_ifr_name w) s)).
Proof.
  unfold devices_fail. intros H.
  apply orb_false_iff in H. destruct H as [H Hs].
  apply orb_false_iff in H. destruct H as [Ho Hi].
  destruct s. unfold V1.open_devices, tun_alloc. cbn [V1.if_name V1.flags V1.debug].
  repeat (mred; rewrite ?Ho, ?Hi, ?Hs).
  destruct (c_true debug) eqn:Hd; repeat (mred; rewrite ?Ho, ?Hi, ?Hs, ?Hd); reflexivity.
Qed.

(** X21: the debugging output of v1 needs [-d].  With an accepted command
    line and the devices open, a run without [-d] makes no [fprintf] to
    [stderr] at all, in the set-up, in the handshake of either role and in
    any number of passes of the relay loop: [do_debug] prints nothing and
    [my_err] is not reached.  With [-d], [do_debug] reports the interface
    under the name the kernel gave it. *)
Theorem v1_debug_output_needs_the_d_option :
  forall (w : world) (s : V1.machine),
    v1_config_ok w s = true ->
    devices_fail w = false ->
    if no_option "d" (w_getopt w)
    then existsb is_stderr (calls (fst (run (V1.main w) s))) = false
    else In (EvStderr "Successfully connected to interface %s\n" [PStr (w_ifr_name w)])
            (calls (fst (run (V1.main w) s))).
Proof.
  intros w s Hok Hdev.
  pose proof (v1_main_command_line w s) as Hm. rewrite Hok in Hm. rewrite Hm.
  change (v1_after_options w) with (bind (V1.open_devices w) (fun _ => v1_session w)).
  rewrite (run_bind_ok _ _ _ _ _ _ (v1_open_devices_ok w (v1_parsed w s) Hdev)).
  cbn [fst].
  destruct (v1_parsed_fields (w_getopt w) (v1_init s)) as (_ & _ & _ & _ & Hd & _).
  fold (v1_parsed w s) in Hd.
  assert (Hd0 : V1.debug (v1_init s) = 0) by (destruct s; reflexivity).
  rewrite Hd0 in Hd.
  rewrite calls_app.
  destruct (no_option "d" (w_getopt w)); rewrite Hd.
  - change (c_true 0) with false.
    destruct (v1_session_silent w (wr V1.if_name_ (w_ifr_name w) (v1_parsed w s)))
      as [Hsil _].
    { destruct (v1_parsed w s). exact Hd. }
    rewrite existsb_app, Hsil. reflexivity.
  - change (c_true 1) with true. apply in_or_app. left.
    cbn. auto.
Qed.

Lemma v1_debug_output_needs_the_d_option_witness :
  v1_config_ok world_debug v1_stack = true /\
  devices_fail world_debug = false /\
  no_option "d" (w_getopt world_debug) = false /\
  In (EvStderr "Successfully connected to interface %s\n" [PStr "tun0"])
     (calls (fst (run (V1.main world_debug) v1_stack))).
Proof.
  split; [reflexivity|]. split; [reflexivity|]. split; [reflexivity|].
  exact (v1_debug_output_needs_the_d_option world_debug v1_stack eq_refl eq_refl).
Defined.
